(** * Arc API gateway: credential lookup, operation tokens, logs plugin, users store

    A shallow embedding of the Go sources
      - internal/types/op/Op.go            (module [Op])
      - plugins/auth/dao_es6.go            (module [AuthDao])
      - the logs plugin middleware, in its two revisions (modules
        [LogsArc] and [LogsRS])
      - the logs plugin store and its rollover job (module [LogsDao])
      - the users plugin store (module [UsersDao])
    together with the properties the specification states about them.

    Go values are modelled as follows: [string] and [[]byte] as [string]
    (a sequence of bytes), [int] as [Z], [map[string]T] as [gmap string T],
    a [(value, error)] return as a pair whose components may both be absent,
    exactly as Go allows both to be nil. *)

From stdpp Require Import gmap strings list sorting.
From Stdlib Require Import ZArith Ascii.

Local Open Scope Z_scope.

(** ** Errors *)

(** A Go [error]: a value carrying its message. *)
Inductive error := Error (msg : string).

Global Instance error_eq_dec : EqDecision error.
Proof. solve_decision. Defined.

(** * encoding/json, restricted to string values

    [Op.go] marshals and unmarshals one Go [string]. The codec below follows
    the library for that case: the encoder of [encodeState.string] with HTML
    escaping (the default of [json.Marshal]) and the decoder of a single JSON
    value into a [*string]. Bytes above 0x7f are copied as they are (the
    library's repair of ill-formed UTF-8 is outside the model). *)
Module Json.

Local Open Scope N_scope.

Definition dquote : ascii := "034"%char.
Definition backslash : ascii := "092"%char.

Definition hex_digit (n : N) : ascii :=
  ascii_of_N (if (n <? 10)%N then 48 + n else 87 + n)%N.

(** One byte of a string, as [encodeState.string] writes it. *)
Definition encode_byte (c : ascii) : string :=
  let n := N_of_ascii c in
  if decide (c = dquote) then String backslash (String dquote "")
  else if decide (c = backslash) then String backslash (String backslash "")
  else if decide (c = "010"%char) then String backslash "n"
  else if decide (c = "013"%char) then String backslash "r"
  else if decide (c = "009"%char) then String backslash "t"
  else if ((n <? 32) || (n =? 60) || (n =? 62) || (n =? 38))%N
       then String backslash
              (String "u" (String "0" (String "0"
                 (String (hex_digit (n / 16)) (String (hex_digit (n mod 16)) "")))))
  else String c "".

Fixpoint encode_bytes (s : string) : string :=
  match s with
  | "" => ""
  | String c s' => encode_byte c +:+ encode_bytes s'
  end.

(** [json.Marshal(s)] for a Go string [s]. *)
Definition Marshal (s : string) : string :=
  String dquote (encode_bytes s +:+ String dquote "").

(** *** Decoding *)

Definition is_ws (c : ascii) : bool :=
  match c with
  | " "%char | "009"%char | "010"%char | "013"%char => true
  | _ => false
  end.

Fixpoint skip_ws (s : string) : string :=
  match s with
  | String c s' => if is_ws c then skip_ws s' else s
  | "" => ""
  end.

Definition hex_val (c : ascii) : option N :=
  let n := N_of_ascii c in
  if ((48 <=? n) && (n <=? 57))%N then Some (n - 48)%N
  else if ((97 <=? n) && (n <=? 102))%N then Some (n - 87)%N
  else if ((65 <=? n) && (n <=? 70))%N then Some (n - 55)%N
  else None.

(** The pieces of a string literal: a literal byte or a [\uXXXX] escape. *)
Inductive item := Lit (c : ascii) | U16 (n : N).

(** Scanner state inside a string literal: plain text, just after a
    backslash, or inside [\u] with [k] more hex digits to read after the
    next one. *)
Inductive lexst := Plain | Esc | Hex (k : nat) (acc : N).

(** The byte a one-letter escape stands for. *)
Definition escaped (c : ascii) : option ascii :=
  if decide (c = dquote) then Some dquote
  else if decide (c = backslash) then Some backslash
  else if decide (c = "/"%char) then Some "/"%char
  else if decide (c = "b"%char) then Some "008"%char
  else if decide (c = "f"%char) then Some "012"%char
  else if decide (c = "n"%char) then Some "010"%char
  else if decide (c = "r"%char) then Some "013"%char
  else if decide (c = "t"%char) then Some "009"%char
  else None.

(** Reads a string literal after its opening quote. Returns the pieces and
    the text after the closing quote, or [None] on a syntax error. *)
Fixpoint lex_string (st : lexst) (acc : list item) (s : string)
  : option (list item * string) :=
  match s with
  | "" => None
  | String c rest =>
    match st with
    | Plain =>
      if decide (c = dquote) then Some (rev acc, rest)
      else if decide (c = backslash) then lex_string Esc acc rest
      else if (N_of_ascii c <? 32)%N then None
      else lex_string Plain (Lit c :: acc) rest
    | Esc =>
      if decide (c = "u"%char) then lex_string (Hex 3 0%N) acc rest
      else match escaped c with
           | Some c' => lex_string Plain (Lit c' :: acc) rest
           | None => None
           end
    | Hex k n =>
      match hex_val c with
      | None => None
      | Some d =>
        let n' := (16 * n + d)%N in
        match k with
        | O => lex_string Plain (U16 n' :: acc) rest
        | S k' => lex_string (Hex k' n') acc rest
        end
      end
    end
  end.

Definition is_high (n : N) : bool := ((55296 <=? n) && (n <? 56320))%N.
Definition is_low (n : N) : bool := ((56320 <=? n) && (n <? 57344))%N.

(** [utf8.EncodeRune] for a code point that is not a surrogate. *)
Definition utf8 (r : N) : string :=
  let b (n : N) := ascii_of_N n in
  if (r <? 128)%N then String (b r) ""
  else if (r <? 2048)%N then
    String (b (192 + r / 64)) (String (b (128 + r mod 64)) "")
  else if (r <? 65536)%N then
    String (b (224 + r / 4096))
      (String (b (128 + (r / 64) mod 64)) (String (b (128 + r mod 64)) ""))
  else
    String (b (240 + r / 262144))
      (String (b (128 + (r / 4096) mod 64))
         (String (b (128 + (r / 64) mod 64)) (String (b (128 + r mod 64)) ""))).

Definition replacement : N := 65533%N.

(** The text a string literal denotes. A [\u] escape holding a surrogate is
    joined with a following low surrogate when the two form a pair, and is
    the replacement character otherwise. *)
Fixpoint unescape (l : list item) : string :=
  match l with
  | [] => ""
  | Lit c :: l' => String c (unescape l')
  | U16 h :: l' =>
    if is_high h || is_low h then
      match l' with
      | U16 lo :: l'' =>
        if is_high h && is_low lo
        then utf8 (65536 + (h - 55296) * 1024 + (lo - 56320))%N +:+ unescape l''
        else utf8 replacement +:+ unescape l'
      | _ => utf8 replacement +:+ unescape l'
      end
    else utf8 h +:+ unescape l'
  end.

Definition all_ws (s : string) : bool :=
  match skip_ws s with "" => true | _ => false end.

Definition syntax_error : error := Error "json: cannot decode the input into a string".

(** [json.Unmarshal(data, &s)] for a Go string [s] that holds [s0] before the
    call. The result is the value of [s] afterwards and the error. A JSON
    [null] leaves [s] as it is and is no error; anything that is not a single
    string literal is an error. *)
Definition Unmarshal (data : string) (s0 : string) : string * option error :=
  match skip_ws data with
  | String c rest =>
    if decide (c = dquote) then
      match lex_string Plain [] rest with
      | Some (items, rest') =>
        if all_ws rest' then (unescape items, None) else (s0, Some syntax_error)
      | None => (s0, Some syntax_error)
      end
    else
      match skip_ws data with
      | String "n" (String "u" (String "l" (String "l" rest'))) =>
        if all_ws rest' then (s0, None) else (s0, Some syntax_error)
      | _ => (s0, Some syntax_error)
      end
  | "" => (s0, Some syntax_error)
  end.

End Json.

(** * internal/types/op/Op.go *)
Module Op.

(** [type Operation int] *)
Definition Operation : Type := Z.

Definition Noop : Operation := 0.
Definition Read : Operation := 1.
Definition Write : Operation := 2.
Definition Delete : Operation := 3.

(** [func (o Operation) String() string]: indexes a four-element array; an
    index outside it panics, which is [None] here. *)
Definition String' (o : Operation) : option string :=
  if decide (0 <= o) then ["noop"; "read"; "write"; "delete"] !! Z.to_nat o
  else None.

(** The four tokens [Noop.String()], ..., [Delete.String()]. *)
Definition noop_s : string := "noop".
Definition read_s : string := "read".
Definition write_s : string := "write".
Definition delete_s : string := "delete".

(** [func (o *Operation) UnmarshalJSON(bytes []byte) error]: [o] is the value
    behind the receiver before the call; the result is the value behind it
    afterwards, and the error. *)
Definition UnmarshalJSON (o : Operation) (bytes : string) : Operation * option error :=
  let '(op, err) := Json.Unmarshal bytes "" in
  match err with
  | Some e => (o, Some e)
  | None =>
    if decide (op = noop_s) then (Noop, None)
    else if decide (op = read_s) then (Read, None)
    else if decide (op = write_s) then (Write, None)
    else if decide (op = delete_s) then (Delete, None)
    else (o, Some (Error ("invalid op encountered: " +:+ op)))
  end.

(** [func (o Operation) MarshalJSON() ([]byte, error)] *)
Definition MarshalJSON (o : Operation) : option string * option error :=
  let op := "" in
  if decide (o = Noop) then (Some (Json.Marshal noop_s), None)
  else if decide (o = Read) then (Some (Json.Marshal read_s), None)
  else if decide (o = Write) then (Some (Json.Marshal write_s), None)
  else if decide (o = Delete) then (Some (Json.Marshal delete_s), None)
  else (None, Some (Error ("invalid op encountered: " +:+ op))).

(** The operations and the tokens of the specification. *)
Definition operations : list Operation := [Noop; Read; Write; Delete].
Definition tokens : list string := ["noop"; "read"; "write"; "delete"].

End Op.

(** * Shared types of the model packages *)
Module Model.

(** A function that returns or panics (a nil dereference, an index out of
    range). *)
Inductive outcome (A : Type) := Return (a : A) | Panic.
Global Arguments Return {A} a.
Global Arguments Panic {A}.

(** Modelled from the spec: the [user.User] record of package [model/user],
    whose declaration is not among the sources. The fields are those the
    specification lists for a User, with the hash-algorithm tag the users
    store reads and writes ([PasswordHashType]). *)
Record User := {
  Username : string;
  Password : string;
  PasswordHashType : string;
  IsAdmin : bool;
  Categories : list string;
  ACLs : list string;
  Ops : list Op.Operation;
  Indices : list string;
  Email : string;
  CreatedAt : string
}.

(** Modelled from the spec: the [permission.Permission] record of package
    [model/permission], whose declaration is not among the sources. *)
Record Permission := {
  PUsername : string;
  PPassword : string;
  Owner : string;
  Creator : string;
  PCategories : list string;
  PACLs : list string;
  POps : list Op.Operation;
  PIndices : list string;
  Sources : list string;
  Referers : list string;
  PCreatedAt : string;
  TTL : Z;
  Limits : list (string * Z);
  Description : string
}.

(** [credential.AuthCredential]: the interface both records implement; the
    value behind it is a [*user.User] or a [*permission.Permission]. *)
Inductive AuthCredential :=
| CredUser (u : User)
| CredPermission (p : Permission).

End Model.

(** * plugins/auth/dao_es6.go *)
Module AuthDao.
Import Model.

(** A document of the cluster as the credential search sees it: the index it
    lives in, the value of its [username.keyword] field, and its source. *)
Record Doc := {
  doc_index : string;
  doc_username : string;
  doc_source : option string
}.

(** [elastic.SearchHit]: [Index] and [Source] (a [*json.RawMessage], nil when
    the hit carries no source). *)
Record SearchHit := {
  Index : string;
  Source : option string
}.

(** The Elasticsearch cluster behind [es.client]. A request to a cluster
    that is not [reachable] returns an error. *)
Record Cluster := {
  reachable : bool;
  documents : list Doc
}.

Definition unreachable : error := Error "elastic: no Elasticsearch node available".

(** The documents of indices [idx] that a term query on [username.keyword]
    matches. *)
Definition matching (c : Cluster) (idx : list string) (username : string) : list Doc :=
  filter (λ d, doc_index d ∈ idx ∧ doc_username d = username) (documents c).

(** [client.Search().Index(idx...).Query(NewTermQuery("username.keyword",
    username)).FetchSource(true).Do(ctx)]: the hits of the response, or an
    error. The response is taken to list every match. *)
Definition Search (c : Cluster) (idx : list string) (username : string)
  : option (list SearchHit) * option error :=
  if reachable c
  then (Some ((λ d, {| Index := doc_index d; Source := doc_source d |})
                <$> matching c idx username), None)
  else (None, Some unreachable).

(** [type elasticsearch struct] (the fields the lookup uses). *)
Record elasticsearch := {
  userIndex : string;
  permissionIndex : string;
  client : Cluster
}.

Section Lookup.

(** [json.Unmarshal] into a [user.User] and into a [permission.Permission]:
    the decoded record, or the decoding error. *)
Variable unmarshalUser : string → User + error.
Variable unmarshalPermission : string → Permission + error.

(** The body of [for _, hit := range response.Hits.Hits]: [obj] is the
    credential found so far; the result is the new [obj], or an early
    return, or a panic when the source of a permission hit is nil. *)
Definition visit (es : elasticsearch) (obj : option AuthCredential) (hit : SearchHit)
  : outcome (option AuthCredential + error) :=
  if decide (Index hit = userIndex es) then
    match Source hit with
    | Some src =>
      match unmarshalUser src with
      | inr err => Return (inr err)
      | inl u => Return (inl (Some (CredUser u)))
      end
    | None => Return (inl obj)
    end
  else if decide (Index hit = permissionIndex es) then
    match Source hit with
    | None => Panic
    | Some src =>
      match unmarshalPermission src with
      | inr err => Return (inr err)
      | inl p => Return (inl (Some (CredPermission p)))
      end
    end
  else Return (inl obj).

Fixpoint range_hits (es : elasticsearch) (obj : option AuthCredential)
    (hits : list SearchHit) : outcome (option AuthCredential * option error) :=
  match hits with
  | [] => Return (obj, None)
  | hit :: hits' =>
    match visit es obj hit with
    | Panic => Panic
    | Return (inr err) => Return (None, Some err)
    | Return (inl obj') => range_hits es obj' hits'
    end
  end.

(** [func (es *elasticsearch) getCredential(ctx, username)
      (credential.AuthCredential, error)] *)
Definition getCredential (es : elasticsearch) (username : string)
  : outcome (option AuthCredential * option error) :=
  match Search (client es) [userIndex es; permissionIndex es] username with
  | (_, Some err) => Return (None, Some err)
  | (None, None) => Panic
  | (Some hits, None) =>
    if decide (1 < length hits)%nat
    then Return (None, Some (Error
           ("more than one result for " +:+ String Json.dquote "username"
              +:+ String Json.dquote "=" +:+ String Json.dquote username
              +:+ String Json.dquote "")))
    else range_hits es None hits
  end.

End Lookup.

(** The documents behind [es.client] as the requests by id see them: the
    source stored under an index and an id. *)
Record Store := {
  up : bool;
  sources : gmap (string * string) string
}.

Definition not_found : error := Error "elastic: Error 404 (Not Found)".

Section Documents.

(** [json.Marshal] of a user and of a permission (the body [BodyJson]
    sends), and [json.Unmarshal] into each. *)
Variable marshalUser : User → string.
Variable marshalPermission : Permission → string.
Variable unmarshalUser : string → User + error.
Variable unmarshalPermission : string → Permission + error.

(** The index request [Index(index).Id(id).BodyJson(body)]. *)
Definition index_doc (st : Store) (index id body : string) : (bool * option error) * Store :=
  if up st
  then ((true, None), {| up := up st; sources := <[(index, id) := body]> (sources st) |})
  else ((false, Some unreachable), st).

(** The get request [Get().Index(index).Id(id).FetchSource(true)], followed
    by [Source.MarshalJSON()]: the source, or the error of the request (404
    for a document that is not there). *)
Definition get_source (st : Store) (index id : string) : option string * option error :=
  if up st then
    match sources st !! (index, id) with
    | Some src => (Some src, None)
    | None => (None, Some not_found)
    end
  else (None, Some unreachable).

(** [func (es *elasticsearch) putUser(ctx, u user.User) (bool, error)] *)
Definition putUser (es : elasticsearch) (st : Store) (u : User) : (bool * option error) * Store :=
  index_doc st (userIndex es) (Username u) (marshalUser u).

(** [func (es *elasticsearch) getRawUser(ctx, username) ([]byte, error)] *)
Definition getRawUser (es : elasticsearch) (st : Store) (username : string)
  : option string * option error :=
  get_source st (userIndex es) username.

(** [func (es *elasticsearch) getUser(ctx, username)] *)
Definition getUser (es : elasticsearch) (st : Store) (username : string)
  : option User * option error :=
  match getRawUser es st username with
  | (_, Some err) => (None, Some err)
  | (data, None) =>
    match unmarshalUser (default "" data) with
    | inr err => (None, Some err)
    | inl u => (Some u, None)
    end
  end.

(** [func (es *elasticsearch) putPermission(ctx, p permission.Permission)
      (bool, error)] *)
Definition putPermission (es : elasticsearch) (st : Store) (p : Permission)
  : (bool * option error) * Store :=
  index_doc st (permissionIndex es) (PUsername p) (marshalPermission p).

(** [func (es *elasticsearch) getRawPermission(ctx, username)
      ([]byte, error)] *)
Definition getRawPermission (es : elasticsearch) (st : Store) (username : string)
  : option string * option error :=
  get_source st (permissionIndex es) username.

(** [func (es *elasticsearch) getPermission(ctx, username)] *)
Definition getPermission (es : elasticsearch) (st : Store) (username : string)
  : option Permission * option error :=
  match getRawPermission es st username with
  | (_, Some err) => (None, Some err)
  | (data, None) =>
    match unmarshalPermission (default "" data) with
    | inr err => (None, Some err)
    | inl p => (Some p, None)
    end
  end.

End Documents.

(** A permission document as the term query on its role sees it, and the
    cluster holding such documents, in the order it lists them. *)
Record RoleDoc := {
  rd_index : string;
  rd_role : string;
  rd_source : option string
}.

Record RoleCluster := {
  answers : bool;
  role_documents : list RoleDoc
}.

Definition role_matching (c : RoleCluster) (index role : string) : list RoleDoc :=
  filter (λ d, rd_index d = index ∧ rd_role d = role) (role_documents c).

(** [client.Search().Index(index).Query(NewTermQuery("role", role)).Size(1)
      .FetchSource(true).Do(ctx)]: at most one hit, the first match. *)
Definition SearchRole (c : RoleCluster) (index role : string)
  : option (list SearchHit) * option error :=
  if answers c
  then (Some (take 1 ((λ d, {| Index := rd_index d; Source := rd_source d |})
                        <$> role_matching c index role)), None)
  else (None, Some unreachable).

Section Roles.

(** [json.Marshal] of a [json.RawMessage], and [json.Unmarshal] into a
    permission. *)
Variable marshalRaw : string → string + error.
Variable unmarshalPermission : string → Permission + error.

(** The loop of [getRawRolePermission] over the hits: the first source that
    marshals is returned; a hit without source is a nil dereference. *)
Fixpoint first_marshalled (hits : list SearchHit) : outcome (option string * option error) :=
  match hits with
  | [] => Return (None, None)
  | hit :: rest =>
    match Source hit with
    | None => Panic
    | Some raw =>
      match marshalRaw raw with
      | inl src => Return (Some src, None)
      | inr _ => first_marshalled rest
      end
    end
  end.

(** [func (es *elasticsearch) getRawRolePermission(ctx, role)
      ([]byte, error)] *)
Definition getRawRolePermission (es : elasticsearch) (c : RoleCluster) (role : string)
  : outcome (option string * option error) :=
  match SearchRole c (permissionIndex es) role with
  | (_, Some err) => Return (None, Some err)
  | (resp, None) => first_marshalled (default [] resp)
  end.

(** [func (es *elasticsearch) getRolePermission(ctx, role)] *)
Definition getRolePermission (es : elasticsearch) (c : RoleCluster) (role : string)
  : outcome (option Permission * option error) :=
  match getRawRolePermission es c role with
  | Panic => Panic
  | Return (_, Some err) => Return (None, Some err)
  | Return (data, None) =>
    match unmarshalPermission (default "" data) with
    | inr err => Return (None, Some err)
    | inl p => Return (Some p, None)
    end
  end.

End Roles.

End AuthDao.

(** * Byte strings: lengths, slices, [strings.Split], [strings.Join] *)
Module Bytes.

(** [len(s)] *)
Definition len (s : string) : Z := Z.of_nat (String.length s).

Fixpoint take (n : nat) (s : string) : string :=
  match n, s with
  | S n', String c s' => String c (take n' s')
  | _, _ => ""
  end.

(** [s[:n]]: the first [n] bytes; a bound outside [0, len(s)] panics. *)
Definition slice_to (s : string) (n : Z) : Model.outcome string :=
  if decide (0 ≤ n ∧ n ≤ len s) then Model.Return (take (Z.to_nat n) s)
  else Model.Panic.

(** Modelled from the spec: [util.Min] of package [util], which is not among
    the sources: the smaller of two ints, used to cap a recorded body at the
    size ceiling of the audit log. *)
Definition Min (a b : Z) : Z := if decide (a < b) then a else b.

Definition CR : ascii := "013"%char.
Definition LF : ascii := "010"%char.
Definition CRLF : string := String CR (String LF "").

(** [strings.Split(s, sep)] for a separator that is not empty: the pieces of
    [s] between the occurrences of [sep], found from the left. [skip] counts
    the bytes of a separator just matched that are still to be passed over;
    the head of the result is the piece being read. *)
Fixpoint split_go (sep : string) (skip : nat) (s : string) : list string :=
  match s with
  | "" => [""]
  | String c s' =>
    match skip with
    | S k => split_go sep k s'
    | O =>
      if String.prefix sep s
      then "" :: split_go sep (String.length sep - 1) s'
      else match split_go sep 0 s' with
           | piece :: pieces => String c piece :: pieces
           | [] => [String c ""]
           end
    end
  end.

Definition Split (s sep : string) : list string := split_go sep 0 s.

(** The size ceiling of a recorded body, and the first [n] bytes of a
    text. *)
Definition ceiling : Z := 1000000.
Definition first_bytes (n : Z) (b : string) : string := take (Z.to_nat n) b.

(** [strings.Join(elems, sep)] *)
Fixpoint Join (elems : list string) (sep : string) : string :=
  match elems with
  | [] => ""
  | [e] => e
  | e :: rest => e +:+ sep +:+ Join rest sep
  end.

End Bytes.

(** * net/http and the request context, as the logs plugin uses them *)
Module Http.

(** [http.Header], a [map[string][]string]. *)
Abbreviation Header := (gmap string (list string)).

(** [h.Get(key)]: the first value stored under the key, or the empty string.
    The key is given in its canonical form. *)
Definition Get (h : Header) (key : string) : string :=
  match h !! key with
  | Some (v :: _) => v
  | _ => ""
  end.

(** Modelled from the spec: the [category.Category] enumeration of package
    [model/category], whose declaration is not among the sources: the
    categories the specification names. *)
Inductive Category :=
| Docs | Search | IndicesAdmin | Clusters
| Logs | User | Permission | Analytics | ReactiveSearch.

Global Instance Category_eq_dec : EqDecision Category.
Proof. solve_decision. Defined.

(** The values a request context carries for the logs plugin:
    [category.FromContext], [index.FromContext] and [request.FromContext]
    return an error when theirs is absent. The ReactiveSearch request is kept
    as the text [json.Marshal] gives for it. *)
Record Context := {
  ctx_category : option Category;
  ctx_indices : option (list string);
  ctx_request : option string
}.

(** [*http.Request]. [ReqBody] is [None] for a body that cannot be read. *)
Record Request := {
  Method : string;
  Path : string;
  Host : string;
  ReqHeader : Header;
  ReqBody : option string;
  Ctx : Context
}.

(** The state behind an [http.ResponseWriter], the server's as well as an
    [httptest.ResponseRecorder]: the header map, the status code with the
    headers as they stood when it was written, and the body written. *)
Record Writer := {
  hdr : Header;
  sent : option (Z * Header);
  body : string
}.

(** [httptest.NewRecorder()] *)
Definition NewRecorder : Writer := {| hdr := ∅; sent := None; body := "" |}.

(** [w.WriteHeader(code)]: only the first call counts. *)
Definition WriteHeader (code : Z) (w : Writer) : Writer :=
  match sent w with
  | Some _ => w
  | None => {| hdr := hdr w; sent := Some (code, hdr w); body := body w |}
  end.

(** [w.Write(b)]: writes status 200 first when none was written. *)
Definition Write (b : string) (w : Writer) : Writer :=
  let w' := WriteHeader 200 w in
  {| hdr := hdr w'; sent := sent w'; body := body w' +:+ b |}.

(** [respRecorder.Code]: 200 until a status is written. *)
Definition Code (w : Writer) : Z :=
  match sent w with Some (c, _) => c | None => 200 end.

(** The headers of [respRecorder.Result()]: those that stood when the status
    was written, or the header map when none was. *)
Definition ResultHeader (w : Writer) : Header :=
  match sent w with Some (_, h) => h | None => hdr w end.

(** [for k, v := range src { w.Header()[k] = v }] *)
Definition copy_headers (src : Header) (w : Writer) : Writer :=
  {| hdr := src ∪ hdr w; sent := sent w; body := body w |}.

(** What the recorder middleware writes to the client's writer [w] from a
    recorder [rec]: the headers copied, then the status code, then the
    body. *)
Definition copied (rec w : Writer) : Writer :=
  Write (body rec) (WriteHeader (Code rec) (copy_headers (hdr rec) w)).

(** [http.HandlerFunc]: what the handler does to the writer it is given. *)
Definition HandlerFunc : Type := Writer → Request → Writer.

Definition header_line (kv : string * list string) : string :=
  foldr (λ v acc, kv.1 +:+ ": " +:+ v +:+ Bytes.CRLF +:+ acc) "" kv.2.

Definition header_lines (h : Header) : string :=
  foldr (λ k acc, header_line (k, default [] (h !! k)) +:+ acc) ""
        (merge_sort String.le (map_to_list h).*1).

(** [httputil.DumpRequest(r, true)] for a request without chunked transfer
    encoding: the request line, the Host line, the header lines, an empty
    line and the body; an error when the body cannot be read. *)
Definition DumpRequest (r : Request) : string + error :=
  match ReqBody r with
  | None => inr (Error "http: the request body cannot be read")
  | Some b =>
    inl (Method r +:+ " " +:+ Path r +:+ " HTTP/1.1" +:+ Bytes.CRLF
         +:+ "Host: " +:+ Host r +:+ Bytes.CRLF
         +:+ header_lines (ReqHeader r) +:+ Bytes.CRLF +:+ b)
  end.

(** [ioutil.ReadAll(r.Body)] *)
Definition ReadAll (r : Request) : string + error :=
  match ReqBody r with
  | None => inr (Error "http: the request body cannot be read")
  | Some b => inl b
  end.

End Http.

(** * The middleware chain of the logs plugin ([chain.Wrap], [list],
      [classifyCategory]) *)
Module Chain.
Import Http.

(** The middleware [list] names. [classifyCategory] is the plugin's own; the
    others come from packages [classify], [auth] and [validate]. *)
Inductive Stage :=
| ClassifyCategory | ClassifyOp | ClassifyIndices
| BasicAuth
| ValidateIndices | ValidateOperation | ValidateCategory.

Global Instance Stage_eq_dec : EqDecision Stage.
Proof. solve_decision. Defined.

(** What is observed of a request going through a chain: the stages entered,
    in order, and the events of the business handler. *)
Inductive Event := Entered (s : Stage) | Handled (r : Request).

(** A handler, seen through the events it causes. *)
Definition Handler : Type := Request → list Event.
Definition Middleware : Type := Handler → Handler.

Section Composition.

(** The category [classifyCategory] sets: [category.Logs] in one revision of
    the plugin, [category.User] in the other. *)
Variable requestCategory : Category.

(** The middleware of packages [classify], [auth] and [validate], which are
    not among the sources: a stage passes the request on, with its context
    extended, or writes a terminal response and does not call its handler. *)
Variable external : Stage → Request → option Request.

(** [func classifyCategory(h http.HandlerFunc) http.HandlerFunc] *)
Definition classifyCategory : Middleware := λ h req,
  let ctx := {| ctx_category := Some requestCategory;
                ctx_indices := ctx_indices (Ctx req);
                ctx_request := ctx_request (Ctx req) |} in
  let req := {| Method := Method req; Path := Path req; Host := Host req;
                ReqHeader := ReqHeader req; ReqBody := ReqBody req; Ctx := ctx |} in
  Entered ClassifyCategory :: h req.

Definition middleware_of (s : Stage) : Middleware :=
  match s with
  | ClassifyCategory => classifyCategory
  | _ => λ h req,
        Entered s :: match external s req with
                     | Some req' => h req'
                     | None => []
                     end
  end.

(** [func list() []middleware.Middleware] *)
Definition list' : list Stage :=
  [ ClassifyCategory; ClassifyOp; ClassifyIndices;
    BasicAuth;
    ValidateIndices; ValidateOperation; ValidateCategory ].

(** Modelled from the spec: [middleware.Fifo.Adapt] of package [middleware],
    which is not among the sources. A chain is an ordered sequence of
    interceptors, each of which receives the handler and returns a wrapping
    handler; the first of the sequence is the outermost and runs first. *)
Definition Adapt (h : Handler) (m : list Middleware) : Handler :=
  foldr (λ mw acc, mw acc) h m.

(** [func (c *chain) Wrap(h http.HandlerFunc) http.HandlerFunc] *)
Definition Wrap (h : Handler) : Handler := Adapt h (middleware_of <$> list').

(** The request as it reaches the stage after [s]: [None] when [s] stops the
    chain. *)
Definition after (s : Stage) (req : Request) : option Request :=
  match middleware_of s (λ r, [Handled r]) req with
  | [_; Handled r] => Some r
  | _ => None
  end.

Fixpoint through (l : list Stage) (req : Request) : list Stage * option Request :=
  match l with
  | [] => ([], Some req)
  | s :: l' =>
    match after s req with
    | None => ([s], None)
    | Some req' => let '(ran, out) := through l' req' in (s :: ran, out)
    end
  end.

End Composition.

(** The stages of the canonical order of the specification: classify,
    authenticate, authorize (category, ACL, index), validate the operation,
    limit the rate. *)
Inductive Kind := Classify | Authenticate | Authorize | ValidateOp | RateLimit.

Definition kind (s : Stage) : Kind :=
  match s with
  | ClassifyCategory | ClassifyOp | ClassifyIndices => Classify
  | BasicAuth => Authenticate
  | ValidateIndices | ValidateCategory => Authorize
  | ValidateOperation => ValidateOp
  end.

Definition rank (k : Kind) : nat :=
  match k with
  | Classify => 0 | Authenticate => 1 | Authorize => 2 | ValidateOp => 3 | RateLimit => 4
  end.

(** A list of stages follows the canonical order when no stage comes before
    a stage of an earlier kind. *)
Definition canonical (l : list Stage) : Prop :=
  ∀ (i j : nat) (a b : Stage),
    l !! i = Some a → l !! j = Some b → (i < j)%nat →
    (rank (kind a) ≤ rank (kind b))%nat.

End Chain.

(** * The logs plugin middleware, ReactiveSearch revision
      ([recorder] and [recordResponse] writing to the rotating log file) *)
Module LogsRS.
Import Model Http.

Definition logTag : string := "[logs]".

Section Recorder.

(** [float64], and the two readers of the [took] value of a response body:
    [json.Unmarshal] into a [SearchResponseBody] (an error is [None]) and
    [jsonparser.GetFloat(body, "settings", "took")]. *)
Variable float64 : Type.
Variable searchTook : string → option float64.
Variable settingsTook : string → option float64.

(** [http.StatusText] *)
Variable StatusText : Z → string.

(** [type Request struct] *)
Record Request := {
  URI : string;
  RMethod : string;
  Headers : Header;
  Body : string
}.

(** [type Response struct] *)
Record Response := {
  RCode : Z;
  Status : string;
  RHeaders : Header;
  Took : option float64;
  RBody : string
}.

(** [type record struct] *)
Record record := {
  Indices : list string;
  RCategory : Category;
  Req : Request;
  Resp : Response;
  Timestamp : string
}.

(** [json.Marshal(rec)] when it succeeds. *)
Variable marshalRecord : record → string.

(** What can go wrong in the recording step, and the clock: reading the
    recorded response body, marshalling the ReactiveSearch request,
    marshalling the record, the [Write] of the record to the log and the
    [Write] of the line feed after it. *)
Record Env := {
  read_fails : bool;
  marshal_request_fails : bool;
  marshal_record_fails : bool;
  write_fails : bool;
  newline_fails : bool;
  now : string
}.

(** Which writer the wrapped handler was run on. *)
Inductive Target := OriginalWriter | ResponseRecorder.

(** The arguments of [go l.recordResponse(respRecorder, r, dumpRequest)]. *)
Record Task := {
  task_recorder : Writer;
  task_request : Http.Request;
  task_dump : string
}.

(** What one call of the middleware does: the state of the client's writer
    afterwards, the writer the wrapped handler was run on (if it was run),
    the recording step spawned (if any), and the lines logged. *)
Record Served := {
  client : Writer;
  handled : option Target;
  spawned : option Task;
  logged : list string
}.

(** [func (l *Logs) recorder(h http.HandlerFunc) http.HandlerFunc] *)
Definition recorder (h : HandlerFunc) (w : Writer) (r : Http.Request) : Served :=
  if decide (Get (ReqHeader r) "X-Request-Category" = "streams") then
    {| client := h w r; handled := Some OriginalWriter; spawned := None; logged := [] |}
  else
    match ctx_category (Ctx r) with
    | None =>
      {| client := w; handled := None; spawned := None;
         logged := [logTag +:+ " : category not found in the request context"] |}
    | Some reqCategory =>
      let dump := if decide (reqCategory ≠ ReactiveSearch)
                  then DumpRequest r else inl "" in
      match dump with
      | inr (Error err) =>
        {| client := w; handled := None; spawned := None;
           logged := [logTag +:+ " : " +:+ err] |}
      | inl dumpRequest =>
        let respRecorder := h NewRecorder r in
        let w := copy_headers (hdr respRecorder) w in
        let w := WriteHeader (Code respRecorder) w in
        let w := Write (body respRecorder) w in
        {| client := w; handled := Some ResponseRecorder;
           spawned := Some {| task_recorder := respRecorder; task_request := r;
                              task_dump := dumpRequest |};
           logged := [] |}
      end
    end.

(** The end of one recording step: the record as far as it was built
    ([None] when the step returned before assembling it), the arguments of
    the calls of [l.lumberjack.Write] that returned without an error, in
    order, and the lines logged. *)
Record Recorded := {
  built : option record;
  written : list string;
  rlogged : list string
}.

Definition gave_up (msg : string) : outcome Recorded :=
  Return {| built := None; written := []; rlogged := [logTag +:+ msg] |}.

(** [string(b[:util.Min(len(b), 1000000)])] *)
Definition capped (b : string) : outcome string :=
  Bytes.slice_to b (Bytes.Min (Bytes.len b) 1000000).

(** The tail of [recordResponse]: marshal the record and write it out. The
    error of the first [Write] ends the step; the result of the second
    [Write], of the line feed, is not looked at. *)
Definition persist (env : Env) (rec : record) (lines : list string) : Recorded :=
  if marshal_record_fails env then
    {| built := Some rec; written := [];
       rlogged := lines ++ [logTag +:+ " error encountered while marshalling record"] |}
  else if write_fails env then
    {| built := Some rec; written := [];
       rlogged := lines ++ [logTag +:+ " error encountered while writing logs"] |}
  else
    {| built := Some rec;
       written := marshalRecord rec
                  :: (if newline_fails env then [] else [String Bytes.LF ""]);
       rlogged := lines ++ [logTag +:+ " logged request successfully"] |}.

(** [func (l *Logs) recordResponse(w *httptest.ResponseRecorder,
      r *http.Request, reqBody []byte)] *)
Definition recordResponse (env : Env) (w : Writer) (r : Http.Request) (reqBody : string)
  : outcome Recorded :=
  let headers := ReqHeader r in
  match ctx_category (Ctx r) with
  | None => gave_up " : category not found in the request context"
  | Some reqCategory =>
  match ctx_indices (Ctx r) with
  | None => gave_up " : indices not found in the request context"
  | Some reqIndices =>
    let code := Code w in
    let responseBody := body w in
    if read_fails env then gave_up " can't read response body" else
    let took1 := if decide (reqCategory = Search) then searchTook responseBody else None in
    let lines1 := if decide (reqCategory = Search)
                  then match took1 with
                       | None => [logTag +:+ " error encountered while parsing the response"]
                       | Some _ => []
                       end
                  else [] in
    if decide (reqCategory = ReactiveSearch) then
      let lines2 := match ctx_request (Ctx r) with
                    | None => [logTag +:+ " error encountered while reading request body"]
                    | Some _ => []
                    end in
      if marshal_request_fails env
      then Return {| built := None; written := [];
                     rlogged := lines1 ++ lines2 ++
                       [logTag +:+ " error encountered while marshalling request body"] |}
      else
      let marshalled := default "null" (ctx_request (Ctx r)) in
      match capped marshalled with
      | Panic => Panic
      | Return reqText =>
        let tookValue := settingsTook (body w) in
        let lines3 := match tookValue with
                      | None => [logTag +:+ " error encountered while reading took key from response body"]
                      | Some _ => []
                      end in
        match capped responseBody with
        | Panic => Panic
        | Return respText =>
          Return (persist env
            {| Indices := reqIndices; RCategory := reqCategory;
               Req := {| URI := Path r; RMethod := Method r; Headers := headers;
                         Body := reqText |};
               Resp := {| RCode := code; Status := StatusText code;
                          RHeaders := ResultHeader w;
                          Took := match tookValue with Some t => Some t | None => took1 end;
                          RBody := respText |};
               Timestamp := now env |}
            (lines1 ++ lines2 ++ lines3))
        end
      end
    else
      let requestBody := Bytes.Split reqBody (Bytes.CRLF +:+ Bytes.CRLF) in
      let parsedBody := if decide (1 < length requestBody)%nat
                        then default "" (requestBody !! 1%nat) else "" in
      match capped parsedBody with
      | Panic => Panic
      | Return reqText =>
        match capped responseBody with
        | Panic => Panic
        | Return respText =>
          Return (persist env
            {| Indices := reqIndices; RCategory := reqCategory;
               Req := {| URI := Path r; RMethod := Method r; Headers := headers;
                         Body := reqText |};
               Resp := {| RCode := code; Status := StatusText code;
                          RHeaders := ResultHeader w; Took := took1;
                          RBody := respText |};
               Timestamp := now env |}
            lines1)
        end
      end
  end end.

(** A request served and its recording step run to its end: the client's
    writer, what the log has accepted so far (the arguments of the [Write]
    calls that returned without an error, in order) and the lines logged. *)
Record World := {
  response : Writer;
  logfile : list string;
  loglines : list string
}.

Definition serve (env : Env) (h : HandlerFunc) (w : Writer) (r : Http.Request)
    (logfile0 : list string) : outcome World :=
  let s := recorder h w r in
  match spawned s with
  | None => Return {| response := client s; logfile := logfile0; loglines := logged s |}
  | Some t =>
    match recordResponse env (task_recorder t) (task_request t) (task_dump t) with
    | Panic => Panic
    | Return rd =>
      Return {| response := client s; logfile := logfile0 ++ written rd;
                loglines := logged s ++ rlogged rd |}
    end
  end.

End Recorder.

Global Arguments RCode {float64} _.
Global Arguments Status {float64} _.
Global Arguments RHeaders {float64} _.
Global Arguments Took {float64} _.
Global Arguments RBody {float64} _.
Global Arguments Indices {float64} _.
Global Arguments RCategory {float64} _.
Global Arguments Req {float64} _.
Global Arguments Resp {float64} _.
Global Arguments Timestamp {float64} _.
Global Arguments built {float64} _.
Global Arguments rlogged {float64} _.
Global Arguments written {float64} _.

End LogsRS.

(** * The logs plugin middleware, Arc revision
      ([recorder] reads the request body itself; [recordResponse] assembles
      the record) *)
Module LogsArc.
Import Model Http.

Definition logTag : string := "[logs]".

Section Recorder.

(** [float64], and the readers of the [took] value of a response body:
    [json.Unmarshal] into a [SearchResponseBody] and into a [ResponseBodyRS]
    (an error is [None]). *)
Variable float64 : Type.
Variable searchTook : string → option float64.
Variable settingsTook : string → option float64.

(** [http.StatusText] *)
Variable StatusText : Z → string.

(** The body [util.WriteBackError] writes for a message and a status code. *)
Variable errorBody : string → Z → string.

(** Modelled from the spec: [util.WriteBackError] of package [util], which
    is not among the sources: a failure is turned into the HTTP status given,
    with a machine-readable reason in the body. *)
Definition WriteBackError (w : Writer) (err : string) (code : Z) : Writer :=
  Write (errorBody err code) (WriteHeader code w).

(** [type Request struct] *)
Record Request := {
  URI : string;
  RMethod : string;
  Headers : Header;
  Body : string
}.

(** [type Response struct] *)
Record Response := {
  RCode : Z;
  Status : string;
  RHeaders : Header;
  Took : option float64;
  RBody : string
}.

(** [type record struct] *)
Record record := {
  Indices : list string;
  RCategory : Category;
  Req : Request;
  Resp : Response;
  Timestamp : string
}.

(** What can go wrong in the recording step, and the clock. *)
Record Env := {
  read_fails : bool;
  now : string
}.

Inductive Target := OriginalWriter | ResponseRecorder.

(** The arguments of [go l.recordResponse(&request, respRecorder, r)]. *)
Record Task := {
  task_request_rec : Request;
  task_recorder : Writer;
  task_request : Http.Request
}.

Record Served := {
  client : Writer;
  handled : option Target;
  spawned : option Task;
  logged : list string
}.

(** [string(b[:util.Min(len(b), 1000000)])] *)
Definition capped (b : string) : outcome string :=
  Bytes.slice_to b (Bytes.Min (Bytes.len b) 1000000).

(** [func (l *Logs) recorder(h http.HandlerFunc) http.HandlerFunc].
    [Panic] when slicing the body panics. *)
Definition recorder (h : HandlerFunc) (w : Writer) (r : Http.Request) : outcome Served :=
  if decide (Get (ReqHeader r) "X-Request-Category" = "streams") then
    Return {| client := h w r; handled := Some OriginalWriter; spawned := None;
              logged := [] |}
  else
    match ReadAll r with
    | inr (Error err) =>
      Return {| client := WriteBackError w "Can't read request body" 500;
                handled := None; spawned := None;
                logged := [logTag +:+ " : unable to read request body: " +:+ err] |}
    | inl reqBody =>
      let headers := ReqHeader r in
      match capped reqBody with
      | Panic => Panic
      | Return text =>
        let request := {| URI := Path r; Headers := headers; Body := text;
                          RMethod := Method r |} in
        let respRecorder := h NewRecorder r in
        let w := copy_headers (hdr respRecorder) w in
        let w := WriteHeader (Code respRecorder) w in
        let w := Write (body respRecorder) w in
        Return {| client := w; handled := Some ResponseRecorder;
                  spawned := Some {| task_request_rec := request;
                                     task_recorder := respRecorder;
                                     task_request := r |};
                  logged := [] |}
      end
    end.

(** The end of one recording step: the record assembled ([None] when the
    step returned early) and the lines logged. This revision assembles the
    record and does not write it anywhere. *)
Record Recorded := {
  built : option record;
  rlogged : list string
}.

Definition gave_up (msg : string) : outcome Recorded :=
  Return {| built := None; rlogged := [logTag +:+ msg] |}.

(** [func (l *Logs) recordResponse(request *Request,
      w *httptest.ResponseRecorder, req *http.Request)] *)
Definition recordResponse (env : Env) (request : Request) (w : Writer) (req : Http.Request)
  : outcome Recorded :=
  match ctx_category (Ctx req) with
  | None => gave_up " : category not found in the request context"
  | Some reqCategory =>
  match ctx_indices (Ctx req) with
  | None => gave_up " : indices not found in the request context"
  | Some reqIndices =>
    let code := Code w in
    let responseBody := body w in
    if read_fails env then gave_up " can't read response body" else
    match capped responseBody with
    | Panic => Panic
    | Return respText =>
      let took1 := if decide (reqCategory = Search) then searchTook responseBody else None in
      let lines1 := if decide (reqCategory = Search)
                    then match took1 with
                         | None => [logTag +:+ " error encountered while parsing the response"]
                         | Some _ => []
                         end
                    else [] in
      let took2 := if decide (reqCategory = ReactiveSearch)
                   then settingsTook responseBody else None in
      let lines2 := if decide (reqCategory = ReactiveSearch)
                    then match took2 with
                         | None => [logTag +:+ " error encountered while parsing the response"]
                         | Some _ => []
                         end
                    else [] in
      Return {| built := Some
                  {| Indices := reqIndices; RCategory := reqCategory;
                     Req := request;
                     Resp := {| RCode := code; Status := StatusText code;
                                RHeaders := ResultHeader w;
                                Took := match took2 with Some t => Some t | None => took1 end;
                                RBody := respText |};
                     Timestamp := now env |};
                rlogged := lines1 ++ lines2 |}
    end
  end end.

(** A request served and its recording step run to its end: the client's
    writer and the lines logged. *)
Record World := {
  response : Writer;
  loglines : list string
}.

Definition serve (env : Env) (h : HandlerFunc) (w : Writer) (r : Http.Request)
  : outcome World :=
  match recorder h w r with
  | Panic => Panic
  | Return s =>
    match spawned s with
    | None => Return {| response := client s; loglines := logged s |}
    | Some t =>
      match recordResponse env (task_request_rec t) (task_recorder t) (task_request t) with
      | Panic => Panic
      | Return rd => Return {| response := client s; loglines := logged s ++ rlogged rd |}
      end
    end
  end.

End Recorder.

Global Arguments RCode {float64} _.
Global Arguments Status {float64} _.
Global Arguments RHeaders {float64} _.
Global Arguments Took {float64} _.
Global Arguments RBody {float64} _.
Global Arguments Indices {float64} _.
Global Arguments RCategory {float64} _.
Global Arguments Req {float64} _.
Global Arguments Resp {float64} _.
Global Arguments Timestamp {float64} _.
Global Arguments built {float64} _.
Global Arguments rlogged {float64} _.

End LogsArc.

(** * The logs plugin store: [indexRecord] and [rolloverIndexJob] *)
Module LogsDao.
Import Model.

Definition logTag : string := "[logs]".

(** [es7.IndicesRolloverResponse] (the fields the job reads). *)
Record RolloverResponse := {
  OldIndex : string;
  NewIndex : string;
  RolledOver : bool
}.

(** The cluster as the logs store sees it: the names of its indices, and how
    it answers the next requests. [rollover_answer] is [None] when the
    rollover request fails, in which case the client returns a nil response
    with the error. *)
Record Cluster := {
  indices : gset string;
  rollover_answer : option RolloverResponse;
  cat_fails : bool;
  delete_fails : bool;
  bulk_fails : bool
}.

(** [type elasticsearch struct] *)
Record elasticsearch := { indexName : string }.

Section Store.

(** The [record] type of the logs package. *)
Variable record : Type.

(** [func (es *elasticsearch) indexRecord(ctx, rec record)]: the documents
    indexed so far, with the index each went to, and the lines logged. The
    function returns nothing. *)
Definition indexRecord (es : elasticsearch) (c : Cluster)
    (stored : list (string * record)) (rec : record)
  : list (string * record) * list string :=
  if bulk_fails c
  then (stored, [logTag +:+ " : error indexing log record"])
  else (stored ++ [(indexName es, rec)], []).

End Store.

(** A call into package [classify]. *)
Inductive ClassifyCall :=
| SetIndexAlias (index alias : string)
| SetAliasIndex (alias index : string).

(** The rollover request: the answer, and the cluster with the new index
    once it has rolled over. *)
Definition Rollover (c : Cluster) : option RolloverResponse * Cluster :=
  match rollover_answer c with
  | None => (None, c)
  | Some resp =>
    (Some resp,
     {| indices := if RolledOver resp then {[ NewIndex resp ]} ∪ indices c else indices c;
        rollover_answer := rollover_answer c; cat_fails := cat_fails c;
        delete_fails := delete_fails c; bulk_fails := bulk_fails c |})
  end.

(** [CatIndices().Index(alias + "-*")]: the names of the rows, none when the
    request fails. *)
Definition CatIndices (c : Cluster) (alias : string) : list string :=
  if cat_fails c then []
  else elements (filter (λ i, String.prefix (alias +:+ "-") i = true) (indices c)).

(** [DeleteIndex(names)] for a comma-separated list of names: [None] when
    the request fails. *)
Definition DeleteIndex (c : Cluster) (names : string) : option Cluster :=
  if delete_fails c then None
  else Some {| indices := indices c ∖ list_to_set (Bytes.Split names ",");
               rollover_answer := rollover_answer c; cat_fails := cat_fails c;
               delete_fails := delete_fails c; bulk_fails := bulk_fails c |}.

(** A name holds no comma (index names never do): split at commas it is one
    piece, itself. *)
Definition comma_free (name : string) : Prop := Bytes.Split name "," = [name].

(** [sort.Strings]: the strings in increasing byte-wise order. *)
Definition sort_Strings (l : list string) : list string := merge_sort String.le l.

(** One run of the job: the cluster afterwards, the calls into package
    [classify], the argument of the delete request (if one was made) and the
    lines logged. *)
Record Run := {
  cluster : Cluster;
  classify_calls : list ClassifyCall;
  delete_request : option string;
  jlogged : list string
}.

(** [func (es *elasticsearch) rolloverIndexJob(alias string)]. The job reads
    the fields of the rollover response whether or not the request failed;
    with a nil response that is a nil dereference, hence [Panic]. *)
Definition rolloverIndexJob (c : Cluster) (alias : string) : outcome Run :=
  match Rollover c with
  | (None, _) => Panic
  | (Some rolloverService, c) =>
    let calls := if RolledOver rolloverService
                 then [ SetIndexAlias (NewIndex rolloverService) alias;
                        SetAliasIndex alias (NewIndex rolloverService) ]
                 else [] in
    let lines := if cat_fails c
                 then [logTag +:+ " : rollover cronjob error getting indices"] else [] in
    let indices := CatIndices c alias in
    if decide (2 < length indices)%nat then
      let rolloverIndices := sort_Strings indices in
      let rolloverIndices := take (length rolloverIndices - 2) rolloverIndices in
      let names := Bytes.Join rolloverIndices "," in
      match DeleteIndex c names with
      | None =>
        Return {| cluster := c; classify_calls := calls; delete_request := Some names;
                  jlogged := lines ++ [logTag +:+ " : rollover cronjob, error while deleting indices"] |}
      | Some c' =>
        Return {| cluster := c'; classify_calls := calls; delete_request := Some names;
                  jlogged := lines |}
      end
    else
      Return {| cluster := c; classify_calls := calls; delete_request := None;
                jlogged := lines |}
  end.

End LogsDao.

(** * The users plugin store: [newClient], [hashPasswords], [postMasterUser] *)
Module UsersDao.
Import Model.

Definition logTag : string := "[users]".

(** A JSON value: what a field of a stored document holds, and what a value
    of a patch map marshals to. *)
#[warnings="-register-all"] Inductive Value :=
| VNull
| VBool (b : bool)
| VNumber (n : Z)
| VString (s : string)
| VArray (items : list Value)
| VObject (fields : list (string * Value)).

(** The source of a document, and a [map[string]interface{}]: a JSON
    object, by key. *)
Abbreviation Doc := (gmap string Value).

Fixpoint field (key : string) (fields : list (string * Value)) : option Value :=
  match fields with
  | [] => None
  | (k, v) :: rest => if decide (k = key) then Some v else field key rest
  end.

Fixpoint put (key : string) (value : Value) (fields : list (string * Value))
  : list (string * Value) :=
  match fields with
  | [] => [(key, value)]
  | (k, v) :: rest =>
    if decide (k = key) then (k, value) :: rest else (k, v) :: put key value rest
  end.

(** What Elasticsearch stores under a key of a document for a value of a
    partial update: the new value, except that an object is merged into an
    object key by key. *)
Fixpoint merged (old new : Value) {struct new} : Value :=
  match new, old with
  | VObject changes, VObject source =>
    VObject ((fix apply (changes source : list (string * Value)) {struct changes} :=
                match changes with
                | [] => source
                | (key, value) :: rest =>
                  apply rest
                    (put key (match field key source with
                              | Some old' => merged old' value
                              | None => value
                              end) source)
                end) changes source)
  | _, _ => new
  end.

(** The source of a document after the update request [Update().Doc(patch)]:
    the keys of the patch are added to the source or replace its values, the
    other keys stay. *)
Definition update (source patch : Doc) : Doc :=
  union_with (λ value old, Some (merged old value)) patch source.

(** The number of hits a search returns when no size is asked for. *)
Definition defaultSize : nat := 10.

(** The world of the users store: the cluster ([reachable] or not, the
    sources of the documents of the users index by id, [None] while the
    index does not exist, the order in which a search lists the documents of
    an index, the number of nodes), the process environment, the number of
    reads made from the random source, and the lines logged. *)
Record World := {
  reachable : bool;
  users : option (gmap string Doc);
  listing : gmap string Doc → list (string * Doc);
  nodes : Z;
  environ : gmap string string;
  draws : nat;
  logged : list string
}.

Definition with_users (w : World) (d : option (gmap string Doc)) : World :=
  {| reachable := reachable w; users := d; listing := listing w; nodes := nodes w;
     environ := environ w; draws := draws w; logged := logged w |}.

Definition log (w : World) (line : string) : World :=
  {| reachable := reachable w; users := users w; listing := listing w; nodes := nodes w;
     environ := environ w; draws := draws w; logged := logged w ++ [line] |}.

Definition drawn (w : World) : World :=
  {| reachable := reachable w; users := users w; listing := listing w; nodes := nodes w;
     environ := environ w; draws := S (draws w); logged := logged w |}.

(** A search lists the documents of the index, each once, in an order of
    the cluster's choosing. *)
Definition lists_documents (w : World) : Prop :=
  ∀ docs : gmap string Doc, listing w docs ≡ₚ map_to_list docs.

(** [client.Search().Index(es.indexName).Do(ctx)] on an index that exists:
    the hits of the response, which are the first [defaultSize] documents of
    the listing, since the request names no size. *)
Definition hits (w : World) (docs : gmap string Doc) : list (string * Doc) :=
  take defaultSize (listing w docs).

(** [os.Getenv] *)
Definition Getenv (w : World) (key : string) : string := default "" (environ w !! key).

(** [type elasticsearch struct] *)
Record elasticsearch := {
  url : string;
  indexName : string;
  typeName : string
}.

(** [elastic.UpdateResponse], of which the id is kept; [patchUser] returns
    the JSON text of the response. *)
Record UpdateResponse := { updated_id : string }.

(** [admin.PasswordHashType = "bcrypt"] *)
Definition tagged (u : User) (hashType : string) : User :=
  {| Username := Username u; Password := Password u; PasswordHashType := hashType;
     IsAdmin := IsAdmin u; Categories := Categories u; ACLs := ACLs u; Ops := Ops u;
     Indices := Indices u; Email := Email u; CreatedAt := CreatedAt u |}.

(** The patch map of [hashPasswords]. *)
Definition hashPatch (hashedPassword : string) : Doc :=
  {[ "password" := VString hashedPassword;
     "password_hash_type" := VString "bcrypt" ]}.

(** The documents of the users index, none while the index does not
    exist. *)
Definition stored (w : World) : gmap string Doc := default ∅ (users w).

(** The name under which [postMasterUser] stores the master user. *)
Definition master_name (w : World) : string :=
  if decide (Getenv w "USERNAME" = "") then "foo" else Getenv w "USERNAME".

(** The password [postMasterUser] hashes for the master user. *)
Definition master_password (w : World) : string :=
  if decide (Getenv w "USERNAME" = "") then "bar" else Getenv w "PASSWORD".

Definition unavailable : error := Error "elastic: no Elasticsearch node available".
Definition not_found : error := Error "elastic: Error 404 (Not Found)".

Section Store.

(** [bcrypt]: the hash of a password under a salt. *)
Variable bcrypt : string → string → string.

(** The random source: the salt the [n]-th read gives, [None] when the read
    fails. *)
Variable salt : nat → option string.

(** The grants and metadata [user.NewAdmin] gives a new admin. *)
Variable adminDefaults : User.

(** [json.Marshal] of a [user.User], the body [BodyJson(u)] sends, and
    [json.Unmarshal] of a source into a [user.User]. The declaration of the
    type, with its JSON tags and the marshallers of its fields, is not among
    the sources. *)
Variable marshalUser : User → Doc + error.
Variable unmarshalUser : Doc → User + error.

(** Modelled from the spec: [user.NewAdmin] of package [model/user], which is
    not among the sources: a User with the given username and password and
    the admin flag set. *)
Definition NewAdmin (username password : string) : User + error :=
  inl {| Username := username; Password := password;
         PasswordHashType := PasswordHashType adminDefaults; IsAdmin := true;
         Categories := Categories adminDefaults; ACLs := ACLs adminDefaults;
         Ops := Ops adminDefaults; Indices := Indices adminDefaults;
         Email := Email adminDefaults; CreatedAt := CreatedAt adminDefaults |}.

(** [bcrypt.GenerateFromPassword([]byte(password), bcrypt.DefaultCost)]: the
    hash under a fresh salt; a nil hash and an error when the random source
    fails. *)
Definition GenerateFromPassword (w : World) (password : string)
  : (string * option error) * World :=
  match salt (draws w) with
  | Some s => ((bcrypt password s, None), drawn w)
  | None => (("", Some (Error "bcrypt: reading the random source failed")), drawn w)
  end.

(** [func (es *elasticsearch) getRawUsers(ctx) ([]byte, error)]: the
    sources of the hits of a search that names no size, as a JSON array. The
    error of the search is ignored and the response is read nevertheless, a
    nil dereference when the search failed. *)
Definition getRawUsers (w : World) : outcome (list Doc) :=
  if reachable w then
    match users w with
    | Some docs => Return (hits w docs).*2
    | None => Panic
    end
  else Panic.

(** [json.Unmarshal(rawUsers, &users)]: the elements decoded in order, an
    error when one of them does not decode. *)
Fixpoint unmarshalUsers (rawUsers : list Doc) : list User + error :=
  match rawUsers with
  | [] => inl []
  | raw :: rest =>
    match unmarshalUser raw with
    | inr err => inr err
    | inl u =>
      match unmarshalUsers rest with
      | inr err => inr err
      | inl users => inl (u :: users)
      end
    end
  end.

(** [func (es *elasticsearch) patchUser(ctx, username, patch)
      ([]byte, error)]: the update request for the id [username]; an id
    without a document is the 404 error of the request. *)
Definition patchUser (w : World) (username : string) (patch : Doc)
  : (option UpdateResponse * option error) * World :=
  if reachable w then
    match users w with
    | Some docs =>
      match docs !! username with
      | Some source =>
        ((Some {| updated_id := username |}, None),
         with_users w (Some (<[username := update source patch]> docs)))
      | None => ((None, Some not_found), w)
      end
    | None => ((None, Some not_found), w)
    end
  else ((None, Some unavailable), w).

(** [func (es *elasticsearch) postUser(ctx, u user.User) (bool, error)]: the
    index request for the id [u.Username] with the user as its JSON body. A
    user that does not marshal makes the request fail before it is sent. An
    index that does not exist is created by the request. *)
Definition postUser (w : World) (u : User) : (bool * option error) * World :=
  match marshalUser u with
  | inr err => ((false, Some err), w)
  | inl body =>
    if reachable w
    then ((true, None), with_users w (Some (<[Username u := body]> (default ∅ (users w)))))
    else ((false, Some unavailable), w)
  end.

(** The body of [for _, user := range users] in [hashPasswords]. *)
Fixpoint hash_each (l : list User) (w : World) : option error * World :=
  match l with
  | [] => (None, w)
  | user :: l' =>
    if decide (PasswordHashType user ≠ "") then hash_each l' w
    else
      let '((hashedPassword, err), w) := GenerateFromPassword w (Password user) in
      let w := match err with
               | Some _ => log w (logTag +:+ ": an error occurred while hashing password")
               | None => w
               end in
      match patchUser w (Username user) (hashPatch hashedPassword) with
      | ((_, Some e), w) => (Some e, w)
      | ((_, None), w) =>
        hash_each l' (log w (logTag +:+ " hashed password for user " +:+ Username user
                               +:+ " using bcrypt"))
      end
  end.

(** [func (es *elasticsearch) hashPasswords() error] *)
Definition hashPasswords (w : World) : outcome (option error * World) :=
  match getRawUsers w with
  | Panic => Panic
  | Return rawUsers =>
    match unmarshalUsers rawUsers with
    | inr err => Return (Some err, w)
    | inl users => Return (hash_each users w)
    end
  end.

(** [func (es *elasticsearch) postMasterUser() error] *)
Definition postMasterUser (w : World) : option error * World :=
  let username := Getenv w "USERNAME" in
  let password := Getenv w "PASSWORD" in
  let '(username, password) :=
    if decide (username = "") then ("foo", "bar") else (username, password) in
  let '((hashedPassword, err), w) := GenerateFromPassword w password in
  let w := match err with
           | Some _ => log w (logTag +:+ ": an error occurred while hashing password")
           | None => w
           end in
  match NewAdmin username hashedPassword with
  | inr _ => (Some (Error (logTag +:+ ": error while creating a master user")), w)
  | inl admin =>
    let admin := tagged admin "bcrypt" in
    match postUser w admin with
    | ((true, None), w) => (None, w)
    | (_, w) => (Some (Error (logTag +:+ ": error while creating a master user")), w)
    end
  end.

(** The user [postMasterUser] builds and posts in a world: the new admin of
    the master name, with the hash [GenerateFromPassword] returns for the
    master password (empty when it fails) and the tag "bcrypt". *)
Definition master_admin (w : World) : User :=
  tagged (match NewAdmin (master_name w)
                  (GenerateFromPassword w (master_password w)).1.1 with
          | inl admin => admin
          | inr _ => adminDefaults
          end) "bcrypt".

(** [func (es *elasticsearch) getTotalNodes() (int, error)] *)
Definition getTotalNodes (w : World) : Z * option error :=
  if reachable w then (nodes w, None) else (-1, Some unavailable).

(** The deferred call of [newClient]: [postMasterUser], its error logged. *)
Definition deferred (w : World) : World :=
  match postMasterUser w with
  | (Some (Error msg), w) => log w (logTag +:+ ": " +:+ msg)
  | (None, w) => w
  end.

(** [func newClient(url, indexName, mapping string)], which returns the store
    and an error.
    The deferred function is registered once the client is initialised and
    runs on every return after that. *)
Definition newClient (w : World) (url indexName mapping : string)
  : outcome ((option elasticsearch * option error) * World) :=
  if negb (reachable w) then
    Return ((None, Some (Error (logTag +:+ ": error while initializing elastic client"))), w)
  else
    let es := {| url := url; indexName := indexName; typeName := "_doc" |} in
    match users w with
    | Some _ =>
      match hashPasswords w with
      | Panic => Panic
      | Return (Some err, w) => Return ((None, Some err), deferred w)
      | Return (None, w) => Return ((Some es, None), deferred w)
      end
    | None =>
      match getTotalNodes w with
      | (_, Some err) => Return ((None, Some err), deferred w)
      | (_, None) => Return ((Some es, None), deferred (with_users w (Some ∅)))
      end
    end.

(** [func (es *elasticsearch) getRawUser(ctx, username) ([]byte, error)]: a
    missing document is the 404 error of the get request. *)
Definition getRawUser (w : World) (username : string) : option Doc * option error :=
  if reachable w then
    match users w with
    | Some docs =>
      match docs !! username with
      | Some source => (Some source, None)
      | None => (None, Some not_found)
      end
    | None => (None, Some not_found)
    end
  else (None, Some unavailable).

(** [func (es *elasticsearch) getUser(ctx, username)] *)
Definition getUser (w : World) (username : string) : option User * option error :=
  match getRawUser w username with
  | (_, Some err) => (None, Some err)
  | (raw, None) =>
    match unmarshalUser (default ∅ raw) with
    | inr err => (None, Some err)
    | inl u => (Some u, None)
    end
  end.

(** Every document of the users index that decodes is stored under the
    username it decodes to, as [postUser] stores it. *)
Definition keyed (docs : gmap string Doc) : Prop :=
  ∀ (id : string) (source : Doc) (u : User),
    docs !! id = Some source → unmarshalUser source = inl u → Username u = id.

End Store.

(** [func (es *elasticsearch) deleteUser(ctx, username) (bool, error)]: the
    delete request answers 404 for a document that is not there, which the
    client returns as an error. *)
Definition deleteUser (w : World) (username : string) : (bool * option error) * World :=
  if reachable w then
    match users w with
    | Some docs =>
      match docs !! username with
      | Some _ => ((true, None), with_users w (Some (delete username docs)))
      | None => ((false, Some not_found), w)
      end
    | None => ((false, Some not_found), w)
    end
  else ((false, Some unavailable), w).

End UsersDao.

(** * Sample inputs *)
Module Samples.
Import Model.

(** Decoders for the samples: a source is its own username. *)
Definition unmarshalUser (src : string) : User + error :=
  inl {| Username := src; Password := ""; PasswordHashType := ""; IsAdmin := false;
         Categories := []; ACLs := []; Ops := []; Indices := []; Email := "";
         CreatedAt := "" |}.

Definition unmarshalPermission (src : string) : Permission + error :=
  inr (Error "json: cannot unmarshal into a permission").

(** A username bound to a user record and to a permission record. *)
Definition es_ambiguous : AuthDao.elasticsearch :=
  {| AuthDao.userIndex := ".users";
     AuthDao.permissionIndex := ".permissions";
     AuthDao.client :=
       {| AuthDao.reachable := true;
          AuthDao.documents :=
            [ {| AuthDao.doc_index := ".users"; AuthDao.doc_username := "alice";
                 AuthDao.doc_source := Some "alice" |};
              {| AuthDao.doc_index := ".permissions"; AuthDao.doc_username := "alice";
                 AuthDao.doc_source := Some "alice" |} ] |} |}.

(** A handler that answers 201 with a content type and a short body. *)
Definition created : Http.HandlerFunc := λ w r,
  Http.Write "created"
    (Http.WriteHeader 201
       (Http.copy_headers {[ "Content-Type" := ["text/plain"] ]} w)).

(** The client's writer before anything is written. *)
Definition fresh : Http.Writer := {| Http.hdr := ∅; Http.sent := None; Http.body := "" |}.

Definition docs_context : Http.Context :=
  {| Http.ctx_category := Some Http.Docs; Http.ctx_indices := Some ["books"];
     Http.ctx_request := None |}.

Definition request_with (headers : Http.Header) (body : option string) : Http.Request :=
  {| Http.Method := "POST"; Http.Path := "/books/_doc"; Http.Host := "localhost:8000";
     Http.ReqHeader := headers; Http.ReqBody := body; Http.Ctx := docs_context |}.

(** A request of the streams category, a plain request, a request whose body
    cannot be read, and a request whose body holds an empty line. *)
Definition req_streams : Http.Request :=
  request_with {[ "X-Request-Category" := ["streams"] ]} (Some "{}").
Definition req_plain : Http.Request :=
  request_with {[ "Content-Type" := ["application/json"] ]} (Some "{}").
Definition req_unreadable : Http.Request :=
  request_with {[ "Content-Type" := ["application/json"] ]} None.
Definition two_parts : string :=
  "a" +:+ Bytes.CRLF +:+ Bytes.CRLF +:+ "b".
Definition req_two_parts : Http.Request :=
  request_with {[ "Content-Type" := ["text/plain"] ]} (Some two_parts).

Definition no_took (body : string) : option Z := None.
Definition StatusText (code : Z) : string :=
  if decide (code = 201) then "Created" else if decide (code = 200) then "OK" else "".
Definition errorBody (msg : string) (code : Z) : string := msg.
Definition marshalRecord (rec : LogsRS.record Z) : string := LogsRS.Body (LogsRS.Req rec).

Definition env_rs : LogsRS.Env :=
  {| LogsRS.read_fails := false; LogsRS.marshal_request_fails := false;
     LogsRS.marshal_record_fails := false; LogsRS.write_fails := false;
     LogsRS.newline_fails := false; LogsRS.now := "2019-06-01T00:00:00Z" |}.
Definition env_rs_write_fails : LogsRS.Env :=
  {| LogsRS.read_fails := false; LogsRS.marshal_request_fails := false;
     LogsRS.marshal_record_fails := false; LogsRS.write_fails := true;
     LogsRS.newline_fails := false; LogsRS.now := "2019-06-01T00:00:00Z" |}.
Definition env_arc : LogsArc.Env :=
  {| LogsArc.read_fails := false; LogsArc.now := "2019-06-01T00:00:00Z" |}.

(** A cluster with three log indices and one other index, about to roll
    over to a fourth log index. *)
Definition rolled : LogsDao.RolloverResponse :=
  {| LogsDao.OldIndex := ".logs-000003"; LogsDao.NewIndex := ".logs-000004";
     LogsDao.RolledOver := true |}.

Definition logs_cluster : LogsDao.Cluster :=
  {| LogsDao.indices :=
       list_to_set [".logs-000002"; ".users"; ".logs-000003"; ".logs-000001"];
     LogsDao.rollover_answer := Some rolled;
     LogsDao.cat_fails := false; LogsDao.delete_fails := false;
     LogsDao.bulk_fails := false |}.

(** The same cluster at a time when the rollover request fails. *)
Definition logs_cluster_down : LogsDao.Cluster :=
  {| LogsDao.indices :=
       list_to_set [".logs-000002"; ".users"; ".logs-000003"; ".logs-000001"];
     LogsDao.rollover_answer := None;
     LogsDao.cat_fails := false; LogsDao.delete_fails := false;
     LogsDao.bulk_fails := false |}.

(** A stand-in for bcrypt and a random source that always answers. *)
Definition bcrypt (password salt : string) : string := "$2a$10$" +:+ salt +:+ "." +:+ password.
Definition salt (n : nat) : option string := Some "N9qo8uLOickgx2ZMRZoMye".

(** A stand-in for the JSON form of a user: the username, the password, the
    hash-algorithm tag and the admin flag under keys of their own, and the
    operations as their tokens; a user with an operation that does not
    marshal does not marshal. A key that is missing decodes to the zero
    value of its field. *)
Definition marshals (o : Op.Operation) : bool :=
  match Op.MarshalJSON o with
  | (Some _, None) => true
  | _ => false
  end.

Definition userDoc (u : User) : UsersDao.Doc + error :=
  if forallb marshals (Ops u) then
    inl {[ "username" := UsersDao.VString (Username u);
           "password" := UsersDao.VString (Password u);
           "password_hash_type" := UsersDao.VString (PasswordHashType u);
           "is_admin" := UsersDao.VBool (IsAdmin u);
           "ops" := UsersDao.VArray
                      ((λ o, UsersDao.VString (default "" (Op.String' o))) <$> Ops u) ]}
  else inr (Error "json: error calling MarshalJSON for type op.Operation").

Definition text (d : UsersDao.Doc) (key : string) : option string :=
  match d !! key with
  | None => Some ""
  | Some (UsersDao.VString s) => Some s
  | Some _ => None
  end.

Definition flag (d : UsersDao.Doc) (key : string) : option bool :=
  match d !! key with
  | None => Some false
  | Some (UsersDao.VBool b) => Some b
  | Some _ => None
  end.

Definition docUser (d : UsersDao.Doc) : User + error :=
  match text d "username", text d "password", text d "password_hash_type",
        flag d "is_admin" with
  | Some name, Some password, Some hashType, Some admin =>
    inl {| Username := name; Password := password; PasswordHashType := hashType;
           IsAdmin := admin; Categories := []; ACLs := []; Ops := []; Indices := [];
           Email := ""; CreatedAt := "" |}
  | _, _, _, _ => inr (Error "json: cannot unmarshal into Go value of type user.User")
  end.

Definition plain (name password hashType : string) (admin : bool) : User :=
  {| Username := name; Password := password; PasswordHashType := hashType;
     IsAdmin := admin; Categories := []; ACLs := []; Ops := []; Indices := [];
     Email := ""; CreatedAt := "" |}.

Definition source (name password hashType : string) (admin : bool) : UsersDao.Doc :=
  {[ "username" := UsersDao.VString name;
     "password" := UsersDao.VString password;
     "password_hash_type" := UsersDao.VString hashType;
     "is_admin" := UsersDao.VBool admin;
     "ops" := UsersDao.VArray [] ]}.

(** A legacy user, a migrated user, and a user to post over the first. *)
Definition alice : User := plain "alice" "wonderland" "" false.
Definition bob : User :=
  plain "bob" "$2a$10$abcdefghijklmnopqrstuu.builder" "bcrypt" false.
Definition alice2 : User :=
  plain "alice" "$2a$10$zzzzzzzzzzzzzzzzzzzzzz.looking-glass" "bcrypt" true.

(** A user with an operation outside the four. *)
Definition mallory : User :=
  {| Username := "mallory"; Password := "x"; PasswordHashType := ""; IsAdmin := false;
     Categories := []; ACLs := []; Ops := [7]; Indices := []; Email := "";
     CreatedAt := "" |}.

Definition adminDefaults : User :=
  {| Username := ""; Password := ""; PasswordHashType := "";
     IsAdmin := true; Categories := ["docs"; "search"]; ACLs := [];
     Ops := [Op.Read; Op.Write; Op.Delete];
     Indices := ["*"]; Email := ""; CreatedAt := "" |}.

Definition alice_doc : UsersDao.Doc := source "alice" "wonderland" "" false.
Definition bob_doc' : UsersDao.Doc :=
  source "bob" "$2a$10$abcdefghijklmnopqrstuu.builder" "bcrypt" false.

Definition user_docs : gmap string UsersDao.Doc :=
  <["alice" := alice_doc]> (<["bob" := bob_doc']> ∅).

(** A reachable cluster whose users index holds one legacy user and one
    migrated user; no USERNAME in the environment. *)
Definition users_world : UsersDao.World :=
  {| UsersDao.reachable := true; UsersDao.users := Some user_docs;
     UsersDao.listing := map_to_list; UsersDao.nodes := 1;
     UsersDao.environ := ∅; UsersDao.draws := 0; UsersDao.logged := [] |}.

(** The same cluster when it does not answer. *)
Definition users_world_down : UsersDao.World :=
  {| UsersDao.reachable := false; UsersDao.users := Some user_docs;
     UsersDao.listing := map_to_list; UsersDao.nodes := 1;
     UsersDao.environ := ∅; UsersDao.draws := 0; UsersDao.logged := [] |}.

(** Eleven legacy users, one more than a search returns. *)
Definition crowd_names : list string :=
  ["u00"; "u01"; "u02"; "u03"; "u04"; "u05"; "u06"; "u07"; "u08"; "u09"; "u10"].

Definition crowd : gmap string UsersDao.Doc :=
  list_to_map ((λ name, (name, source name "secret" "" false)) <$> crowd_names).

Definition crowded_world : UsersDao.World :=
  {| UsersDao.reachable := true; UsersDao.users := Some crowd;
     UsersDao.listing := map_to_list; UsersDao.nodes := 1;
     UsersDao.environ := ∅; UsersDao.draws := 0; UsersDao.logged := [] |}.

(** A ReactiveSearch request: the body as the client sent it, and in the
    context the text the parsed request marshals to. *)
Definition reactive_body : string := "{ }".
Definition reactive_marshalled : string :=
  "{" +:+ String Json.dquote ("query" +:+ String Json.dquote ":null}").
Definition req_reactive : Http.Request :=
  {| Http.Method := "POST"; Http.Path := "/books/_reactivesearch";
     Http.Host := "localhost:8000";
     Http.ReqHeader := {[ "Content-Type" := ["application/json"] ]};
     Http.ReqBody := Some reactive_body;
     Http.Ctx := {| Http.ctx_category := Some Http.ReactiveSearch;
                    Http.ctx_indices := Some ["books"];
                    Http.ctx_request := Some reactive_marshalled |} |}.

(** The request line and the header lines of the dump of [req_plain]. *)
Definition plain_head : string :=
  "POST /books/_doc HTTP/1.1" +:+ Bytes.CRLF +:+ "Host: localhost:8000" +:+ Bytes.CRLF
  +:+ "Content-Type: application/json".

(** A random source that always fails. *)
Definition no_salt (n : nat) : option string := None.

(** A reachable cluster without a users index; USERNAME and PASSWORD set. *)
Definition empty_world : UsersDao.World :=
  {| UsersDao.reachable := true; UsersDao.users := None;
     UsersDao.listing := map_to_list; UsersDao.nodes := 3;
     UsersDao.environ := {[ "USERNAME" := "root"; "PASSWORD" := "s3cret" ]};
     UsersDao.draws := 0; UsersDao.logged := [] |}.

(** A username bound to one user record only, and the store of documents
    by id with that record in it. *)
Definition es_single : AuthDao.elasticsearch :=
  {| AuthDao.userIndex := ".users";
     AuthDao.permissionIndex := ".permissions";
     AuthDao.client :=
       {| AuthDao.reachable := true;
          AuthDao.documents :=
            [ {| AuthDao.doc_index := ".users"; AuthDao.doc_username := "bob";
                 AuthDao.doc_source := Some "bob" |} ] |} |}.

Definition bob_doc : AuthDao.Doc :=
  {| AuthDao.doc_index := ".users"; AuthDao.doc_username := "bob";
     AuthDao.doc_source := Some "bob" |}.

Definition bare_bob : User :=
  {| Username := "bob"; Password := ""; PasswordHashType := ""; IsAdmin := false;
     Categories := []; ACLs := []; Ops := []; Indices := []; Email := "";
     CreatedAt := "" |}.

Definition marshalUser (u : User) : string := Username u.
Definition marshalPermission (p : Permission) : string := PUsername p.

Definition auth_store : AuthDao.Store :=
  {| AuthDao.up := true; AuthDao.sources := {[ (".users", "carol") := "carol" ]} |}.


(** Two permissions bound to one role, and a decoder of permissions that
    refuses the empty input. *)
Definition role_cluster : AuthDao.RoleCluster :=
  {| AuthDao.answers := true;
     AuthDao.role_documents :=
       [ {| AuthDao.rd_index := ".permissions"; AuthDao.rd_role := "editor";
            AuthDao.rd_source := Some "first" |};
         {| AuthDao.rd_index := ".permissions"; AuthDao.rd_role := "editor";
            AuthDao.rd_source := Some "second" |} ] |}.

Definition marshalRaw (raw : string) : string + error := inl raw.

(** The world a run of [hashPasswords] leaves of the eleven legacy users,
    and the world a first start leaves when the random source fails. *)
Definition crowd_migrated : UsersDao.World :=
  match UsersDao.hashPasswords bcrypt salt docUser crowded_world with
  | Return (_, w) => w
  | Panic => crowded_world
  end.

Definition unseeded_install : UsersDao.World :=
  match UsersDao.newClient bcrypt no_salt adminDefaults userDoc docUser empty_world
          "http://localhost:9200" ".users" "{}" with
  | Return (_, w) => w
  | Panic => empty_world
  end.

End Samples.

(** * Properties *)

(** ** Operation tokens *)

(** C3. Marshalling any of the four operations gives its lowercase token in
    quotes, unmarshalling that text gives the operation back whatever value
    the receiver held, and unmarshalling any input that does not decode to
    one of the four tokens returns an error and leaves the receiver as it
    was (it is not set to [Noop]). *)
Theorem operation_json_roundtrip :
  (∀ o : Op.Operation, o ∈ Op.operations →
     ∃ tok : string,
       tok ∈ Op.tokens ∧ Op.String' o = Some tok ∧
       Op.MarshalJSON o = (Some (String Json.dquote (tok +:+ String Json.dquote "")), None) ∧
       ∀ o0 : Op.Operation,
         Op.UnmarshalJSON o0 (String Json.dquote (tok +:+ String Json.dquote "")) = (o, None))
  ∧
  (∀ (o0 : Op.Operation) (bytes : string),
     (∀ tok : string, tok ∈ Op.tokens → Json.Unmarshal bytes "" ≠ (tok, None)) →
     ∃ e : error, Op.UnmarshalJSON o0 bytes = (o0, Some e)).
Proof.
  split.
  - intros o Ho. unfold Op.operations in Ho.
    repeat (apply elem_of_cons in Ho as [-> | Ho]);
      [ exists "noop" | exists "read" | exists "write" | exists "delete" | ];
      [ | | | | by apply elem_of_nil in Ho ];
      (split; [ unfold Op.tokens; repeat constructor | ]);
      (split; [ reflexivity | ]); (split; [ reflexivity | ]);
      intros o0; reflexivity.
  - intros o0 bytes Hout. unfold Op.UnmarshalJSON.
    destruct (Json.Unmarshal bytes "") as [op [e |]] eqn:Hdec; [ by eexists | ].
    assert (Hop : op ∉ Op.tokens).
    { intros Hin. by apply (Hout op Hin). }
    unfold Op.tokens in Hop.
    destruct (decide (op = Op.noop_s)) as [-> | _].
    { exfalso. apply Hop. repeat constructor. }
    destruct (decide (op = Op.read_s)) as [-> | _].
    { exfalso. apply Hop. repeat constructor. }
    destruct (decide (op = Op.write_s)) as [-> | _].
    { exfalso. apply Hop. repeat constructor. }
    destruct (decide (op = Op.delete_s)) as [-> | _].
    { exfalso. apply Hop. repeat constructor. }
    by eexists.
Qed.

Lemma operation_json_roundtrip_witness :
  (∃ tok : string,
     tok ∈ Op.tokens ∧ Op.String' Op.Delete = Some tok ∧
     Op.MarshalJSON Op.Delete
       = (Some (String Json.dquote (tok +:+ String Json.dquote "")), None) ∧
     ∀ o0 : Op.Operation,
       Op.UnmarshalJSON o0 (String Json.dquote (tok +:+ String Json.dquote ""))
         = (Op.Delete, None))
  ∧ (∃ e : error, Op.UnmarshalJSON Op.Write (Json.Marshal "update") = (Op.Write, Some e)).
Proof.
  split.
  - apply (proj1 operation_json_roundtrip Op.Delete).
    unfold Op.operations. repeat constructor.
  - apply (proj2 operation_json_roundtrip Op.Write (Json.Marshal "update")).
    intros tok Htok. unfold Op.tokens in Htok.
    repeat (apply elem_of_cons in Htok as [-> | Htok]);
      try (intros Heq; vm_compute in Heq; discriminate Heq).
    by apply elem_of_nil in Htok.
Defined.

(** ** Credential lookup *)

Section CredentialLookup.
Import Model AuthDao.

Variable unmarshalUser : string → User + error.
Variable unmarshalPermission : string → Permission + error.

Lemma Search_hits (c : Cluster) (idx : list string) (username : string) :
  reachable c = true →
  ∃ hits : list SearchHit,
    Search c idx username = (Some hits, None) ∧
    length hits = length (matching c idx username).
Proof.
  intros Hup. unfold Search. rewrite Hup. eexists. split; [ reflexivity | ].
  by rewrite length_fmap.
Qed.

Lemma Search_unreachable (c : Cluster) (idx : list string) (username : string) :
  reachable c = false → Search c idx username = (None, Some unreachable).
Proof. intros Hdown. unfold Search. by rewrite Hdown. Qed.

(** C1. When more than one record of the user and permission indices is
    bound to the username, [getCredential] returns an error and no
    credential. *)
Theorem getCredential_ambiguous_is_error (es : elasticsearch) (username : string) :
  (1 < length (matching (client es) [userIndex es; permissionIndex es] username))%nat →
  ∃ e : error,
    getCredential unmarshalUser unmarshalPermission es username = Return (None, Some e).
Proof.
  intros Hmany. unfold getCredential.
  destruct (reachable (client es)) eqn:Hup.
  - destruct (Search_hits (client es) [userIndex es; permissionIndex es] username Hup)
      as (hits & -> & Hlen).
    rewrite decide_True by lia. by eexists.
  - rewrite Search_unreachable by done. by eexists.
Qed.

(** C2, as the code has it. When no record is bound to the username,
    [getCredential] returns no credential and, as long as the search request
    itself succeeds, no error either: the lookup reports the absence by the
    nil credential. The only error is that of a failed search request. *)
Theorem getCredential_absent_is_nil (es : elasticsearch) (username : string) :
  matching (client es) [userIndex es; permissionIndex es] username = [] →
  getCredential unmarshalUser unmarshalPermission es username
    = Return (None, if reachable (client es) then None else Some unreachable).
Proof.
  intros Hnone. unfold getCredential, Search. rewrite Hnone.
  by destruct (reachable (client es)).
Qed.

End CredentialLookup.

Lemma getCredential_ambiguous_is_error_witness :
  ∃ e : error,
    AuthDao.getCredential Samples.unmarshalUser Samples.unmarshalPermission
      Samples.es_ambiguous "alice" = Model.Return (None, Some e).
Proof.
  apply (getCredential_ambiguous_is_error Samples.unmarshalUser
           Samples.unmarshalPermission Samples.es_ambiguous "alice").
  vm_compute. lia.
Defined.

Lemma getCredential_absent_is_nil_witness :
  AuthDao.getCredential Samples.unmarshalUser Samples.unmarshalPermission
    Samples.es_ambiguous "mallory"
  = Model.Return
      (None, if AuthDao.reachable (AuthDao.client Samples.es_ambiguous)
             then None else Some AuthDao.unreachable).
Proof.
  apply (getCredential_absent_is_nil Samples.unmarshalUser Samples.unmarshalPermission
           Samples.es_ambiguous "mallory").
  vm_compute. reflexivity.
Defined.

(** C2, as stated, fails: for a username bound to no record of a reachable
    cluster the lookup returns success carrying no credential, and no
    error of any kind. *)
Lemma getCredential_absent_counterexample :
  AuthDao.matching (AuthDao.client Samples.es_ambiguous)
    [AuthDao.userIndex Samples.es_ambiguous; AuthDao.permissionIndex Samples.es_ambiguous]
    "mallory" = []
  ∧ AuthDao.getCredential Samples.unmarshalUser Samples.unmarshalPermission
      Samples.es_ambiguous "mallory" = Model.Return (None, None)
  ∧ ¬ (∃ (c : option Model.AuthCredential) (e : error),
         AuthDao.getCredential Samples.unmarshalUser Samples.unmarshalPermission
           Samples.es_ambiguous "mallory" = Model.Return (c, Some e)).
Proof.
  split; [ by vm_compute | ]. split; [ by vm_compute | ].
  intros (c & e & Heq). vm_compute in Heq. discriminate Heq.
Qed.

(** ** Byte strings *)

Section BytesFacts.
Import Bytes.

Lemma app_cons (a : ascii) (s t : string) : String a s +:+ t = String a (s +:+ t).
Proof. reflexivity. Qed.

Lemma app_nil_l (t : string) : "" +:+ t = t.
Proof. reflexivity. Qed.

Lemma app_nil_r (s : string) : s +:+ "" = s.
Proof. induction s as [| a s IH]; [ done | ]. by rewrite app_cons, IH. Qed.

Lemma app_assoc_s (s t u : string) : (s +:+ t) +:+ u = s +:+ (t +:+ u).
Proof. induction s as [| a s IH]; [ done | ]. by rewrite !app_cons, IH. Qed.

Lemma length_app_s (s t : string) :
  String.length (s +:+ t) = (String.length s + String.length t)%nat.
Proof. induction s as [| a s IH]; [ done | ]. rewrite app_cons. simpl. by rewrite IH. Qed.

Lemma take_length (n : nat) (s : string) :
  String.length (take n s) = (n `min` String.length s)%nat.
Proof.
  revert s. induction n as [| n IH]; intros [| a s]; simpl; try done.
  by rewrite IH.
Qed.

Lemma take_all (n : nat) (s : string) : (String.length s ≤ n)%nat → take n s = s.
Proof.
  revert s. induction n as [| n IH]; intros [| a s] Hle; simpl in *; try done; try lia.
  rewrite IH; [ done | lia ].
Qed.

Lemma take_is_prefix (n : nat) (s : string) : ∃ rest : string, s = take n s +:+ rest.
Proof.
  revert s. induction n as [| n IH]; intros s.
  - exists s. by destruct s.
  - destruct s as [| a s]; [ by exists "" | ].
    destruct (IH s) as [rest Hrest]. exists rest. simpl. rewrite app_cons. by f_equal.
Qed.

Lemma Min_spec (a b : Z) : Min a b = a `min` b.
Proof. unfold Min. case_decide; lia. Qed.

(** Slicing at [Min(len(b), n)] is within bounds for every [n] that is not
    negative: it never panics. *)
Lemma slice_to_Min (b : string) (n : Z) :
  0 ≤ n → slice_to b (Min (len b) n) = Model.Return (first_bytes (Min (len b) n) b).
Proof.
  intros Hn. unfold slice_to, first_bytes. rewrite decide_True; [ done | ].
  rewrite Min_spec. unfold len. lia.
Qed.

Lemma first_bytes_len (b : string) (n : Z) :
  0 ≤ n → len (first_bytes (Min (len b) n) b) = len b `min` n.
Proof.
  intros Hn. unfold first_bytes, len. rewrite take_length, Min_spec. lia.
Qed.

Lemma first_bytes_whole (b : string) (n : Z) :
  len b ≤ n → first_bytes (Min (len b) n) b = b.
Proof.
  intros Hle. unfold first_bytes. apply take_all. rewrite Min_spec.
  unfold len in *. lia.
Qed.

Lemma prefix_app (sep x : string) : String.prefix sep (sep +:+ x) = true.
Proof.
  induction sep as [| a sep IH]; [ by destruct x | ].
  rewrite app_cons. simpl. by destruct (ascii_dec a a).
Qed.

Lemma prefix_app_ext (sep y z : string) :
  (String.length sep ≤ String.length y)%nat →
  String.prefix sep (y +:+ z) = String.prefix sep y.
Proof.
  revert y. induction sep as [| a sep IH]; intros y Hle.
  - by destruct y, z.
  - destruct y as [| b y]; simpl in Hle; [ lia | ].
    rewrite app_cons. simpl. destruct (ascii_dec a b); [ | done ].
    apply IH. lia.
Qed.

Lemma split_go_skip (sep x y : string) :
  split_go sep (String.length x) (x +:+ y) = split_go sep 0 y.
Proof.
  induction x as [| a x IH]; [ done | ].
  rewrite app_cons. simpl. exact IH.
Qed.

(** The first separator of a text is the one after [head] whenever [head]
    followed by the separator splits into [head] and nothing else. *)
Lemma Split_head (sep head rest : string) :
  sep ≠ "" →
  Split (head +:+ sep) sep = [head; ""] →
  Split (head +:+ sep +:+ rest) sep = head :: Split rest sep.
Proof.
  intros Hsep. unfold Split. induction head as [| a head IH]; intros Hhead.
  - rewrite app_nil_l. destruct sep as [| c sep]; [ done | ].
    rewrite app_cons.
    change (split_go (String c sep) 0 (String c (sep +:+ rest)))
      with (if String.prefix (String c sep) (String c (sep +:+ rest))
            then "" :: split_go (String c sep) (String.length (String c sep) - 1) (sep +:+ rest)
            else match split_go (String c sep) 0 (sep +:+ rest) with
                 | piece :: pieces => String c piece :: pieces
                 | [] => [String c ""]
                 end).
    rewrite <- app_cons, prefix_app.
    replace (String.length (String c sep) - 1)%nat with (String.length sep)
      by (simpl; lia).
    by rewrite split_go_skip.
  - rewrite app_cons in Hhead. rewrite app_cons.
    change (split_go sep 0 (String a (head +:+ sep +:+ rest)))
      with (if String.prefix sep (String a (head +:+ sep +:+ rest))
            then "" :: split_go sep (String.length sep - 1) (head +:+ sep +:+ rest)
            else match split_go sep 0 (head +:+ sep +:+ rest) with
                 | piece :: pieces => String a piece :: pieces
                 | [] => [String a ""]
                 end).
    change (split_go sep 0 (String a (head +:+ sep)))
      with (if String.prefix sep (String a (head +:+ sep))
            then "" :: split_go sep (String.length sep - 1) (head +:+ sep)
            else match split_go sep 0 (head +:+ sep) with
                 | piece :: pieces => String a piece :: pieces
                 | [] => [String a ""]
                 end) in Hhead.
    assert (Hpre : String.prefix sep (String a (head +:+ sep +:+ rest))
                   = String.prefix sep (String a (head +:+ sep))).
    { rewrite <- (app_assoc_s head sep rest), <- !app_cons.
      apply prefix_app_ext. rewrite app_cons. simpl. rewrite length_app_s. lia. }
    rewrite Hpre. destruct (String.prefix sep (String a (head +:+ sep))).
    + discriminate Hhead.
    + destruct (split_go sep 0 (head +:+ sep)) as [| piece pieces] eqn:Hsplit.
      * discriminate Hhead.
      * injection Hhead as -> ->. by rewrite IH.
Qed.

End BytesFacts.

(** ** The middleware chain of the logs plugin *)

Section ChainFacts.
Import Http Chain.

Variable requestCategory : Category.
Variable external : Stage → Request → option Request.

Lemma middleware_of_after (s : Stage) (h : Handler) (req : Request) :
  middleware_of requestCategory external s h req
  = Entered s :: from_option h [] (after requestCategory external s req).
Proof.
  unfold after. destruct s; simpl; try done; by destruct (external _ req).
Qed.

Lemma Adapt_through (l : list Stage) (h : Handler) (req : Request) :
  Adapt h (middleware_of requestCategory external <$> l) req
  = (Entered <$> (through requestCategory external l req).1)
      ++ from_option h [] (through requestCategory external l req).2.
Proof.
  revert req. induction l as [| s l IH]; intros req; [ done | ].
  rewrite fmap_cons. unfold Adapt. simpl foldr. fold (Adapt h (middleware_of requestCategory external <$> l)).
  rewrite middleware_of_after. simpl through.
  destruct (after requestCategory external s req) as [req' |]; [ | done ].
  simpl from_option. rewrite IH.
  by destruct (through requestCategory external l req').
Qed.

Lemma through_prefix (l : list Stage) (req : Request) :
  (through requestCategory external l req).1 `prefix_of` l
  ∧ match (through requestCategory external l req).2 with
    | Some _ => (through requestCategory external l req).1 = l
    | None => True
    end.
Proof.
  revert req. induction l as [| s l IH]; intros req; [ done | ].
  simpl. destruct (after requestCategory external s req) as [req' |].
  - destruct (IH req') as [Hpre Hall].
    destruct (through requestCategory external l req') as [ran out]. simpl in *.
    split; [ by apply prefix_cons | ].
    destruct out; [ by f_equal | done ].
  - simpl. split; [ | done ]. apply prefix_cons, prefix_nil.
Qed.

(** C4, as the code has it. On every request the chain enters its stages
    in the order of [list]: the three classifications (category, operation,
    indices), then the authentication, then the validations of indices, of
    the operation and of the category, in that order, and the business
    handler last; a stage that stops the chain keeps every later stage and
    the handler from running. *)
Theorem logs_chain_order (h : Handler) (req : Request) :
  list' = [ ClassifyCategory; ClassifyOp; ClassifyIndices; BasicAuth;
            ValidateIndices; ValidateOperation; ValidateCategory ]
  ∧ Wrap requestCategory external h req
    = (Entered <$> (through requestCategory external list' req).1)
        ++ from_option h [] (through requestCategory external list' req).2
  ∧ (through requestCategory external list' req).1 `prefix_of` list'
  ∧ match (through requestCategory external list' req).2 with
    | Some _ => (through requestCategory external list' req).1 = list'
    | None => True
    end.
Proof.
  split; [ done | ]. split; [ apply Adapt_through | ]. apply through_prefix.
Qed.

End ChainFacts.

(** C4, as stated, fails: the validation of the operation comes before the
    validation of the category, so the list is not in the canonical order
    (nor is it when read from its end), and no stage of it limits the
    rate. *)
Lemma logs_chain_order_counterexample :
  ¬ Chain.canonical Chain.list'
  ∧ ¬ Chain.canonical (reverse Chain.list')
  ∧ Chain.list' !! 5%nat = Some Chain.ValidateOperation
  ∧ Chain.list' !! 6%nat = Some Chain.ValidateCategory
  ∧ Forall (λ s, Chain.kind s ≠ Chain.RateLimit) Chain.list'.
Proof.
  split; [ | split; [ | split; [ done | split; [ done | ] ] ] ].
  - intros Hcanon.
    specialize (Hcanon 5%nat 6%nat Chain.ValidateOperation Chain.ValidateCategory
                  eq_refl eq_refl).
    simpl in Hcanon. lia.
  - intros Hcanon.
    specialize (Hcanon 0%nat 6%nat Chain.ValidateCategory Chain.ClassifyCategory
                  eq_refl eq_refl).
    simpl in Hcanon. lia.
  - unfold Chain.list'. repeat constructor; done.
Qed.

(** ** The recorder middleware of the logs plugin *)

Section RecorderFacts.
Import Model Http.

Variable float64 : Type.
Variable searchTook settingsTook : string → option float64.
Variable StatusText : Z → string.
Variable marshalRecord : LogsRS.record float64 → string.
Variable errorBody : string → Z → string.

Local Abbreviation serveRS :=
  (LogsRS.serve float64 searchTook settingsTook StatusText marshalRecord).
Local Abbreviation recordResponseRS :=
  (LogsRS.recordResponse float64 searchTook settingsTook StatusText marshalRecord).
Local Abbreviation serveArc :=
  (LogsArc.serve float64 searchTook settingsTook StatusText errorBody).
Local Abbreviation recordResponseArc :=
  (LogsArc.recordResponse float64 searchTook settingsTook StatusText).

Lemma copied_unsent (rec w : Writer) :
  sent w = None →
  sent (copied rec w) = Some (Code rec, hdr rec ∪ hdr w)
  ∧ body (copied rec w) = body w +:+ body rec.
Proof.
  intros Hw. unfold copied, Write, WriteHeader, copy_headers. simpl. by rewrite Hw.
Qed.

Lemma capped_RS (b : string) :
  LogsRS.capped b = Return (Bytes.first_bytes (Bytes.Min (Bytes.len b) Bytes.ceiling) b).
Proof. unfold LogsRS.capped. by rewrite slice_to_Min. Qed.

Lemma capped_Arc (b : string) :
  LogsArc.capped b = Return (Bytes.first_bytes (Bytes.Min (Bytes.len b) Bytes.ceiling) b).
Proof. unfold LogsArc.capped. by rewrite slice_to_Min. Qed.

(** The recording step of the ReactiveSearch revision always returns. *)
Lemma recordResponseRS_returns (env : LogsRS.Env) (w : Writer) (r : Request) (reqBody : string) :
  ∃ rd : LogsRS.Recorded float64, recordResponseRS env w r reqBody = Return rd.
Proof.
  unfold LogsRS.recordResponse, LogsRS.gave_up.
  destruct (ctx_category (Ctx r)) as [cat |]; [ | by eexists ].
  destruct (ctx_indices (Ctx r)) as [idx |]; [ | by eexists ].
  destruct (LogsRS.read_fails env); [ by eexists | ].
  destruct (decide (cat = ReactiveSearch)).
  - destruct (LogsRS.marshal_request_fails env); [ by eexists | ].
    rewrite !capped_RS. by eexists.
  - rewrite !capped_RS. by eexists.
Qed.

(** The recording step of the Arc revision always returns. *)
Lemma recordResponseArc_returns (env : LogsArc.Env) (q : LogsArc.Request) (w : Writer)
    (r : Request) :
  ∃ rd : LogsArc.Recorded float64, recordResponseArc env q w r = Return rd.
Proof.
  unfold LogsArc.recordResponse, LogsArc.gave_up.
  destruct (ctx_category (Ctx r)) as [cat |]; [ | by eexists ].
  destruct (ctx_indices (Ctx r)) as [idx |]; [ | by eexists ].
  destruct (LogsArc.read_fails env); [ by eexists | ].
  rewrite capped_Arc. by eexists.
Qed.

Lemma recorderArc_returns (h : HandlerFunc) (w : Writer) (r : Request) :
  ∃ s : LogsArc.Served, LogsArc.recorder errorBody h w r = Return s.
Proof.
  unfold LogsArc.recorder. case_decide; [ by eexists | ].
  destruct (ReadAll r) as [b | [err]]; [ | by eexists ].
  rewrite capped_Arc. by eexists.
Qed.

(** C5, as the code has it. Whatever fails in the recording step (a value
    missing from the context, the recorded body unreadable, a marshalling
    error, a write error, a failed bulk request), the response the client
    sees is the one the middleware wrote before spawning it, and the failure
    is only logged. For a streams request that response is written by the
    wrapped handler itself; for any other request whose category is in the
    context and whose dump can be taken (Arc revision: whose body can be
    read) it is the status code and the body the wrapped handler left in the
    recorder, with the recorder's headers laid over those of the writer. *)
Theorem recorder_response_is_handlers (h : HandlerFunc) (w : Writer) (r : Request) :
  (∀ (env : LogsRS.Env) (logfile0 : list string),
     ∃ wd : LogsRS.World,
       serveRS env h w r logfile0 = Return wd
       ∧ LogsRS.response wd = LogsRS.client (LogsRS.recorder h w r))
  ∧ (∀ env : LogsArc.Env,
       ∃ (s : LogsArc.Served) (wd : LogsArc.World),
         LogsArc.recorder errorBody h w r = Return s
         ∧ serveArc env h w r = Return wd
         ∧ LogsArc.response wd = LogsArc.client s)
  ∧ (Get (ReqHeader r) "X-Request-Category" = "streams" →
       LogsRS.client (LogsRS.recorder h w r) = h w r
       ∧ ∃ s : LogsArc.Served,
           LogsArc.recorder errorBody h w r = Return s ∧ LogsArc.client s = h w r)
  ∧ (Get (ReqHeader r) "X-Request-Category" ≠ "streams" →
       (∀ cat : Category,
          ctx_category (Ctx r) = Some cat →
          cat = ReactiveSearch ∨ is_Some (ReqBody r) →
          LogsRS.client (LogsRS.recorder h w r) = copied (h NewRecorder r) w)
       ∧ (is_Some (ReqBody r) →
          ∃ s : LogsArc.Served,
            LogsArc.recorder errorBody h w r = Return s
            ∧ LogsArc.client s = copied (h NewRecorder r) w))
  ∧ (sent w = None →
       sent (copied (h NewRecorder r) w)
         = Some (Code (h NewRecorder r), hdr (h NewRecorder r) ∪ hdr w)
       ∧ body (copied (h NewRecorder r) w) = body w +:+ body (h NewRecorder r))
  ∧ (∀ (es : LogsDao.elasticsearch) (c : LogsDao.Cluster)
       (stored : list (string * LogsRS.record float64)) (rec : LogsRS.record float64),
       LogsDao.bulk_fails c = true →
       LogsDao.indexRecord _ es c stored rec
         = (stored, [LogsDao.logTag +:+ " : error indexing log record"])).
Proof.
  split.
  { intros env logfile0. unfold LogsRS.serve.
    destruct (LogsRS.spawned (LogsRS.recorder h w r)) as [t |]; [ | by eexists ].
    destruct (recordResponseRS_returns env (LogsRS.task_recorder t)
                (LogsRS.task_request t) (LogsRS.task_dump t)) as [rd ->].
    by eexists. }
  split.
  { intros env. destruct (recorderArc_returns h w r) as [s Hs].
    unfold LogsArc.serve. rewrite Hs.
    destruct (LogsArc.spawned s) as [t |]; [ | by eexists _, _ ].
    destruct (recordResponseArc_returns env (LogsArc.task_request_rec t)
                (LogsArc.task_recorder t) (LogsArc.task_request t)) as [rd ->].
    by eexists _, _. }
  split.
  { intros Hstreams. unfold LogsRS.recorder, LogsArc.recorder.
    rewrite !decide_True by done. split; [ done | by eexists ]. }
  split.
  { intros Hother. split.
    - intros cat Hcat Hdump. unfold LogsRS.recorder.
      rewrite decide_False by done. rewrite Hcat.
      destruct (decide (cat ≠ ReactiveSearch)) as [Hne | Heq]; [ | done ].
      destruct Hdump as [-> | [b Hb]]; [ done | ].
      unfold DumpRequest. by rewrite Hb.
    - intros [b Hb]. unfold LogsArc.recorder.
      rewrite decide_False by done. unfold ReadAll. rewrite Hb, capped_Arc.
      by eexists. }
  split; [ apply copied_unsent | ].
  intros es c stored rec Hfail. unfold LogsDao.indexRecord. by rewrite Hfail.
Qed.

(** C9, as the code has it. For a request whose X-Request-Category header
    is "streams" both revisions run the wrapped handler on the original
    writer and spawn no recording step, so that nothing is written to the
    log file and nothing is logged. For any other request they run it on
    a fresh response recorder and spawn the recording step with that
    recorder, provided the request can be taken for the record: the category
    is in the context and the request can be dumped (ReactiveSearch
    revision), the body can be read (Arc revision). Otherwise the wrapped
    handler is not run and nothing is spawned: the ReactiveSearch revision
    leaves the writer as it is, the Arc revision answers 500. *)
Theorem recorder_streams_bypass (h : HandlerFunc) (w : Writer) (r : Request) :
  (Get (ReqHeader r) "X-Request-Category" = "streams" →
     LogsRS.recorder h w r
       = {| LogsRS.client := h w r; LogsRS.handled := Some LogsRS.OriginalWriter;
            LogsRS.spawned := None; LogsRS.logged := [] |}
     ∧ LogsArc.recorder errorBody h w r
       = Return {| LogsArc.client := h w r;
                   LogsArc.handled := Some LogsArc.OriginalWriter;
                   LogsArc.spawned := None; LogsArc.logged := [] |}
     ∧ (∀ (env : LogsRS.Env) (logfile0 : list string),
          serveRS env h w r logfile0
          = Return {| LogsRS.response := h w r; LogsRS.logfile := logfile0;
                      LogsRS.loglines := [] |})
     ∧ (∀ env : LogsArc.Env,
          serveArc env h w r
          = Return {| LogsArc.response := h w r; LogsArc.loglines := [] |}))
  ∧ (Get (ReqHeader r) "X-Request-Category" ≠ "streams" →
     (∀ cat : Category,
        ctx_category (Ctx r) = Some cat →
        cat = ReactiveSearch ∨ is_Some (ReqBody r) →
        LogsRS.handled (LogsRS.recorder h w r) = Some LogsRS.ResponseRecorder
        ∧ ∃ t : LogsRS.Task,
            LogsRS.spawned (LogsRS.recorder h w r) = Some t
            ∧ LogsRS.task_recorder t = h NewRecorder r
            ∧ LogsRS.task_request t = r)
     ∧ (is_Some (ReqBody r) →
        ∃ (s : LogsArc.Served) (t : LogsArc.Task),
          LogsArc.recorder errorBody h w r = Return s
          ∧ LogsArc.handled s = Some LogsArc.ResponseRecorder
          ∧ LogsArc.spawned s = Some t
          ∧ LogsArc.task_recorder t = h NewRecorder r
          ∧ LogsArc.task_request t = r)
     ∧ (ctx_category (Ctx r) = None
        ∨ (ctx_category (Ctx r) ≠ Some ReactiveSearch ∧ ReqBody r = None) →
        LogsRS.handled (LogsRS.recorder h w r) = None
        ∧ LogsRS.spawned (LogsRS.recorder h w r) = None
        ∧ LogsRS.client (LogsRS.recorder h w r) = w)
     ∧ (ReqBody r = None →
        ∃ s : LogsArc.Served,
          LogsArc.recorder errorBody h w r = Return s
          ∧ LogsArc.handled s = None
          ∧ LogsArc.spawned s = None
          ∧ LogsArc.client s
            = LogsArc.WriteBackError errorBody w "Can't read request body" 500)).
Proof.
  split.
  { intros Hstreams.
    unfold LogsRS.serve, LogsArc.serve, LogsRS.recorder, LogsArc.recorder.
    by rewrite !decide_True by done. }
  intros Hother. split; [ | split; [ | split ] ].
  - intros cat Hcat Hdump. unfold LogsRS.recorder.
    rewrite decide_False by done. rewrite Hcat.
    destruct (decide (cat ≠ ReactiveSearch)) as [Hne | Heq].
    + destruct Hdump as [-> | [b Hb]]; [ done | ].
      unfold DumpRequest. rewrite Hb. simpl. split; [ done | by eexists ].
    + simpl. split; [ done | by eexists ].
  - intros [b Hb]. unfold LogsArc.recorder.
    rewrite decide_False by done. unfold ReadAll. rewrite Hb, capped_Arc.
    eexists _, _. by repeat split.
  - intros Hbad. unfold LogsRS.recorder. rewrite decide_False by done.
    destruct Hbad as [-> | [Hne Hb]]; [ done | ].
    destruct (ctx_category (Ctx r)) as [cat |]; [ | done ].
    rewrite decide_True by congruence. unfold DumpRequest. by rewrite Hb.
  - intros Hb. unfold LogsArc.recorder. rewrite decide_False by done.
    unfold ReadAll. rewrite Hb. by eexists.
Qed.

Lemma persist_built (env : LogsRS.Env) (rec : LogsRS.record float64) (lines : list string) :
  LogsRS.built (LogsRS.persist float64 marshalRecord env rec lines) = Some rec.
Proof.
  unfold LogsRS.persist.
  by destruct (LogsRS.marshal_record_fails env), (LogsRS.write_fails env).
Qed.

Local Abbreviation blank_line := (Bytes.CRLF +:+ Bytes.CRLF).

(** What the recording step of the ReactiveSearch revision stores as the
    two bodies. *)
Lemma recordResponseRS_bodies (env : LogsRS.Env) (w : Writer) (r : Request) (reqBody : string)
    (rd : LogsRS.Recorded float64) (rec : LogsRS.record float64) :
  recordResponseRS env w r reqBody = Return rd →
  LogsRS.built rd = Some rec →
  LogsRS.RBody (LogsRS.Resp rec)
    = Bytes.first_bytes (Bytes.Min (Bytes.len (body w)) Bytes.ceiling) (body w)
  ∧ ∃ src : string,
      LogsRS.Body (LogsRS.Req rec)
        = Bytes.first_bytes (Bytes.Min (Bytes.len src) Bytes.ceiling) src
      ∧ (ctx_category (Ctx r) = Some ReactiveSearch →
         src = default "null" (ctx_request (Ctx r)))
      ∧ (ctx_category (Ctx r) ≠ Some ReactiveSearch →
         ∀ head b : string,
           reqBody = head +:+ blank_line +:+ b →
           Bytes.Split (head +:+ blank_line) blank_line = [head; ""] →
           Bytes.Split b blank_line = [b] →
           src = b).
Proof.
  unfold LogsRS.recordResponse, LogsRS.gave_up.
  destruct (ctx_category (Ctx r)) as [cat |]; [ | by intros [= <-] ].
  destruct (ctx_indices (Ctx r)) as [idx |]; [ | by intros [= <-] ].
  destruct (LogsRS.read_fails env); [ by intros [= <-] | ].
  destruct (decide (cat = ReactiveSearch)) as [-> | Hne].
  - destruct (LogsRS.marshal_request_fails env); [ by intros [= <-] | ].
    rewrite !capped_RS. intros [= <-]. rewrite persist_built. intros [= <-]. simpl.
    split; [ done | ]. eexists. split; [ reflexivity | ]. split; [ done | ].
    intros Hcat. by destruct Hcat.
  - rewrite !capped_RS. intros [= <-]. rewrite persist_built. intros [= <-]. simpl.
    split; [ done | ]. eexists. split; [ reflexivity | ]. split; [ congruence | ].
    intros _ head b -> Hhead Hb.
    rewrite Split_head by done. rewrite Hb. reflexivity.
Qed.


End RecorderFacts.

Lemma recorder_response_is_handlers_witness :
  (∃ wd : LogsRS.World,
     LogsRS.serve Z Samples.no_took Samples.no_took Samples.StatusText Samples.marshalRecord
       Samples.env_rs_write_fails Samples.created Samples.fresh Samples.req_plain []
     = Model.Return wd
     ∧ LogsRS.response wd
       = LogsRS.client (LogsRS.recorder Samples.created Samples.fresh Samples.req_plain))
  ∧ (LogsRS.client (LogsRS.recorder Samples.created Samples.fresh Samples.req_streams)
     = Samples.created Samples.fresh Samples.req_streams
   ∧ ∃ s : LogsArc.Served,
       LogsArc.recorder Samples.errorBody Samples.created Samples.fresh Samples.req_streams
         = Model.Return s
       ∧ LogsArc.client s = Samples.created Samples.fresh Samples.req_streams)
  ∧ LogsRS.client (LogsRS.recorder Samples.created Samples.fresh Samples.req_plain)
      = Http.copied (Samples.created Http.NewRecorder Samples.req_plain) Samples.fresh
  ∧ Http.sent (Http.copied (Samples.created Http.NewRecorder Samples.req_plain) Samples.fresh)
      = Some (Http.Code (Samples.created Http.NewRecorder Samples.req_plain),
              Http.hdr (Samples.created Http.NewRecorder Samples.req_plain)
                ∪ Http.hdr Samples.fresh).
Proof.
  split; [ | split; [ | split ] ].
  - apply (proj1
      (recorder_response_is_handlers Z Samples.no_took Samples.no_took Samples.StatusText
         Samples.marshalRecord Samples.errorBody
         Samples.created Samples.fresh Samples.req_plain)).
  - apply (proj1 (proj2 (proj2
      (recorder_response_is_handlers Z Samples.no_took Samples.no_took Samples.StatusText
         Samples.marshalRecord Samples.errorBody
         Samples.created Samples.fresh Samples.req_streams)))).
    vm_compute. reflexivity.
  - refine (proj1 (proj1 (proj2 (proj2 (proj2
      (recorder_response_is_handlers Z Samples.no_took Samples.no_took Samples.StatusText
         Samples.marshalRecord Samples.errorBody
         Samples.created Samples.fresh Samples.req_plain)))) _) Http.Docs _ _).
    + vm_compute. discriminate.
    + vm_compute. reflexivity.
    + right. vm_compute. eauto.
  - refine (proj1 (proj1 (proj2 (proj2 (proj2 (proj2
      (recorder_response_is_handlers Z Samples.no_took Samples.no_took Samples.StatusText
         Samples.marshalRecord Samples.errorBody
         Samples.created Samples.fresh Samples.req_plain))))) _)).
    vm_compute. reflexivity.
Defined.

(** C5, as stated, fails: for a request whose body cannot be read, the
    ReactiveSearch revision writes nothing to the client and the Arc
    revision answers 500 with an error body, where the wrapped handler
    answers 201; the failure to take the request for the record changes what
    the client sees. *)
Lemma recorder_response_counterexample :
  Http.Get (Http.ReqHeader Samples.req_unreadable) "X-Request-Category" ≠ "streams"
  ∧ Http.sent (Samples.created Samples.fresh Samples.req_unreadable)
      = Some (201, {[ "Content-Type" := ["text/plain"] ]})
  ∧ Http.body (Samples.created Samples.fresh Samples.req_unreadable) = "created"
  ∧ LogsRS.client (LogsRS.recorder Samples.created Samples.fresh Samples.req_unreadable)
      = Samples.fresh
  ∧ ∃ s : LogsArc.Served,
      LogsArc.recorder Samples.errorBody Samples.created Samples.fresh Samples.req_unreadable
        = Model.Return s
      ∧ Http.sent (LogsArc.client s) = Some (500, ∅)
      ∧ Http.body (LogsArc.client s) = "Can't read request body".
Proof.
  split; [ by vm_compute | ].
  split; [ vm_compute; reflexivity | ]. split; [ vm_compute; reflexivity | ].
  split; [ vm_compute; reflexivity | ].
  eexists. split; [ vm_compute; reflexivity | ]. split; vm_compute; reflexivity.
Qed.

Lemma recorder_streams_bypass_witness :
  (LogsRS.recorder Samples.created Samples.fresh Samples.req_streams
     = {| LogsRS.client := Samples.created Samples.fresh Samples.req_streams;
          LogsRS.handled := Some LogsRS.OriginalWriter;
          LogsRS.spawned := None; LogsRS.logged := [] |}
   ∧ LogsArc.recorder Samples.errorBody Samples.created Samples.fresh Samples.req_streams
     = Model.Return
         {| LogsArc.client := Samples.created Samples.fresh Samples.req_streams;
            LogsArc.handled := Some LogsArc.OriginalWriter;
            LogsArc.spawned := None; LogsArc.logged := [] |}
   ∧ (∀ (env : LogsRS.Env) (logfile0 : list string),
        LogsRS.serve Z Samples.no_took Samples.no_took Samples.StatusText
          Samples.marshalRecord env Samples.created Samples.fresh Samples.req_streams
          logfile0
        = Model.Return
            {| LogsRS.response := Samples.created Samples.fresh Samples.req_streams;
               LogsRS.logfile := logfile0; LogsRS.loglines := [] |})
   ∧ (∀ env : LogsArc.Env,
        LogsArc.serve Z Samples.no_took Samples.no_took Samples.StatusText
          Samples.errorBody env Samples.created Samples.fresh Samples.req_streams
        = Model.Return
            {| LogsArc.response := Samples.created Samples.fresh Samples.req_streams;
               LogsArc.loglines := [] |}))
  ∧ (∃ (s : LogsArc.Served) (t : LogsArc.Task),
       LogsArc.recorder Samples.errorBody Samples.created Samples.fresh Samples.req_plain
         = Model.Return s
       ∧ LogsArc.handled s = Some LogsArc.ResponseRecorder
       ∧ LogsArc.spawned s = Some t
       ∧ LogsArc.task_recorder t = Samples.created Http.NewRecorder Samples.req_plain
       ∧ LogsArc.task_request t = Samples.req_plain).
Proof.
  split.
  - apply (proj1 (recorder_streams_bypass Z Samples.no_took Samples.no_took
                    Samples.StatusText Samples.marshalRecord Samples.errorBody
                    Samples.created Samples.fresh Samples.req_streams)).
    vm_compute. reflexivity.
  - refine (proj1 (proj2 (proj2 (recorder_streams_bypass Z Samples.no_took Samples.no_took
                    Samples.StatusText Samples.marshalRecord Samples.errorBody
                    Samples.created Samples.fresh Samples.req_plain) _)) _).
    + vm_compute. discriminate.
    + vm_compute. eauto.
Defined.

(** C9, as stated, fails: a request that is not of the streams category and
    whose body cannot be read gets no response recorder and no recording
    step, in either revision. *)
Lemma recorder_streams_bypass_counterexample :
  Http.Get (Http.ReqHeader Samples.req_unreadable) "X-Request-Category" ≠ "streams"
  ∧ LogsRS.handled (LogsRS.recorder Samples.created Samples.fresh Samples.req_unreadable)
      = None
  ∧ LogsRS.spawned (LogsRS.recorder Samples.created Samples.fresh Samples.req_unreadable)
      = None
  ∧ ∃ s : LogsArc.Served,
      LogsArc.recorder Samples.errorBody Samples.created Samples.fresh Samples.req_unreadable
        = Model.Return s
      ∧ LogsArc.handled s = None ∧ LogsArc.spawned s = None.
Proof.
  split; [ by vm_compute | ].
  split; [ vm_compute; reflexivity | ]. split; [ vm_compute; reflexivity | ].
  eexists. split; [ vm_compute; reflexivity | ]. split; reflexivity.
Qed.

(** The dump of the plain sample request: its head, an empty line, its
    body. *)
Example DumpRequest_req_plain :
  Http.DumpRequest Samples.req_plain
  = inl (Samples.plain_head +:+ (Bytes.CRLF +:+ Bytes.CRLF) +:+ "{}").
Proof. vm_compute. reflexivity. Qed.



(** ** The rollover job of the logs store *)

Section RolloverFacts.
Import Model LogsDao.

Lemma Split_comma_cons (name rest : string) :
  comma_free name →
  Bytes.Split (name +:+ "," +:+ rest) "," = name :: Bytes.Split rest ",".
Proof.
  unfold comma_free. induction name as [| a name IH]; intros Hfree.
  - by apply (Split_head "," "" rest).
  - assert (Hnil : ∀ x : string, String.prefix "" x = true) by (by intros []).
    unfold Bytes.Split in *. rewrite app_cons.
    change (Bytes.split_go "," 0 (String a (name +:+ "," +:+ rest)))
      with (if (if ascii_dec "," a then String.prefix "" (name +:+ "," +:+ rest) else false)
            then "" :: Bytes.split_go "," 0 (name +:+ "," +:+ rest)
            else match Bytes.split_go "," 0 (name +:+ "," +:+ rest) with
                 | piece :: pieces => String a piece :: pieces
                 | [] => [String a ""]
                 end).
    change (Bytes.split_go "," 0 (String a name))
      with (if (if ascii_dec "," a then String.prefix "" name else false)
            then "" :: Bytes.split_go "," 0 name
            else match Bytes.split_go "," 0 name with
                 | piece :: pieces => String a piece :: pieces
                 | [] => [String a ""]
                 end) in Hfree.
    rewrite Hnil in *.
    destruct (ascii_dec "," a) as [<- | Hne]; [ discriminate Hfree | ].
    destruct (Bytes.split_go "," 0 name) as [| piece pieces] eqn:Hsplit.
    { injection Hfree as <-. discriminate Hsplit. }
    injection Hfree as -> ->. by rewrite IH.
Qed.

Lemma Split_Join (names : list string) :
  names ≠ [] → Forall comma_free names →
  Bytes.Split (Bytes.Join names ",") "," = names.
Proof.
  induction names as [| name [| name' names] IH]; intros Hne Hfree; [ done | | ].
  - simpl. by apply Forall_inv in Hfree.
  - change (Bytes.Join (name :: name' :: names) ",")
      with (name +:+ "," +:+ Bytes.Join (name' :: names) ",").
    rewrite Split_comma_cons by (by apply Forall_inv in Hfree).
    rewrite IH; [ done | done | by apply Forall_inv_tail in Hfree ].
Qed.

Lemma sort_Strings_sorted (l : list string) :
  StronglySorted String.le (sort_Strings l) ∧ sort_Strings l ≡ₚ l.
Proof.
  split; [ apply StronglySorted_merge_sort; apply _ | apply merge_sort_Permutation ].
Qed.

(** On a run of the job in which the cluster answers the rollover, the
    listing and the deletion: when more than two indices match [alias-*],
    the job asks to delete the names that come before the last two in
    increasing order, exactly those leave the cluster, each of them is
    strictly smaller than each of the two that stay; when two or fewer
    match, no deletion is asked for and the cluster keeps all its
    indices. *)
Theorem rolloverIndexJob_keeps_last_two (c : Cluster) (alias : string)
    (resp : RolloverResponse) :
  rollover_answer c = Some resp →
  cat_fails c = false →
  delete_fails c = false →
  (∀ name : string, name ∈ indices (Rollover c).2 → comma_free name) →
  let after := indices (Rollover c).2 in
  let matched : gset string :=
    filter (λ i, String.prefix (alias +:+ "-") i = true) after in
  ∃ run : Run,
    rolloverIndexJob c alias = Return run
    ∧ ((2 < size matched)%nat →
       ∃ deleted kept : list string,
         sort_Strings (elements matched) = deleted ++ kept
         ∧ length kept = 2%nat
         ∧ delete_request run = Some (Bytes.Join deleted ",")
         ∧ indices (cluster run) = after ∖ list_to_set deleted
         ∧ (∀ d : string, d ∈ deleted → d ∈ matched ∧ d ∉ indices (cluster run))
         ∧ (∀ k : string, k ∈ kept → k ∈ matched ∧ k ∈ indices (cluster run))
         ∧ (∀ d k : string, d ∈ deleted → k ∈ kept → String.le d k ∧ d ≠ k))
    ∧ ((size matched ≤ 2)%nat →
       delete_request run = None ∧ indices (cluster run) = after).
Proof.
  intros Hresp Hcat Hdel Hfree after matched.
  unfold rolloverIndexJob.
  assert (Hroll : Rollover c = (Some resp, (Rollover c).2)).
  { unfold Rollover. by rewrite Hresp. }
  assert (Hcat' : cat_fails (Rollover c).2 = false).
  { unfold Rollover. by rewrite Hresp. }
  assert (Hdel' : delete_fails (Rollover c).2 = false).
  { unfold Rollover. by rewrite Hresp. }
  rewrite Hroll. set (c1 := (Rollover c).2) in *.
  assert (Hrows : CatIndices c1 alias = elements matched).
  { unfold CatIndices. by rewrite Hcat'. }
  rewrite Hrows.
  assert (Hsize : length (elements matched) = size matched) by done.
  destruct (sort_Strings_sorted (elements matched)) as [Hsorted Hperm].
  assert (Hlen : length (sort_Strings (elements matched)) = size matched).
  { by rewrite Hperm. }
  destruct (decide (2 < length (elements matched))%nat) as [Hmany | Hfew].
  - set (sorted := sort_Strings (elements matched)) in *.
    set (deleted := take (length sorted - 2) sorted).
    set (kept := drop (length sorted - 2) sorted).
    assert (Hsplit : sorted = deleted ++ kept) by (symmetry; apply take_drop).
    assert (Hin : ∀ x : string, x ∈ sorted ↔ x ∈ matched).
    { intros x. rewrite Hperm. apply elem_of_elements. }
    assert (Hnodup : NoDup (deleted ++ kept)).
    { rewrite <- Hsplit, Hperm. apply NoDup_elements. }
    apply NoDup_app in Hnodup as (_ & Hdisj & _).
    assert (Hdeleted_ne : deleted ≠ []).
    { intros Hnil. apply (f_equal length) in Hnil. unfold deleted in Hnil.
      rewrite length_take in Hnil. simpl in Hnil. lia. }
    assert (Hdeleted_free : Forall comma_free deleted).
    { apply Forall_forall. intros d Hd. apply Hfree.
      assert (Hd' : d ∈ sorted) by (rewrite Hsplit; apply elem_of_app; by left).
      apply Hin in Hd'. by apply elem_of_filter in Hd' as [_ ?]. }
    unfold DeleteIndex. rewrite Hdel'. eexists. split; [ reflexivity | ].
    simpl. rewrite Split_Join by done.
    split; [ | intros Hle; lia ].
    intros _. exists deleted, kept.
    split; [ done | ].
    split; [ unfold kept; rewrite length_drop; lia | ].
    split; [ done | ]. split; [ done | ].
    split; [ | split ].
    + intros d Hd. split.
      * apply Hin. rewrite Hsplit. apply elem_of_app. by left.
      * rewrite elem_of_difference, elem_of_list_to_set. tauto.
    + intros k Hk.
      assert (Hk' : k ∈ matched).
      { apply Hin. rewrite Hsplit. apply elem_of_app. by right. }
      split; [ done | ].
      rewrite elem_of_difference, elem_of_list_to_set. split.
      * by apply elem_of_filter in Hk' as [_ ?].
      * intros Hd. by apply (Hdisj k).
    + intros d k Hd Hk. split.
      * rewrite Hsplit in Hsorted.
        by apply (StronglySorted_app_1_elem_of _ deleted kept).
      * intros ->. by apply (Hdisj k).
  - eexists. split; [ reflexivity | ]. simpl.
    split; [ intros Hgt; lia | done ].
Qed.

End RolloverFacts.

Lemma rolloverIndexJob_keeps_last_two_witness :
  let after := LogsDao.indices (LogsDao.Rollover Samples.logs_cluster).2 in
  let matched : gset string :=
    filter (λ i, String.prefix (".logs" +:+ "-") i = true) after in
  ∃ run : LogsDao.Run,
    LogsDao.rolloverIndexJob Samples.logs_cluster ".logs" = Model.Return run
    ∧ ((2 < size matched)%nat →
       ∃ deleted kept : list string,
         LogsDao.sort_Strings (elements matched) = deleted ++ kept
         ∧ length kept = 2%nat
         ∧ LogsDao.delete_request run = Some (Bytes.Join deleted ",")
         ∧ LogsDao.indices (LogsDao.cluster run) = after ∖ list_to_set deleted
         ∧ (∀ d : string,
              d ∈ deleted → d ∈ matched ∧ d ∉ LogsDao.indices (LogsDao.cluster run))
         ∧ (∀ k : string,
              k ∈ kept → k ∈ matched ∧ k ∈ LogsDao.indices (LogsDao.cluster run))
         ∧ (∀ d k : string, d ∈ deleted → k ∈ kept → String.le d k ∧ d ≠ k))
    ∧ ((size matched ≤ 2)%nat →
       LogsDao.delete_request run = None
       ∧ LogsDao.indices (LogsDao.cluster run) = after).
Proof.
  apply (rolloverIndexJob_keeps_last_two Samples.logs_cluster ".logs" Samples.rolled).
  - reflexivity.
  - reflexivity.
  - reflexivity.
  - intros name Hname.
    unfold LogsDao.Rollover, Samples.logs_cluster, Samples.rolled in Hname.
    simpl in Hname. set_unfold in Hname.
    destruct_or!; subst name; reflexivity.
Defined.

(** C10, at the failing input. The cluster holds three indices that match
    [.logs-*] and its rollover request fails. The job logs the error of the
    request and goes on to read the fields of the response, which is nil:
    the run ends there, before the indices are listed, and the oldest of the
    three, which a run is to delete, stays. *)
Theorem rolloverIndexJob_failed_rollover :
  LogsDao.rollover_answer Samples.logs_cluster_down = None
  ∧ size (filter (λ i : string, String.prefix (".logs" +:+ "-") i = true)
            (LogsDao.indices Samples.logs_cluster_down)) = 3%nat
  ∧ LogsDao.rolloverIndexJob Samples.logs_cluster_down ".logs" = Model.Panic.
Proof.
  split; [ reflexivity | ]. split; [ vm_compute; reflexivity | reflexivity ].
Qed.

(** ** The users store *)

Section UsersFacts.
Import Model UsersDao.

Variable bcrypt : string → string → string.
Variable salt : nat → option string.
Variable adminDefaults : User.
Variable marshalUser : User → Doc + error.
Variable unmarshalUser : Doc → User + error.

(** The password [GenerateFromPassword] hands back on its [n]-th read of the
    random source: the hash, or the empty string of a nil hash. *)
Local Abbreviation hashed n password :=
  (match salt n with Some s => bcrypt password s | None => "" end).

(** A source with the two keys of the patch of [hashPasswords] set. *)
Local Abbreviation migrated source h :=
  (<["password" := VString h]> (<["password_hash_type" := VString "bcrypt"]> source)).

Local Abbreviation hash_each' := (hash_each bcrypt salt).
Local Abbreviation hashPasswords' := (hashPasswords bcrypt salt unmarshalUser).
Local Abbreviation postMasterUser' := (postMasterUser bcrypt salt adminDefaults marshalUser).
Local Abbreviation deferred' := (deferred bcrypt salt adminDefaults marshalUser).
Local Abbreviation master_admin' := (master_admin bcrypt salt adminDefaults).
Local Abbreviation newClient' :=
  (newClient bcrypt salt adminDefaults marshalUser unmarshalUser).

Lemma update_hashPatch (source : Doc) (h : string) :
  update source (hashPatch h) = migrated source h.
Proof.
  apply map_eq. intros key. unfold update, hashPatch.
  rewrite lookup_union_with.
  destruct (decide (key = "password")) as [-> | Hp].
  { rewrite lookup_insert_eq, lookup_insert_eq. by destruct (source !! "password"). }
  rewrite (lookup_insert_ne _ "password") by done.
  rewrite (lookup_insert_ne _ "password") by done.
  destruct (decide (key = "password_hash_type")) as [-> | Ht].
  { rewrite lookup_singleton_eq, lookup_insert_eq.
    by destruct (source !! "password_hash_type"). }
  rewrite lookup_singleton_ne by done. rewrite lookup_insert_ne by done.
  by destruct (source !! key).
Qed.

Lemma GenerateFromPassword_any (w : World) (password : string) :
  ∃ err : option error,
    GenerateFromPassword bcrypt salt w password
    = ((hashed (draws w) password, err), drawn w).
Proof. unfold GenerateFromPassword. destruct (salt (draws w)); by eexists. Qed.

Lemma unmarshalUsers_decoded (rawUsers : list Doc) (users : list User) :
  Forall2 (λ raw u, unmarshalUser raw = inl u) rawUsers users →
  unmarshalUsers unmarshalUser rawUsers = inl users.
Proof.
  induction 1 as [| raw u rawUsers users Hraw _ IH]; [ done | ].
  simpl. by rewrite Hraw, IH.
Qed.

(** What the hits of a search are, when the search lists the documents of
    the index: documents of the index, each under its id, no id twice, and
    all of them when the index holds no more than a page. *)
Lemma hits_documents (w : World) (docs : gmap string Doc) :
  lists_documents w →
  NoDup (hits w docs).*1
  ∧ (∀ (id : string) (source : Doc),
       (id, source) ∈ hits w docs → docs !! id = Some source)
  ∧ ((size docs ≤ defaultSize)%nat → hits w docs ≡ₚ map_to_list docs).
Proof.
  intros Hlist. specialize (Hlist docs). unfold hits. split; [ | split ].
  - rewrite fmap_take. apply (sublist_NoDup _ (listing w docs).*1).
    + rewrite Hlist. apply NoDup_fst_map_to_list.
    + apply sublist_take.
  - intros id source Hin. apply subseteq_take in Hin. rewrite Hlist in Hin.
    by apply elem_of_map_to_list in Hin.
  - intros Hsize. rewrite take_ge; [ done | ].
    rewrite Hlist, length_map_to_list. done.
Qed.

(** The loop of [hashPasswords] leaves the cluster reachable and the
    environment and the listing as they were, whether or not it ends with
    an error. *)
Lemma hash_each_frame (l : list User) (w : World) :
  reachable (hash_each' l w).2 = reachable w
  ∧ environ (hash_each' l w).2 = environ w
  ∧ listing (hash_each' l w).2 = listing w.
Proof.
  revert w. induction l as [| u l IH]; intros w; [ done | ].
  simpl. case_decide; [ apply IH | ].
  destruct (GenerateFromPassword_any w (Password u)) as [err ->].
  set (w2 := match err with
             | Some _ => log (drawn w) (logTag +:+ ": an error occurred while hashing password")
             | None => drawn w
             end).
  assert (Hw2 : reachable w2 = reachable w ∧ environ w2 = environ w
                ∧ listing w2 = listing w).
  { unfold w2. by destruct err. }
  destruct Hw2 as (Hr2 & He2 & Hl2).
  unfold patchUser.
  destruct (reachable w2) eqn:Hup; [ | simpl; repeat split; congruence ].
  destruct (users w2) as [docs |]; [ | simpl; repeat split; congruence ].
  destruct (docs !! Username u) as [source |]; [ | simpl; repeat split; congruence ].
  match goal with
  | |- context [hash_each' l ?w3] => destruct (IH w3) as (Hr3 & He3 & Hl3)
  end.
  rewrite Hr3, He3, Hl3. simpl. repeat split; congruence.
Qed.

Lemma hash_each_tagged (l : list User) (w : World) :
  Forall (λ u, PasswordHashType u ≠ "") l → hash_each' l w = (None, w).
Proof.
  induction 1 as [| u l Hu Hl IH]; [ done | ].
  simpl. by rewrite decide_True.
Qed.

(** The loop of [hashPasswords] over the users decoded from hits that are
    stored under the usernames they decode to, with a cluster that answers,
    whatever the random source does. *)
Lemma hash_each_hits (l : list (string * Doc)) (us : list User) (w : World)
    (docs : gmap string Doc) :
  reachable w = true → users w = Some docs →
  NoDup l.*1 →
  Forall2 (λ hit u, unmarshalUser hit.2 = inl u ∧ Username u = hit.1) l us →
  (∀ (id : string) (source : Doc), (id, source) ∈ l → docs !! id = Some source) →
  ∃ (w' : World) (docs' : gmap string Doc),
    hash_each' us w = (None, w')
    ∧ reachable w' = true
    ∧ users w' = Some docs'
    ∧ (∀ id : string, id ∉ l.*1 → docs' !! id = docs !! id)
    ∧ Forall2 (λ hit u,
         (PasswordHashType u ≠ "" → docs' !! hit.1 = Some hit.2)
         ∧ (PasswordHashType u = "" →
            ∃ n : nat,
              docs' !! hit.1 = Some (migrated hit.2 (hashed n (Password u))))) l us.
Proof.
  intros Hup Hdocs Hnodup Hdec. revert w docs Hup Hdocs Hnodup.
  induction Hdec as [| [id source] u l us [Hu Hname] Hdec IH];
    intros w docs Hup Hdocs Hnodup Hstored.
  { exists w, docs. by repeat split. }
  simpl in Hu, Hname. rewrite fmap_cons in Hnodup.
  apply NoDup_cons in Hnodup as [Hfresh Hnodup]. simpl in Hfresh.
  assert (Hsource : docs !! id = Some source) by (apply Hstored; left).
  simpl. destruct (decide (PasswordHashType u ≠ "")) as [Htag | Htag].
  - destruct (IH w docs Hup Hdocs Hnodup)
      as (w' & docs' & Hrun & Hup' & Hdocs' & Hout & Hin).
    { intros id' source' Hin'. apply Hstored. by right. }
    exists w', docs'. split; [ done | ]. split; [ done | ]. split; [ done | ]. split.
    + intros id' Hid'. apply Hout. intros Hin'. apply Hid'. simpl. by right.
    + constructor; [ | done ]. simpl. split; [ | done ]. intros _. by rewrite Hout.
  - assert (Htag' : PasswordHashType u = "").
    { by destruct (decide (PasswordHashType u = "")). }
    destruct (GenerateFromPassword_any w (Password u)) as [err ->].
    set (w2 := match err with
               | Some _ => log (drawn w) (logTag +:+ ": an error occurred while hashing password")
               | None => drawn w
               end).
    assert (Hw2 : reachable w2 = true ∧ users w2 = Some docs).
    { unfold w2. by destruct err. }
    destruct Hw2 as [Hup2 Hdocs2].
    unfold patchUser. rewrite Hup2, Hdocs2, Hname, Hsource, update_hashPatch.
    set (docs1 := <[id := migrated source (hashed (draws w) (Password u))]> docs).
    match goal with
    | |- context [hash_each' us ?w3] =>
      destruct (IH w3 docs1) as (w' & docs' & Hrun & Hup' & Hdocs' & Hout & Hin)
    end; [ done | done | done | | ].
    { intros id' source' Hin'. unfold docs1. rewrite lookup_insert_ne.
      - apply Hstored. by right.
      - intros <-. apply Hfresh. apply list_elem_of_fmap. by exists (id, source'). }
    exists w', docs'. split; [ done | ]. split; [ done | ]. split; [ done | ]. split.
    + intros id' Hid'. rewrite Hout.
      * unfold docs1. apply lookup_insert_ne. intros <-. apply Hid'.
        simpl. by left.
      * intros Hin'. apply Hid'. simpl. by right.
    + constructor; [ | done ]. simpl. split; [ done | ]. intros _. exists (draws w).
      rewrite Hout by done. unfold docs1. apply lookup_insert_eq.
Qed.

(** The users the hits decode to, when each hit decodes to a user of the
    name it is stored under. *)
Lemma hits_decoded (l : list (string * Doc)) :
  (∀ (id : string) (source : Doc),
     (id, source) ∈ l → ∃ u : User, unmarshalUser source = inl u ∧ Username u = id) →
  ∃ us : list User,
    Forall2 (λ hit u, unmarshalUser hit.2 = inl u ∧ Username u = hit.1) l us.
Proof.
  induction l as [| [id source] l IH]; intros Hdec; [ by exists [] | ].
  destruct (Hdec id source) as (u & Hu & Hname); [ by left | ].
  destruct IH as [us Hus]; [ intros id' source' Hin; apply Hdec; by right | ].
  exists (u :: us). by constructor.
Qed.

(** [hashPasswords] with a cluster that answers and hits that decode to
    users of the names they are stored under, whatever the random source
    does: it returns no error, and what it leaves for each document. *)
Lemma hashPasswords_any (w : World) (docs : gmap string Doc) :
  reachable w = true → users w = Some docs → lists_documents w →
  (∀ (id : string) (source : Doc),
     (id, source) ∈ hits w docs →
     ∃ u : User, unmarshalUser source = inl u ∧ Username u = id) →
  ∃ (w' : World) (docs' : gmap string Doc),
    hashPasswords' w = Return (None, w')
    ∧ reachable w' = true
    ∧ users w' = Some docs'
    ∧ listing w' = listing w
    ∧ environ w' = environ w
    ∧ (∀ id : string, id ∉ (hits w docs).*1 → docs' !! id = docs !! id)
    ∧ (∀ (id : string) (source : Doc) (u : User),
         (id, source) ∈ hits w docs → unmarshalUser source = inl u →
         (PasswordHashType u ≠ "" → docs' !! id = Some source)
         ∧ (PasswordHashType u = "" →
            ∃ n : nat, docs' !! id = Some (migrated source (hashed n (Password u))))).
Proof.
  intros Hup Hdocs Hlist Hdec.
  destruct (hits_documents w docs Hlist) as (Hnodup & Hstored & _).
  destruct (hits_decoded (hits w docs) Hdec) as [us Hus].
  destruct (hash_each_hits (hits w docs) us w docs Hup Hdocs Hnodup Hus Hstored)
    as (w' & docs' & Hrun & Hup' & Hdocs' & Hout & Hin).
  destruct (hash_each_frame us w) as (_ & Henv & Hlisting). rewrite Hrun in Henv, Hlisting.
  exists w', docs'. split.
  { unfold hashPasswords, getRawUsers. rewrite Hup, Hdocs.
    rewrite (unmarshalUsers_decoded _ us); [ by rewrite Hrun | ].
    apply Forall2_fmap_l. eapply Forall2_impl; [ exact Hus | ]. by intros hit u [? _]. }
  split; [ done | ]. split; [ done | ]. split; [ done | ]. split; [ done | ].
  split; [ done | ].
  intros id source u Hhit Hu.
  apply list_elem_of_lookup in Hhit as [i Hi].
  destruct (Forall2_lookup_l _ _ _ _ _ Hin Hi) as (u' & Hu' & Hkeep & Hmigrate).
  destruct (Forall2_lookup_l _ _ _ _ _ Hus Hi) as (u'' & Hu'' & Hdecoded & _).
  simpl in *. assert (u'' = u) as -> by congruence.
  assert (u' = u) as -> by congruence. done.
Qed.

(** C7. The migration as the code runs it. [hashPasswords] is run by
    [newClient] at startup, when the users index exists, before the deferred
    creation of the master user. With a cluster that answers and a random
    source that works, for the hits of its search, decoding to users of the
    names they are stored under, it returns without an error; every hit
    whose user carries a hash-algorithm tag keeps its source as it was;
    every hit whose user has an empty tag gets, under the key "password",
    the bcrypt hash of the password it decoded to and, under the key
    "password_hash_type", the tag "bcrypt", and keeps its other keys; the
    documents that are not among the hits are left as they were. When the
    index holds no more documents than a page, the hits are all of them. *)
Theorem hashPasswords_migrates_legacy_users (w : World) (docs : gmap string Doc) :
  reachable w = true →
  users w = Some docs →
  lists_documents w →
  (∀ n : nat, is_Some (salt n)) →
  (∀ (id : string) (source : Doc),
     (id, source) ∈ hits w docs →
     ∃ u : User, unmarshalUser source = inl u ∧ Username u = id) →
  ∃ (w' : World) (docs' : gmap string Doc),
    hashPasswords' w = Return (None, w')
    ∧ users w' = Some docs'
    ∧ (∀ (id : string) (source : Doc) (u : User),
         (id, source) ∈ hits w docs → unmarshalUser source = inl u →
         (PasswordHashType u ≠ "" → docs' !! id = Some source)
         ∧ (PasswordHashType u = "" →
            ∃ s : string,
              docs' !! id
              = Some (<["password" := VString (bcrypt (Password u) s)]>
                        (<["password_hash_type" := VString "bcrypt"]> source))))
    ∧ (∀ id : string, id ∉ (hits w docs).*1 → docs' !! id = docs !! id)
    ∧ ((size docs ≤ defaultSize)%nat →
       ∀ (id : string) (source : Doc),
         docs !! id = Some source → (id, source) ∈ hits w docs)
    ∧ (∀ url indexName mapping : string,
         newClient' w url indexName mapping
         = Return ((Some {| url := url; indexName := indexName; typeName := "_doc" |}, None),
                   deferred' w')).
Proof.
  intros Hup Hdocs Hlist Hsalt Hdec.
  destruct (hashPasswords_any w docs Hup Hdocs Hlist Hdec)
    as (w' & docs' & Hrun & _ & Hdocs' & _ & _ & Hout & Hin).
  exists w', docs'. split; [ done | ]. split; [ done | ]. split; [ | split; [ done | split ] ].
  - intros id source u Hhit Hu. destruct (Hin id source u Hhit Hu) as [Hkeep Hmigrate].
    split; [ done | ]. intros Htag. destruct (Hmigrate Htag) as [n Hn].
    destruct (Hsalt n) as [s Hs]. rewrite Hs in Hn. by exists s.
  - intros Hsize id source Hsource.
    destruct (hits_documents w docs Hlist) as (_ & _ & Hall).
    rewrite (Hall Hsize). by apply elem_of_map_to_list.
  - intros url0 indexName0 mapping0. unfold newClient. by rewrite Hup, Hdocs, Hrun.
Qed.

(** [postMasterUser] on a cluster that answers, whatever the random source
    does: the admin it builds, and what becomes of it. *)
Lemma master_admin_fields (w : World) :
  Username (master_admin' w) = master_name w
  ∧ IsAdmin (master_admin' w) = true
  ∧ PasswordHashType (master_admin' w) = "bcrypt"
  ∧ Password (master_admin' w) = hashed (draws w) (master_password w).
Proof.
  unfold master_admin, NewAdmin, GenerateFromPassword.
  by destruct (salt (draws w)).
Qed.

Lemma postMasterUser_any (w : World) :
  reachable w = true →
  match marshalUser (master_admin' w) with
  | inl body =>
    ∃ w' : World,
      postMasterUser' w = (None, w')
      ∧ users w' = Some (<[master_name w := body]> (stored w))
      ∧ reachable w' = true
  | inr _ =>
    ∃ w' : World,
      postMasterUser' w
      = (Some (Error (logTag +:+ ": error while creating a master user")), w')
      ∧ users w' = users w
  end.
Proof.
  intros Hup.
  unfold postMasterUser, master_admin, master_name, master_password, stored.
  destruct (decide (Getenv w "USERNAME" = "")) as [Hnone | Hname]; simpl.
  - destruct (GenerateFromPassword_any w "bar") as [err ->].
    unfold NewAdmin, postUser. simpl. destruct (marshalUser _) as [body | e].
    + destruct err; simpl; rewrite Hup; by eexists.
    + destruct err; simpl; by eexists.
  - destruct (GenerateFromPassword_any w (Getenv w "PASSWORD")) as [err ->].
    unfold NewAdmin, postUser. simpl. destruct (marshalUser _) as [body | e].
    + destruct err; simpl; rewrite Hup; by eexists.
    + destruct err; simpl; by eexists.
Qed.

(** [newClient] on a cluster that answers returns, and ends with the
    deferred call on a world with the cluster and the environment as they
    were. *)
Lemma newClient_returns (w : World) (url indexName mapping : string) :
  reachable w = true →
  ∃ (res : option elasticsearch * option error) (w1 : World),
    newClient' w url indexName mapping = Return (res, deferred' w1)
    ∧ reachable w1 = true
    ∧ environ w1 = environ w.
Proof.
  intros Hup. unfold newClient. rewrite Hup. simpl.
  destruct (users w) as [docs |] eqn:Hdocs.
  - unfold hashPasswords, getRawUsers. rewrite Hup, Hdocs.
    destruct (unmarshalUsers unmarshalUser (hits w docs).*2) as [us | err].
    + destruct (hash_each_frame us w) as (Hup1 & Henv1 & _).
      destruct (hash_each' us w) as [err w1]. simpl in Hup1, Henv1.
      destruct err; eexists _, w1; (split; [ reflexivity | ]); split; congruence.
    + by eexists _, w.
  - unfold getTotalNodes. rewrite Hup. by eexists _, (with_users w (Some ∅)).
Qed.


(** What is read after a write. [postUser] of a user that marshals, on a
    cluster that answers, stores its JSON body under its username:
    [getRawUser] for that name then returns the body, [getUser] returns the
    user as posted when the body decodes back to it, and every other name
    reads as before. A user that does not marshal is not sent: [postUser]
    returns false with the error of the marshalling and stores nothing; and
    on a cluster that does not answer it returns false with an error and
    stores nothing. *)
Theorem postUser_then_getUser (w : World) (u : User) :
  (∀ body : Doc,
     marshalUser u = inl body → reachable w = true →
     ∃ w' : World,
       postUser marshalUser w u = ((true, None), w')
       ∧ getRawUser w' (Username u) = (Some body, None)
       ∧ (unmarshalUser body = inl u →
          getUser unmarshalUser w' (Username u) = (Some u, None))
       ∧ ∀ name : string,
           name ≠ Username u →
           getUser unmarshalUser w' name = getUser unmarshalUser w name)
  ∧ (∀ err : error,
       marshalUser u = inr err → postUser marshalUser w u = ((false, Some err), w))
  ∧ (reachable w = false →
     ∃ e : error, postUser marshalUser w u = ((false, Some e), w)).
Proof.
  unfold postUser. split; [ | split ].
  - intros body -> Hup. rewrite Hup. eexists. split; [ reflexivity | ].
    unfold getUser, getRawUser. simpl. rewrite Hup, lookup_insert_eq.
    split; [ done | ]. split; [ intros Hdec; simpl; by rewrite Hdec | ].
    intros name Hne. rewrite lookup_insert_ne by done.
    destruct (users w) as [docs |]; simpl; [ done | by rewrite lookup_empty ].
  - by intros err ->.
  - intros Hup. rewrite Hup. destruct (marshalUser u); by eexists.
Qed.

Lemma keyed_insert (docs : gmap string Doc) (id : string) (body : Doc) :
  keyed unmarshalUser docs →
  (∀ u : User, unmarshalUser body = inl u → Username u = id) →
  keyed unmarshalUser (<[id := body]> docs).
Proof.
  intros Hkeyed Hbody id' source u Hlook Hu.
  destruct (decide (id = id')) as [<- | Hne].
  - rewrite lookup_insert_eq in Hlook. injection Hlook as <-. by apply Hbody.
  - rewrite lookup_insert_ne in Hlook by done. by apply (Hkeyed id' source).
Qed.

Lemma keyed_delete (docs : gmap string Doc) (name : string) :
  keyed unmarshalUser docs → keyed unmarshalUser (delete name docs).
Proof.
  intros Hkeyed id source u Hlook Hu. apply lookup_delete_Some in Hlook as [_ Hlook].
  by apply (Hkeyed id source).
Qed.

(** Which writes keep every document that decodes stored under the username
    it decodes to. With a decoder that gives a marshalled user its username
    back, and a document with the two keys of the hash patch set the
    username it had: [postUser], [deleteUser], [hashPasswords],
    [postMasterUser] and [newClient] keep it. [patchUser], whose patch can
    hold any key, keeps it exactly when the patched document decodes to no
    other username than its id. *)
Theorem users_store_keeps_documents_keyed (w : World) :
  keyed unmarshalUser (stored w) →
  lists_documents w →
  (∀ (u u' : User) (body : Doc),
     marshalUser u = inl body → unmarshalUser body = inl u' → Username u' = Username u) →
  (∀ (source : Doc) (h : string) (u u' : User),
     unmarshalUser source = inl u → unmarshalUser (migrated source h) = inl u' →
     Username u' = Username u) →
  (∀ u : User, keyed unmarshalUser (stored (postUser marshalUser w u).2))
  ∧ (∀ name : string, keyed unmarshalUser (stored (deleteUser w name).2))
  ∧ (∀ (err : option error) (w' : World),
       hashPasswords' w = Return (err, w') → keyed unmarshalUser (stored w'))
  ∧ keyed unmarshalUser (stored (postMasterUser' w).2)
  ∧ (∀ (url indexName mapping : string)
       (res : option elasticsearch * option error) (w' : World),
       newClient' w url indexName mapping = Return (res, w') →
       keyed unmarshalUser (stored w'))
  ∧ (∀ (name : string) (patch source : Doc),
       reachable w = true →
       stored w !! name = Some source →
       keyed unmarshalUser (stored (patchUser w name patch).2)
       ↔ ∀ u' : User, unmarshalUser (update source patch) = inl u' → Username u' = name).
Proof.
  intros Hkeyed Hlist Hround Hpatch.
  assert (Hpost : ∀ (w0 : World) (u : User),
            keyed unmarshalUser (stored w0) →
            keyed unmarshalUser (stored (postUser marshalUser w0 u).2)).
  { intros w0 u H0. unfold postUser.
    destruct (marshalUser u) as [body | e] eqn:Hbody; [ | done ].
    destruct (reachable w0); [ | done ].
    unfold stored in *. simpl. apply keyed_insert; [ done | ].
    intros u' Hu'. by apply (Hround u u' body). }
  assert (Hmaster : ∀ w0 : World,
            keyed unmarshalUser (stored w0) →
            keyed unmarshalUser (stored (postMasterUser' w0).2)).
  { intros w0 H0. unfold postMasterUser.
    destruct (decide (Getenv w0 "USERNAME" = "")); simpl.
    - destruct (GenerateFromPassword_any w0 "bar") as [err ->].
      unfold NewAdmin.
      match goal with
      | |- context [postUser marshalUser ?w1 ?a] =>
        assert (H1 : keyed unmarshalUser (stored (postUser marshalUser w1 a).2))
          by (apply Hpost; by destruct err);
        destruct (postUser marshalUser w1 a) as [[[|] [pe |]] w2]; exact H1
      end.
    - destruct (GenerateFromPassword_any w0 (Getenv w0 "PASSWORD")) as [err ->].
      unfold NewAdmin.
      match goal with
      | |- context [postUser marshalUser ?w1 ?a] =>
        assert (H1 : keyed unmarshalUser (stored (postUser marshalUser w1 a).2))
          by (apply Hpost; by destruct err);
        destruct (postUser marshalUser w1 a) as [[[|] [pe |]] w2]; exact H1
      end. }
  assert (Hdeferred : ∀ w0 : World,
            keyed unmarshalUser (stored w0) → keyed unmarshalUser (stored (deferred' w0))).
  { intros w0 H0. unfold deferred. specialize (Hmaster w0 H0).
    by destruct (postMasterUser' w0) as [[[msg] |] w1]. }
  assert (Hhash : ∀ (err : option error) (w' : World),
            hashPasswords' w = Return (err, w') → keyed unmarshalUser (stored w')).
  { intros err w'. unfold hashPasswords, getRawUsers.
    destruct (reachable w) eqn:Hup; [ | done ].
    destruct (users w) as [docs |] eqn:Hdocs; [ | done ].
    destruct (unmarshalUsers unmarshalUser (hits w docs).*2) as [us | e] eqn:Hus;
      [ | by intros [= _ <-] ].
    destruct (hits_documents w docs Hlist) as (Hnodup & Hstored & _).
    unfold stored in Hkeyed. rewrite Hdocs in Hkeyed. simpl in Hkeyed.
    assert (Hdec : Forall2 (λ hit u, unmarshalUser hit.2 = inl u ∧ Username u = hit.1)
                     (hits w docs) us).
    { clear Hnodup. revert us Hus Hstored.
      induction (hits w docs) as [| [id source] l IH]; intros us Hus Hstored.
      - injection Hus as <-. constructor.
      - rewrite fmap_cons in Hus. cbn [unmarshalUsers snd] in Hus.
        destruct (unmarshalUser source) as [u | e] eqn:Hu; [ | done ].
        destruct (unmarshalUsers unmarshalUser l.*2) as [us' | e]; [ | done ].
        injection Hus as <-. constructor.
        + split; [ done | ]. simpl. apply (Hkeyed id source u); [ | done ].
          apply Hstored. by left.
        + apply IH; [ done | ]. intros id' source' Hin. apply Hstored. by right. }
    destruct (hash_each_hits (hits w docs) us w docs Hup Hdocs Hnodup Hdec Hstored)
      as (w1 & docs1 & Hrun & _ & Hdocs1 & Hout & Hin).
    rewrite Hrun. intros [= _ <-]. unfold stored. rewrite Hdocs1. simpl.
    intros id source' u' Hlook Hu'.
    destruct (decide (id ∈ (hits w docs).*1)) as [Hhit | Hmiss].
    - apply list_elem_of_fmap in Hhit as ([id0 source] & -> & Hhit). simpl in *.
      apply list_elem_of_lookup in Hhit as [i Hi].
      destruct (Forall2_lookup_l _ _ _ _ _ Hin Hi) as (u & Hu & Hkeep & Hmigrate).
      destruct (Forall2_lookup_l _ _ _ _ _ Hdec Hi) as (u0 & Hu0 & Hdecoded & Hname).
      simpl in *. assert (u0 = u) as -> by congruence.
      destruct (decide (PasswordHashType u = "")) as [Htag | Htag].
      + destruct (Hmigrate Htag) as [n Hn]. rewrite Hn in Hlook. injection Hlook as <-.
        rewrite <- Hname. eapply (Hpatch source _ u u'); [ exact Hdecoded | exact Hu' ].
      + rewrite (Hkeep Htag) in Hlook. injection Hlook as <-. congruence.
    - rewrite (Hout id Hmiss) in Hlook. by apply (Hkeyed id source'). }
  split; [ intros u; by apply Hpost | ].
  split.
  { intros name. unfold deleteUser. destruct (reachable w); [ | done ].
    destruct (users w) as [docs |] eqn:Hdocs; [ | done ].
    destruct (docs !! name); [ | done ].
    unfold stored in *. rewrite Hdocs in Hkeyed. simpl in *. by apply keyed_delete. }
  split; [ exact Hhash | ]. split; [ by apply Hmaster | ]. split.
  - intros url0 indexName0 mapping0 res w'. unfold newClient.
    destruct (reachable w) eqn:Hup; simpl; [ | by intros [= _ <-] ].
    destruct (users w) as [docs |] eqn:Hdocs.
    + destruct (hashPasswords' w) as [[[e |] w1] |] eqn:Hrun; [ | | done ].
      * intros [= _ <-]. apply Hdeferred. by apply (Hhash (Some e)).
      * intros [= _ <-]. apply Hdeferred. by apply (Hhash None).
    + unfold getTotalNodes. rewrite Hup. intros [= _ <-]. apply Hdeferred.
      unfold stored. simpl. intros id source u Hlook. by rewrite lookup_empty in Hlook.
  - intros name patch source Hup Hsource. unfold patchUser, stored in *. rewrite Hup.
    destruct (users w) as [docs |] eqn:Hdocs;
      [ | simpl in Hsource; by rewrite lookup_empty in Hsource ].
    simpl in *. rewrite Hsource. simpl. split.
    + intros Hkept u' Hu'.
      apply (Hkept name (update source patch) u'); [ apply lookup_insert_eq | done ].
    + intros Hname. by apply keyed_insert.
Qed.

(** [deleteUser] reports true only for a document that was there; after it
    [getUser] for that name is the not-found error and every other name
    reads as before. For a name with no document on a cluster that answers
    it reports false with the not-found error and changes nothing. *)
Theorem deleteUser_removes_only_that_user (w : World) (name : string) :
  (∀ w' : World,
     deleteUser w name = ((true, None), w') →
     is_Some (stored w !! name)
     ∧ getUser unmarshalUser w' name = (None, Some not_found)
     ∧ ∀ other : string,
         other ≠ name → getUser unmarshalUser w' other = getUser unmarshalUser w other)
  ∧ (reachable w = true → stored w !! name = None →
     deleteUser w name = ((false, Some not_found), w)).
Proof.
  unfold deleteUser, getUser, getRawUser, stored. split.
  - intros w'. destruct (reachable w) eqn:Hup; [ | done ].
    destruct (users w) as [docs |] eqn:Hdocs; [ | done ].
    destruct (docs !! name) as [u |] eqn:Hu; [ | done ].
    intros [= <-]. simpl. rewrite Hup, lookup_delete_eq.
    split; [ by eexists | ]. split; [ done | ].
    intros other Hne. by rewrite lookup_delete_ne.
  - intros -> Hnone. destruct (users w) as [docs |]; [ | done ].
    simpl in Hnone. by rewrite Hnone.
Qed.

(** A list of sources that decode to users with a hash-algorithm tag
    decodes, to such users. *)
Lemma unmarshalUsers_tagged (rawUsers : list Doc) :
  Forall (λ raw, ∃ u : User, unmarshalUser raw = inl u ∧ PasswordHashType u ≠ "")
         rawUsers →
  ∃ us : list User,
    unmarshalUsers unmarshalUser rawUsers = inl us
    ∧ Forall (λ u, PasswordHashType u ≠ "") us.
Proof.
  induction 1 as [| raw rawUsers (u & Hu & Htag) _ (us & Hus & Htags)].
  - by exists [].
  - exists (u :: us). simpl. rewrite Hu, Hus. split; [ done | by constructor ].
Qed.

(** Running the migration again changes nothing, when the index holds no
    more users than a search returns. After a run of [hashPasswords] on a
    cluster that answers, with hits that decode to users of the names they
    are stored under, and a decoder that finds a tag in a document on which
    the hash patch has set one, a second run returns no error and leaves
    the world exactly as the first run left it: no document is rewritten,
    nothing is read from the random source, nothing is logged. This holds
    whether or not the random source works. *)
Theorem hashPasswords_twice (w : World) (docs : gmap string Doc) :
  reachable w = true →
  users w = Some docs →
  lists_documents w →
  (size docs ≤ defaultSize)%nat →
  (∀ (id : string) (source : Doc),
     docs !! id = Some source →
     ∃ u : User,
       unmarshalUser source = inl u ∧ Username u = id
       ∧ ∀ h : string,
           ∃ u' : User,
             unmarshalUser (migrated source h) = inl u' ∧ PasswordHashType u' ≠ "") →
  ∃ w1 : World,
    hashPasswords' w = Return (None, w1)
    ∧ hashPasswords' w1 = Return (None, w1).
Proof.
  intros Hup Hdocs Hlist Hsize Hdec.
  destruct (hits_documents w docs Hlist) as (_ & Hstored & Hall).
  specialize (Hall Hsize).
  destruct (hashPasswords_any w docs Hup Hdocs Hlist)
    as (w1 & docs1 & Hrun & Hup1 & Hdocs1 & Hlisting & _ & Hout & Hin).
  { intros id source Hhit. destruct (Hdec id source (Hstored id source Hhit))
      as (u & Hu & Hname & _). by exists u. }
  exists w1. split; [ done | ].
  unfold hashPasswords, getRawUsers. rewrite Hup1, Hdocs1.
  destruct (unmarshalUsers_tagged (hits w1 docs1).*2) as (us & -> & Htagged).
  - apply Forall_fmap, Forall_forall. intros [id source1] Hhit1. simpl.
    assert (Hlist1 : lists_documents w1).
    { intros docs0. rewrite Hlisting. apply Hlist. }
    destruct (hits_documents w1 docs1 Hlist1) as (_ & Hstored1 & _).
    apply Hstored1 in Hhit1.
    destruct (docs !! id) as [source |] eqn:Hsource.
    + destruct (Hdec id source Hsource) as (u & Hu & Hname & Hafter).
      assert (Hhit : (id, source) ∈ hits w docs).
      { rewrite Hall. by apply elem_of_map_to_list. }
      destruct (Hin id source u Hhit Hu) as [Hkeep Hmigrate].
      destruct (decide (PasswordHashType u = "")) as [Htag | Htag].
      * destruct (Hmigrate Htag) as [n Hn]. rewrite Hn in Hhit1. injection Hhit1 as <-.
        apply Hafter.
      * rewrite (Hkeep Htag) in Hhit1. injection Hhit1 as <-. by exists u.
    + rewrite Hout in Hhit1; [ congruence | ].
      intros Hid. apply list_elem_of_fmap in Hid as ([id0 source0] & -> & Hhit0).
      apply Hstored in Hhit0. simpl in Hsource. congruence.
  - by rewrite hash_each_tagged.
Qed.

(** When the random source fails, [hashPasswords] does not stop and does
    not report it: it returns no error, and every hit of its search whose
    user has no hash-algorithm tag is left with the empty string under the
    key "password" and the tag "bcrypt" under the key "password_hash_type";
    the hits with a tag keep their sources. *)
Theorem hashPasswords_without_entropy (w : World) (docs : gmap string Doc) :
  reachable w = true →
  users w = Some docs →
  lists_documents w →
  (∀ (id : string) (source : Doc),
     (id, source) ∈ hits w docs →
     ∃ u : User, unmarshalUser source = inl u ∧ Username u = id) →
  (∀ n : nat, salt n = None) →
  ∃ (w' : World) (docs' : gmap string Doc),
    hashPasswords' w = Return (None, w')
    ∧ users w' = Some docs'
    ∧ ∀ (id : string) (source : Doc) (u : User),
        (id, source) ∈ hits w docs → unmarshalUser source = inl u →
        (PasswordHashType u ≠ "" → docs' !! id = Some source)
        ∧ (PasswordHashType u = "" →
           docs' !! id
           = Some (<["password" := VString ""]>
                     (<["password_hash_type" := VString "bcrypt"]> source))).
Proof.
  intros Hup Hdocs Hlist Hdec Hdry.
  destruct (hashPasswords_any w docs Hup Hdocs Hlist Hdec)
    as (w' & docs' & Hrun & _ & Hdocs' & _ & _ & _ & Hin).
  exists w', docs'. split; [ done | ]. split; [ done | ].
  intros id source u Hhit Hu. destruct (Hin id source u Hhit Hu) as [Hkeep Hmigrate].
  split; [ done | ]. intros Htag. destruct (Hmigrate Htag) as [n Hn].
  by rewrite Hdry in Hn.
Qed.


End UsersFacts.

Lemma salt_always : ∀ n : nat, is_Some (Samples.salt n).
Proof. intros n. by exists "N9qo8uLOickgx2ZMRZoMye". Defined.

Lemma users_world_lists : UsersDao.lists_documents Samples.users_world.
Proof. intros docs. reflexivity. Defined.

(** The two hits of the sample index decode to users of the names they are
    stored under. *)
Lemma user_docs_decode (id : string) (source : UsersDao.Doc) :
  (id, source) ∈ UsersDao.hits Samples.users_world Samples.user_docs →
  ∃ u : Model.User, Samples.docUser source = inl u ∧ Model.Username u = id.
Proof.
  intros Hin.
  assert (Hall : Forall (λ hit, ∃ u : Model.User,
                           Samples.docUser hit.2 = inl u ∧ Model.Username u = hit.1)
                   (UsersDao.hits Samples.users_world Samples.user_docs)).
  { set (l := UsersDao.hits Samples.users_world Samples.user_docs).
    vm_compute in l. subst l.
    repeat constructor; eexists; (split; [ vm_compute; reflexivity | reflexivity ]). }
  rewrite Forall_forall in Hall. exact (Hall (id, source) Hin).
Defined.

Lemma hashPasswords_migrates_legacy_users_witness :
  ∃ (w' : UsersDao.World) (docs' : gmap string UsersDao.Doc),
    UsersDao.hashPasswords Samples.bcrypt Samples.salt Samples.docUser Samples.users_world
      = Model.Return (None, w')
    ∧ UsersDao.users w' = Some docs'
    ∧ (∀ (id : string) (source : UsersDao.Doc) (u : Model.User),
         (id, source) ∈ UsersDao.hits Samples.users_world Samples.user_docs →
         Samples.docUser source = inl u →
         (Model.PasswordHashType u ≠ "" → docs' !! id = Some source)
         ∧ (Model.PasswordHashType u = "" →
            ∃ s : string,
              docs' !! id
              = Some (<["password" :=
                          UsersDao.VString (Samples.bcrypt (Model.Password u) s)]>
                        (<["password_hash_type" := UsersDao.VString "bcrypt"]> source))))
    ∧ (∀ id : string,
         id ∉ (UsersDao.hits Samples.users_world Samples.user_docs).*1 →
         docs' !! id = Samples.user_docs !! id)
    ∧ ((size Samples.user_docs ≤ UsersDao.defaultSize)%nat →
       ∀ (id : string) (source : UsersDao.Doc),
         Samples.user_docs !! id = Some source →
         (id, source) ∈ UsersDao.hits Samples.users_world Samples.user_docs)
    ∧ (∀ url indexName mapping : string,
         UsersDao.newClient Samples.bcrypt Samples.salt Samples.adminDefaults
           Samples.userDoc Samples.docUser Samples.users_world url indexName mapping
         = Model.Return
             ((Some {| UsersDao.url := url; UsersDao.indexName := indexName;
                       UsersDao.typeName := "_doc" |}, None),
              UsersDao.deferred Samples.bcrypt Samples.salt Samples.adminDefaults
                Samples.userDoc w')).
Proof.
  apply (hashPasswords_migrates_legacy_users Samples.bcrypt Samples.salt
           Samples.adminDefaults Samples.userDoc Samples.docUser
           Samples.users_world Samples.user_docs).
  - reflexivity.
  - reflexivity.
  - exact users_world_lists.
  - exact salt_always.
  - exact user_docs_decode.
Defined.

(** C7, as stated, fails on the code. Looking a legacy user up does not
    migrate it: [getUser] returns the record with its empty tag and the
    plaintext password, and the source stays as it was; it is [newClient]
    that runs the migration, at startup. And of eleven legacy users a run of
    [hashPasswords] migrates the ten its search returns: the eleventh keeps
    its plaintext password and its empty tag. *)
Lemma hashPasswords_lazy_migration_counterexample :
  (UsersDao.getUser Samples.docUser Samples.users_world "alice" = (Some Samples.alice, None)
   ∧ Model.PasswordHashType Samples.alice = ""
   ∧ Model.Password Samples.alice = "wonderland"
   ∧ UsersDao.stored Samples.users_world !! "alice" = Some Samples.alice_doc)
  ∧ (UsersDao.hashPasswords Samples.bcrypt Samples.salt Samples.docUser
       Samples.crowded_world = Model.Return (None, Samples.crowd_migrated)
     ∧ size Samples.crowd = 11%nat
     ∧ Samples.crowd !! "u00" = Some (Samples.source "u00" "secret" "" false)
     ∧ Samples.docUser (Samples.source "u00" "secret" "" false)
       = inl (Samples.plain "u00" "secret" "" false)
     ∧ Model.PasswordHashType (Samples.plain "u00" "secret" "" false) = ""
     ∧ UsersDao.stored Samples.crowd_migrated !! "u00"
       = Some (Samples.source "u00" "secret" "" false)).
Proof.
  split.
  - split; [ vm_compute; reflexivity | ]. split; [ reflexivity | ].
    split; [ reflexivity | vm_compute; reflexivity ].
  - split; [ vm_compute; reflexivity | ].
    split; [ vm_compute; reflexivity | ].
    split; [ vm_compute; reflexivity | ].
    split; [ vm_compute; reflexivity | ].
    split; [ reflexivity | ].
    vm_compute. reflexivity.
Qed.



Lemma user_docs_keyed : UsersDao.keyed Samples.docUser (UsersDao.stored Samples.users_world).
Proof.
  intros id source u Hlook. revert u. revert id source Hlook.
  change (map_Forall (λ id source,
            ∀ u : Model.User, Samples.docUser source = inl u → Model.Username u = id)
            Samples.user_docs).
  unfold Samples.user_docs.
  apply map_Forall_insert_2; [ intros u Hu; vm_compute in Hu; by injection Hu as <- | ].
  apply map_Forall_insert_2; [ intros u Hu; vm_compute in Hu; by injection Hu as <- | ].
  apply map_Forall_empty.
Defined.

(** The stand-in decoder gives a marshalled user its username back, and
    reads the username a document had after the hash patch. *)
Lemma docUser_round (u u' : Model.User) (body : UsersDao.Doc) :
  Samples.userDoc u = inl body → Samples.docUser body = inl u' →
  Model.Username u' = Model.Username u.
Proof.
  unfold Samples.userDoc. destruct (forallb Samples.marshals (Model.Ops u)); [ | done ].
  intros [= <-]. unfold Samples.docUser, Samples.text, Samples.flag.
  rewrite lookup_insert_eq.
  repeat case_match; try done. by intros [= <-].
Defined.

Lemma docUser_patched (source : UsersDao.Doc) (h : string) (u u' : Model.User) :
  Samples.docUser source = inl u →
  Samples.docUser (<["password" := UsersDao.VString h]>
                     (<["password_hash_type" := UsersDao.VString "bcrypt"]> source))
  = inl u' →
  Model.Username u' = Model.Username u.
Proof.
  unfold Samples.docUser, Samples.text, Samples.flag.
  rewrite lookup_insert_eq.
  rewrite !(lookup_insert_ne _ "password") by done.
  rewrite lookup_insert_eq.
  rewrite !(lookup_insert_ne _ "password_hash_type") by done.
  destruct (source !! "username") as [[] |]; try done;
    destruct (source !! "password") as [[] |]; try done;
    destruct (source !! "password_hash_type") as [[] |]; try done;
    destruct (source !! "is_admin") as [[] |]; try done;
    by intros [= <-] [= <-].
Defined.

Lemma postUser_then_getUser_witness :
  (∃ w' : UsersDao.World,
     UsersDao.postUser Samples.userDoc Samples.users_world Samples.alice2
     = ((true, None), w')
     ∧ UsersDao.getRawUser w' (Model.Username Samples.alice2)
       = (Some (Samples.source "alice" "$2a$10$zzzzzzzzzzzzzzzzzzzzzz.looking-glass"
                  "bcrypt" true), None)
     ∧ (Samples.docUser
          (Samples.source "alice" "$2a$10$zzzzzzzzzzzzzzzzzzzzzz.looking-glass"
             "bcrypt" true) = inl Samples.alice2 →
        UsersDao.getUser Samples.docUser w' (Model.Username Samples.alice2)
        = (Some Samples.alice2, None))
     ∧ ∀ name : string,
         name ≠ Model.Username Samples.alice2 →
         UsersDao.getUser Samples.docUser w' name
         = UsersDao.getUser Samples.docUser Samples.users_world name)
  ∧ UsersDao.postUser Samples.userDoc Samples.users_world Samples.mallory
    = ((false, Some (Error "json: error calling MarshalJSON for type op.Operation")),
       Samples.users_world).
Proof.
  split.
  - apply (proj1 (postUser_then_getUser Samples.userDoc Samples.docUser
                    Samples.users_world Samples.alice2)).
    + vm_compute. reflexivity.
    + reflexivity.
  - apply (proj1 (proj2 (postUser_then_getUser Samples.userDoc Samples.docUser
                           Samples.users_world Samples.mallory))).
    vm_compute. reflexivity.
Defined.

Lemma users_store_keeps_documents_keyed_witness :
  UsersDao.keyed Samples.docUser
    (UsersDao.stored (UsersDao.postUser Samples.userDoc Samples.users_world
                        Samples.alice2).2)
  ∧ UsersDao.keyed Samples.docUser
      (UsersDao.stored (UsersDao.deleteUser Samples.users_world "bob").2).
Proof.
  destruct (users_store_keeps_documents_keyed Samples.bcrypt Samples.salt
              Samples.adminDefaults Samples.userDoc Samples.docUser Samples.users_world
              user_docs_keyed users_world_lists docUser_round docUser_patched)
    as (Hpost & Hdelete & _).
  split; [ apply Hpost | apply Hdelete ].
Defined.

Lemma deleteUser_removes_only_that_user_witness :
  (is_Some (UsersDao.stored Samples.users_world !! "bob")
   ∧ UsersDao.getUser Samples.docUser (UsersDao.deleteUser Samples.users_world "bob").2 "bob"
     = (None, Some UsersDao.not_found)
   ∧ ∀ other : string,
       other ≠ "bob" →
       UsersDao.getUser Samples.docUser (UsersDao.deleteUser Samples.users_world "bob").2
         other
       = UsersDao.getUser Samples.docUser Samples.users_world other)
  ∧ UsersDao.deleteUser Samples.users_world "carol"
    = ((false, Some UsersDao.not_found), Samples.users_world).
Proof.
  split.
  - apply (proj1 (deleteUser_removes_only_that_user Samples.docUser
                    Samples.users_world "bob")).
    vm_compute. reflexivity.
  - apply (proj2 (deleteUser_removes_only_that_user Samples.docUser
                    Samples.users_world "carol")).
    + reflexivity.
    + vm_compute. reflexivity.
Defined.

(** Each document of the sample index decodes to a user of its id, and to a
    user with a tag once the hash patch is applied. *)
Lemma user_docs_migrate (id : string) (source : UsersDao.Doc) :
  Samples.user_docs !! id = Some source →
  ∃ u : Model.User,
    Samples.docUser source = inl u ∧ Model.Username u = id
    ∧ ∀ h : string,
        ∃ u' : Model.User,
          Samples.docUser (<["password" := UsersDao.VString h]>
                             (<["password_hash_type" := UsersDao.VString "bcrypt"]> source))
          = inl u'
          ∧ Model.PasswordHashType u' ≠ "".
Proof.
  revert id source.
  change (map_Forall (λ id source,
            ∃ u : Model.User,
              Samples.docUser source = inl u ∧ Model.Username u = id
              ∧ ∀ h : string,
                  ∃ u' : Model.User,
                    Samples.docUser
                      (<["password" := UsersDao.VString h]>
                         (<["password_hash_type" := UsersDao.VString "bcrypt"]> source))
                    = inl u'
                    ∧ Model.PasswordHashType u' ≠ "")
            Samples.user_docs).
  unfold Samples.user_docs.
  apply map_Forall_insert_2.
  { eexists. split; [ vm_compute; reflexivity | ]. split; [ reflexivity | ].
    intros h. eexists. split; [ vm_compute; reflexivity | done ]. }
  apply map_Forall_insert_2.
  { eexists. split; [ vm_compute; reflexivity | ]. split; [ reflexivity | ].
    intros h. eexists. split; [ vm_compute; reflexivity | done ]. }
  apply map_Forall_empty.
Defined.

Lemma hashPasswords_twice_witness :
  ∃ w1 : UsersDao.World,
    UsersDao.hashPasswords Samples.bcrypt Samples.salt Samples.docUser Samples.users_world
    = Model.Return (None, w1)
    ∧ UsersDao.hashPasswords Samples.bcrypt Samples.salt Samples.docUser w1
      = Model.Return (None, w1).
Proof.
  apply (hashPasswords_twice Samples.bcrypt Samples.salt Samples.docUser
           Samples.users_world Samples.user_docs).
  - reflexivity.
  - reflexivity.
  - exact users_world_lists.
  - vm_compute. repeat constructor.
  - exact user_docs_migrate.
Defined.

Lemma hashPasswords_without_entropy_witness :
  ∃ (w' : UsersDao.World) (docs' : gmap string UsersDao.Doc),
    UsersDao.hashPasswords Samples.bcrypt Samples.no_salt Samples.docUser
      Samples.users_world = Model.Return (None, w')
    ∧ UsersDao.users w' = Some docs'
    ∧ ∀ (id : string) (source : UsersDao.Doc) (u : Model.User),
        (id, source) ∈ UsersDao.hits Samples.users_world Samples.user_docs →
        Samples.docUser source = inl u →
        (Model.PasswordHashType u ≠ "" → docs' !! id = Some source)
        ∧ (Model.PasswordHashType u = "" →
           docs' !! id
           = Some (<["password" := UsersDao.VString ""]>
                     (<["password_hash_type" := UsersDao.VString "bcrypt"]> source))).
Proof.
  apply (hashPasswords_without_entropy Samples.bcrypt Samples.no_salt Samples.docUser
           Samples.users_world Samples.user_docs).
  - reflexivity.
  - reflexivity.
  - exact users_world_lists.
  - exact user_docs_decode.
  - intros n. reflexivity.
Defined.


(** ** More on the credential store *)

Section CredentialStoreFacts.
Import Model AuthDao.

Variable marshalUser : User → string.
Variable marshalPermission : Permission → string.
Variable unmarshalUser : string → User + error.
Variable unmarshalPermission : string → Permission + error.

Local Abbreviation lookup es username :=
  (getCredential unmarshalUser unmarshalPermission es username).

Lemma getCredential_one (es : elasticsearch) (username : string) (d : Doc) :
  reachable (client es) = true →
  matching (client es) [userIndex es; permissionIndex es] username = [d] →
  lookup es username
  = match visit unmarshalUser unmarshalPermission es None
            {| Index := doc_index d; Source := doc_source d |} with
    | Panic => Panic
    | Return (inr err) => Return (None, Some err)
    | Return (inl obj) => Return (obj, None)
    end.
Proof.
  intros Hup Hone. unfold getCredential, Search. rewrite Hup, Hone. simpl.
  by destruct (visit unmarshalUser unmarshalPermission es None _) as [[obj | err] |].
Qed.

(** [getCredential] never returns a credential together with an error, and
    it returns a credential only when the search succeeded and exactly one
    record is bound to the username. *)
Theorem getCredential_credential_or_error (es : elasticsearch) (username : string)
    (obj : option AuthCredential) (err : option error) :
  lookup es username = Return (obj, err) →
  (obj = None ∨ err = None)
  ∧ (is_Some obj →
     err = None
     ∧ reachable (client es) = true
     ∧ length (matching (client es) [userIndex es; permissionIndex es] username) = 1%nat).
Proof.
  destruct (reachable (client es)) eqn:Hup.
  - destruct (matching (client es) [userIndex es; permissionIndex es] username)
      as [| d [| d' rest]] eqn:Hmatch.
    + unfold getCredential, Search. rewrite Hup, Hmatch. simpl.
      intros [= <- <-]. split; [ by left | ]. by intros [? [=]].
    + rewrite (getCredential_one es username d Hup Hmatch).
      unfold visit. simpl.
      repeat (case_decide || case_match); intros [= <- <-];
        (split; [ by (left + right) | ]); try (by intros [? [=]]); done.
    + unfold getCredential, Search. rewrite Hup, Hmatch. simpl.
      intros [= <- <-]. split; [ by left | ]. by intros [? [=]].
  - unfold getCredential, Search. rewrite Hup.
    intros [= <- <-]. split; [ by left | ]. by intros [? [=]].
Qed.

(** With exactly one record bound to the username, the index of the record
    decides what [getCredential] returns: for a record of the user index the
    user its source decodes to (nothing, and no error, when the hit carries
    no source); for a record of the permission index the permission its
    source decodes to, and a nil dereference when the hit carries no source;
    a source that does not decode gives the decoder's error. A record whose
    index is the user index is read as a user even when the permission index
    bears the same name. *)
Theorem getCredential_single_match (es : elasticsearch) (username : string) (d : Doc) :
  reachable (client es) = true →
  matching (client es) [userIndex es; permissionIndex es] username = [d] →
  lookup es username
  = if decide (doc_index d = userIndex es) then
      match doc_source d with
      | None => Return (None, None)
      | Some src =>
        match unmarshalUser src with
        | inl u => Return (Some (CredUser u), None)
        | inr e => Return (None, Some e)
        end
      end
    else
      match doc_source d with
      | None => Panic
      | Some src =>
        match unmarshalPermission src with
        | inl p => Return (Some (CredPermission p), None)
        | inr e => Return (None, Some e)
        end
      end.
Proof.
  intros Hup Hone. rewrite (getCredential_one es username d Hup Hone).
  assert (Hin : d ∈ matching (client es) [userIndex es; permissionIndex es] username).
  { rewrite Hone. by left. }
  unfold matching in Hin. apply list_elem_of_filter in Hin as [[Hidx _] _].
  unfold visit. simpl.
  destruct (decide (doc_index d = userIndex es)) as [Huser | Huser].
  - destruct (doc_source d) as [src |]; [ | done ]. by destruct (unmarshalUser src).
  - assert (Hperm : doc_index d = permissionIndex es).
    { apply elem_of_cons in Hidx as [Hidx | Hidx]; [ done | ].
      by apply list_elem_of_singleton in Hidx. }
    rewrite decide_True by done.
    destruct (doc_source d) as [src |]; [ | done ]. by destruct (unmarshalPermission src).
Qed.


End CredentialStoreFacts.


Lemma getCredential_credential_or_error_witness :
  (Some (Model.CredUser Samples.bare_bob) = None ∨ @None error = None)
  ∧ (is_Some (Some (Model.CredUser Samples.bare_bob)) →
     @None error = None
     ∧ AuthDao.reachable (AuthDao.client Samples.es_single) = true
     ∧ length (AuthDao.matching (AuthDao.client Samples.es_single)
                 [AuthDao.userIndex Samples.es_single;
                  AuthDao.permissionIndex Samples.es_single] "bob") = 1%nat).
Proof.
  apply (getCredential_credential_or_error Samples.unmarshalUser
           Samples.unmarshalPermission Samples.es_single "bob").
  vm_compute. reflexivity.
Defined.

Lemma getCredential_single_match_witness :
  AuthDao.getCredential Samples.unmarshalUser Samples.unmarshalPermission
    Samples.es_single "bob"
  = Model.Return (Some (Model.CredUser Samples.bare_bob), None).
Proof.
  rewrite (getCredential_single_match Samples.unmarshalUser Samples.unmarshalPermission
             Samples.es_single "bob" Samples.bob_doc).
  - vm_compute. reflexivity.
  - reflexivity.
  - vm_compute. reflexivity.
Defined.



(** ** More on the rollover job *)

Section RolloverRuns.
Import Model LogsDao.

Local Abbreviation matches alias := (λ i : string, String.prefix (alias +:+ "-") i = true).

Lemma Rollover_answered (c : Cluster) (resp : RolloverResponse) :
  rollover_answer c = Some resp →
  Rollover c = (Some resp, (Rollover c).2)
  ∧ cat_fails (Rollover c).2 = cat_fails c
  ∧ delete_fails (Rollover c).2 = delete_fails c
  ∧ indices (Rollover c).2
    = (if RolledOver resp then {[ NewIndex resp ]} ∪ indices c else indices c).
Proof. intros Hresp. unfold Rollover. by rewrite Hresp. Qed.

Lemma rolloverIndexJob_few (c : Cluster) (alias : string) (resp : RolloverResponse) :
  rollover_answer c = Some resp →
  (size (filter (matches alias) (indices (Rollover c).2)) ≤ 2)%nat →
  ∃ run : Run,
    rolloverIndexJob c alias = Return run
    ∧ delete_request run = None
    ∧ cluster run = (Rollover c).2.
Proof.
  intros Hresp Hfew.
  destruct (Rollover_answered c resp Hresp) as (Hroll & _).
  unfold rolloverIndexJob. rewrite Hroll. set (c1 := (Rollover c).2) in *.
  assert (Hrows : (length (CatIndices c1 alias) ≤ 2)%nat).
  { unfold CatIndices. destruct (cat_fails c1); [ simpl; lia | done ]. }
  rewrite decide_False by lia. by eexists.
Qed.

Lemma rolloverIndexJob_many (c : Cluster) (alias : string) (resp : RolloverResponse) :
  rollover_answer c = Some resp →
  cat_fails c = false →
  delete_fails c = false →
  (∀ name : string, name ∈ indices (Rollover c).2 → comma_free name) →
  let after := indices (Rollover c).2 in
  let matched : gset string := filter (matches alias) after in
  (2 < size matched)%nat →
  ∃ run : Run,
    rolloverIndexJob c alias = Return run
    ∧ indices (cluster run)
      = after ∖ list_to_set (take (size matched - 2) (sort_Strings (elements matched))).
Proof.
  intros Hresp Hcat Hdel Hfree after matched Hmany.
  destruct (Rollover_answered c resp Hresp) as (Hroll & Hcat' & Hdel' & _).
  unfold rolloverIndexJob. rewrite Hroll. set (c1 := (Rollover c).2) in *.
  assert (Hrows : CatIndices c1 alias = elements matched).
  { unfold CatIndices. by rewrite Hcat', Hcat. }
  rewrite Hrows.
  destruct (sort_Strings_sorted (elements matched)) as [_ Hperm].
  assert (Hlen : length (sort_Strings (elements matched)) = size matched).
  { by rewrite Hperm. }
  assert (Hsize : length (elements matched) = size matched) by done.
  rewrite decide_True by lia. rewrite Hlen.
  set (deleted := take (size matched - 2) (sort_Strings (elements matched))).
  assert (Hne : deleted ≠ []).
  { intros Hnil. apply (f_equal length) in Hnil. unfold deleted in Hnil.
    rewrite length_take in Hnil. simpl in Hnil. lia. }
  assert (Hdeleted_free : Forall comma_free deleted).
  { apply Forall_forall. intros d Hd. apply Hfree.
    apply subseteq_take in Hd. rewrite Hperm in Hd.
    apply elem_of_elements in Hd. by apply elem_of_filter in Hd as [_ ?]. }
  unfold DeleteIndex. rewrite Hdel', Hdel. eexists. split; [ reflexivity | ].
  simpl. by rewrite Split_Join.
Qed.

(** After a run of the job in which the cluster answers the rollover, the
    listing and the deletion, at most two indices match [alias-*]: as many
    as matched when these were two or fewer, two otherwise. Which indices
    do not match is left as it was. A second run right after it, on a
    cluster that does not roll over, asks for no deletion and leaves the
    indices as they are, whether or not its listing succeeds. *)
Theorem rolloverIndexJob_leaves_two (c : Cluster) (alias : string)
    (resp : RolloverResponse) :
  rollover_answer c = Some resp →
  cat_fails c = false →
  delete_fails c = false →
  (∀ name : string, name ∈ indices (Rollover c).2 → comma_free name) →
  let after := indices (Rollover c).2 in
  let matched : gset string := filter (matches alias) after in
  ∃ run : Run,
    rolloverIndexJob c alias = Return run
    ∧ size (filter (matches alias) (indices (cluster run))) = (size matched `min` 2)%nat
    ∧ (∀ i : string,
         String.prefix (alias +:+ "-") i = false →
         i ∈ indices (cluster run) ↔ i ∈ after)
    ∧ (∀ (c2 : Cluster) (resp2 : RolloverResponse),
         indices c2 = indices (cluster run) →
         rollover_answer c2 = Some resp2 →
         RolledOver resp2 = false →
         ∃ run2 : Run,
           rolloverIndexJob c2 alias = Return run2
           ∧ delete_request run2 = None
           ∧ indices (cluster run2) = indices c2).
Proof.
  intros Hresp Hcat Hdel Hfree after matched.
  assert (Hagain : ∀ (I : gset string) (c2 : Cluster) (resp2 : RolloverResponse),
            (size (filter (matches alias) I) ≤ 2)%nat →
            indices c2 = I → rollover_answer c2 = Some resp2 → RolledOver resp2 = false →
            ∃ run2 : Run,
              rolloverIndexJob c2 alias = Return run2
              ∧ delete_request run2 = None
              ∧ indices (cluster run2) = indices c2).
  { intros I c2 resp2 Hfew HI Hresp2 Hstay.
    destruct (Rollover_answered c2 resp2 Hresp2) as (_ & _ & _ & Hsame).
    rewrite Hstay in Hsame.
    destruct (rolloverIndexJob_few c2 alias resp2 Hresp2) as (run2 & Hrun2 & Hnone & Hc2).
    { by rewrite Hsame, HI. }
    exists run2. by rewrite Hc2. }
  destruct (decide (2 < size matched)%nat) as [Hmany | Hfew].
  - destruct (rolloverIndexJob_many c alias resp Hresp Hcat Hdel Hfree Hmany)
      as (run & Hrun & Hleft).
    fold after matched in Hleft.
    set (deleted := take (size matched - 2) (sort_Strings (elements matched))) in *.
    destruct (sort_Strings_sorted (elements matched)) as [_ Hperm].
    assert (Hlen : length (sort_Strings (elements matched)) = size matched).
    { by rewrite Hperm. }
    assert (Hsub : ∀ d : string, d ∈ deleted → d ∈ matched).
    { intros d Hd. apply subseteq_take in Hd. rewrite Hperm in Hd.
      by apply elem_of_elements in Hd. }
    assert (Hnodup : NoDup deleted).
    { apply (sublist_NoDup _ (sort_Strings (elements matched))).
      - rewrite Hperm. apply NoDup_elements.
      - apply sublist_take. }
    assert (Hkept : filter (matches alias) (indices (cluster run))
                    = matched ∖ list_to_set deleted).
    { rewrite Hleft. apply set_eq. intros i.
      rewrite elem_of_filter, !elem_of_difference. unfold matched.
      rewrite elem_of_filter. tauto. }
    assert (Hcount : size (filter (matches alias) (indices (cluster run))) = 2%nat).
    { rewrite Hkept, size_difference.
      - rewrite size_list_to_set by done. unfold deleted. rewrite length_take. lia.
      - intros d Hd. apply elem_of_list_to_set in Hd. by apply Hsub. }
    exists run. split; [ done | ]. split; [ rewrite Hcount; lia | ]. split.
    + intros i Hi. rewrite Hleft, elem_of_difference, elem_of_list_to_set.
      split; [ tauto | ]. intros Hin. split; [ done | ]. intros Hd.
      apply Hsub in Hd. apply elem_of_filter in Hd as [Hd _]. congruence.
    + intros c2 resp2. apply Hagain. lia.
  - destruct (rolloverIndexJob_few c alias resp Hresp) as (run & Hrun & _ & Hc).
    { fold after matched. lia. }
    exists run. rewrite Hc. fold after matched.
    split; [ done | ]. split; [ lia | ]. split; [ done | ].
    intros c2 resp2. apply Hagain. fold after matched. lia.
Qed.

(** What the job does when a request fails. When the rollover request fails
    the job dereferences the nil response. When that request is answered the
    job returns, whatever becomes of the listing and of the deletion; it
    never adds an index to those present after the rollover; and when the
    listing or the deletion fails, it removes none. A failed listing is
    taken for an empty one, so that no deletion is asked for. *)
Theorem rolloverIndexJob_failed_requests (c : Cluster) (alias : string) :
  (rollover_answer c = None → rolloverIndexJob c alias = Panic)
  ∧ (∀ resp : RolloverResponse,
       rollover_answer c = Some resp →
       ∃ run : Run,
         rolloverIndexJob c alias = Return run
         ∧ indices (cluster run) ⊆ indices (Rollover c).2
         ∧ (cat_fails c = true →
            delete_request run = None ∧ indices (cluster run) = indices (Rollover c).2)
         ∧ (delete_fails c = true → indices (cluster run) = indices (Rollover c).2)).
Proof.
  split.
  - intros Hnone. unfold rolloverIndexJob, Rollover. by rewrite Hnone.
  - intros resp Hresp.
    destruct (Rollover_answered c resp Hresp) as (Hroll & Hcat' & Hdel' & _).
    unfold rolloverIndexJob. rewrite Hroll. set (c1 := (Rollover c).2) in *.
    unfold CatIndices, DeleteIndex. rewrite Hcat', Hdel'.
    destruct (cat_fails c) eqn:Hcat.
    + rewrite decide_False by (simpl; lia). eexists. split; [ reflexivity | ]. simpl.
      split; [ done | ]. split; [ done | ]. done.
    + case_decide.
      * destruct (delete_fails c) eqn:Hdel.
        -- eexists. split; [ reflexivity | ]. simpl. split; [ done | ].
           split; [ done | ]. done.
        -- eexists. split; [ reflexivity | ]. simpl.
           split; [ apply subseteq_difference_l; done | ]. split; done.
      * eexists. split; [ reflexivity | ]. simpl. split; [ done | ].
        split; [ done | ]. done.
Qed.

End RolloverRuns.

Lemma rolloverIndexJob_leaves_two_witness :
  ∃ run : LogsDao.Run,
    LogsDao.rolloverIndexJob Samples.logs_cluster ".logs" = Model.Return run
    ∧ size (filter (λ i : string, String.prefix (".logs" +:+ "-") i = true)
              (LogsDao.indices (LogsDao.cluster run))) = 2%nat.
Proof.
  destruct (rolloverIndexJob_leaves_two Samples.logs_cluster ".logs" Samples.rolled)
    as (run & Hrun & Hsize & _).
  - reflexivity.
  - reflexivity.
  - reflexivity.
  - intros name Hname.
    unfold LogsDao.Rollover, Samples.logs_cluster, Samples.rolled in Hname.
    simpl in Hname. set_unfold in Hname.
    destruct_or!; subst name; reflexivity.
  - exists run. split; [ exact Hrun | ]. rewrite Hsize. vm_compute. reflexivity.
Defined.


(** ** More on operation tokens *)

Section OperationFacts.

Lemma operations_range (o : Op.Operation) :
  o ∈ Op.operations ↔ o = Op.Noop ∨ o = Op.Read ∨ o = Op.Write ∨ o = Op.Delete.
Proof.
  unfold Op.operations. rewrite !elem_of_cons, elem_of_nil. tauto.
Qed.

(** [MarshalJSON] succeeds on the four operations and on nothing else, and
    gives different texts for different operations. On any other integer it
    returns an error, whose message names no operation (the name is still
    empty when the message is built), where [String] would index outside
    its array. *)
Theorem operation_marshal_domain (o : Op.Operation) :
  (o ∈ Op.operations ↔ ∃ text : string, Op.MarshalJSON o = (Some text, None))
  ∧ (o ∈ Op.operations ↔ is_Some (Op.String' o))
  ∧ (o ∉ Op.operations →
     Op.MarshalJSON o = (None, Some (Error "invalid op encountered: "))
     ∧ Op.String' o = None)
  ∧ (∀ (o' : Op.Operation) (text : string),
       Op.MarshalJSON o = (Some text, None) →
       Op.MarshalJSON o' = (Some text, None) →
       o = o').
Proof.
  assert (Hcases : ∀ x : Op.Operation,
            (x ∈ Op.operations
             ∧ ∃ tok : string,
                 Op.String' x = Some tok
                 ∧ Op.MarshalJSON x = (Some (Json.Marshal tok), None)
                 ∧ ["noop"; "read"; "write"; "delete"] !! Z.to_nat x = Some tok)
            ∨ ((x ∉ Op.operations)
               ∧ Op.MarshalJSON x = (None, Some (Error "invalid op encountered: "))
               ∧ Op.String' x = None)).
  { intros x. unfold Op.MarshalJSON.
    destruct (decide (x = Op.Noop)) as [-> | H0].
    { left. split; [ repeat constructor | by exists "noop" ]. }
    destruct (decide (x = Op.Read)) as [-> | H1].
    { left. split; [ repeat constructor | by exists "read" ]. }
    destruct (decide (x = Op.Write)) as [-> | H2].
    { left. split; [ repeat constructor | by exists "write" ]. }
    destruct (decide (x = Op.Delete)) as [-> | H3].
    { left. split; [ repeat constructor | by exists "delete" ]. }
    right. split; [ rewrite operations_range; tauto | ]. split; [ done | ].
    unfold Op.String'. case_decide; [ | done ].
    unfold Op.Noop, Op.Read, Op.Write, Op.Delete in *.
    apply lookup_ge_None_2. simpl. lia. }
  split; [ | split; [ | split ] ].
  - destruct (Hcases o) as [(Hin & tok & _ & Hm & _) | (Hout & Hm & _)].
    + split; [ by eexists | done ].
    + split; [ done | ]. intros [text Htext]. rewrite Hm in Htext. discriminate Htext.
  - destruct (Hcases o) as [(Hin & tok & Hs & _) | (Hout & _ & Hs)].
    + split; [ by rewrite Hs | done ].
    + split; [ done | ]. rewrite Hs. by intros [? [=]].
  - intros Hout. destruct (Hcases o) as [(Hin & _) | (_ & Hm & Hs)]; done.
  - intros o' text Ho Ho'.
    destruct (Hcases o) as [(Hin & _) | (_ & Hm & _)];
      [ | rewrite Hm in Ho; discriminate Ho ].
    destruct (Hcases o') as [(Hin' & _) | (_ & Hm' & _)];
      [ | rewrite Hm' in Ho'; discriminate Ho' ].
    apply operations_range in Hin, Hin'.
    destruct Hin as [-> | [-> | [-> | ->]]], Hin' as [-> | [-> | [-> | ->]]];
      try reflexivity;
      vm_compute in Ho, Ho'; injection Ho as <-; discriminate Ho'.
Qed.

(** Whatever text [UnmarshalJSON] accepts, the operation it stores is one
    of the four, its token is the string the text decodes to, and
    marshalling the operation gives the canonical text of that token, from
    which [UnmarshalJSON] reads the same operation again. The accepted text
    itself need not be canonical. *)
Theorem operation_unmarshal_then_marshal (o0 o : Op.Operation) (bytes : string) :
  Op.UnmarshalJSON o0 bytes = (o, None) →
  o ∈ Op.operations
  ∧ ∃ tok : string,
      Json.Unmarshal bytes "" = (tok, None)
      ∧ Op.String' o = Some tok
      ∧ Op.MarshalJSON o = (Some (Json.Marshal tok), None)
      ∧ ∀ o1 : Op.Operation, Op.UnmarshalJSON o1 (Json.Marshal tok) = (o, None).
Proof.
  unfold Op.UnmarshalJSON.
  destruct (Json.Unmarshal bytes "") as [op [e |]] eqn:Hdec; [ intros [=] | ].
  destruct (decide (op = Op.noop_s)) as [-> | _].
  { intros [= <-]. split; [ repeat constructor | ]. exists "noop".
    repeat split; reflexivity. }
  destruct (decide (op = Op.read_s)) as [-> | _].
  { intros [= <-]. split; [ repeat constructor | ]. exists "read".
    repeat split; reflexivity. }
  destruct (decide (op = Op.write_s)) as [-> | _].
  { intros [= <-]. split; [ repeat constructor | ]. exists "write".
    repeat split; reflexivity. }
  destruct (decide (op = Op.delete_s)) as [-> | _].
  { intros [= <-]. split; [ repeat constructor | ]. exists "delete".
    repeat split; reflexivity. }
  intros [=].
Qed.

End OperationFacts.

Lemma operation_unmarshal_then_marshal_witness :
  Op.Write ∈ Op.operations
  ∧ ∃ tok : string,
      Json.Unmarshal (" " +:+ Json.Marshal "write") "" = (tok, None)
      ∧ Op.String' Op.Write = Some tok
      ∧ Op.MarshalJSON Op.Write = (Some (Json.Marshal tok), None)
      ∧ ∀ o1 : Op.Operation, Op.UnmarshalJSON o1 (Json.Marshal tok) = (Op.Write, None).
Proof.
  apply (operation_unmarshal_then_marshal Op.Noop Op.Write (" " +:+ Json.Marshal "write")).
  vm_compute. reflexivity.
Defined.


(** ** More on the recorder middleware *)

Section RecordingFacts.
Import Model Http.

Variable float64 : Type.
Variable searchTook settingsTook : string → option float64.
Variable StatusText : Z → string.
Variable marshalRecord : LogsRS.record float64 → string.
Variable errorBody : string → Z → string.

Local Abbreviation serveRS :=
  (LogsRS.serve float64 searchTook settingsTook StatusText marshalRecord).
Local Abbreviation recordResponseRS :=
  (LogsRS.recordResponse float64 searchTook settingsTook StatusText marshalRecord).
Local Abbreviation recordResponseArc :=
  (LogsArc.recordResponse float64 searchTook settingsTook StatusText).

Lemma persist_written (env : LogsRS.Env) (rec : LogsRS.record float64) (lines : list string) :
  LogsRS.written (LogsRS.persist float64 marshalRecord env rec lines)
  = if LogsRS.marshal_record_fails env then []
    else if LogsRS.write_fails env then []
    else marshalRecord rec
         :: (if LogsRS.newline_fails env then [] else [String Bytes.LF ""]).
Proof.
  unfold LogsRS.persist.
  by destruct (LogsRS.marshal_record_fails env), (LogsRS.write_fails env).
Qed.

Lemma persist_logs_success (env : LogsRS.Env) (rec : LogsRS.record float64)
    (lines : list string) :
  LogsRS.marshal_record_fails env = false →
  LogsRS.write_fails env = false →
  last (LogsRS.rlogged (LogsRS.persist float64 marshalRecord env rec lines))
  = Some (LogsRS.logTag +:+ " logged request successfully").
Proof.
  intros Hmarshal Hwrite. unfold LogsRS.persist. rewrite Hmarshal, Hwrite. simpl.
  apply last_snoc.
Qed.

(** The record and the writes of one recording step of the ReactiveSearch
    revision. *)
Lemma recordResponseRS_outcome (env : LogsRS.Env) (w : Writer) (r : Request)
    (reqBody : string) (rd : LogsRS.Recorded float64) :
  recordResponseRS env w r reqBody = Return rd →
  (LogsRS.built rd = None ∧ LogsRS.written rd = []
   ∧ (ctx_category (Ctx r) = None ∨ ctx_indices (Ctx r) = None
      ∨ LogsRS.read_fails env = true
      ∨ (ctx_category (Ctx r) = Some ReactiveSearch
         ∧ LogsRS.marshal_request_fails env = true)))
  ∨ (∃ rec : LogsRS.record float64,
       LogsRS.built rd = Some rec
       ∧ LogsRS.written rd
         = (if LogsRS.marshal_record_fails env then []
            else if LogsRS.write_fails env then []
            else marshalRecord rec
                 :: (if LogsRS.newline_fails env then [] else [String Bytes.LF ""]))
       ∧ LogsRS.read_fails env = false
       ∧ ctx_category (Ctx r) = Some (LogsRS.RCategory rec)
       ∧ ctx_indices (Ctx r) = Some (LogsRS.Indices rec)
       ∧ (LogsRS.RCategory rec = ReactiveSearch → LogsRS.marshal_request_fails env = false)
       ∧ LogsRS.URI (LogsRS.Req rec) = Path r
       ∧ LogsRS.RMethod (LogsRS.Req rec) = Method r
       ∧ LogsRS.Headers (LogsRS.Req rec) = ReqHeader r
       ∧ LogsRS.Timestamp rec = LogsRS.now env
       ∧ LogsRS.RCode (LogsRS.Resp rec) = Code w
       ∧ LogsRS.Status (LogsRS.Resp rec) = StatusText (Code w)
       ∧ LogsRS.RHeaders (LogsRS.Resp rec) = ResultHeader w
       ∧ (LogsRS.RCategory rec ≠ Search → LogsRS.RCategory rec ≠ ReactiveSearch →
          LogsRS.Took (LogsRS.Resp rec) = None)).
Proof.
  unfold LogsRS.recordResponse, LogsRS.gave_up.
  destruct (ctx_category (Ctx r)) as [cat |]; [ | intros [= <-]; left; simpl; tauto ].
  destruct (ctx_indices (Ctx r)) as [idx |]; [ | intros [= <-]; left; simpl; tauto ].
  destruct (LogsRS.read_fails env); [ intros [= <-]; left; simpl; tauto | ].
  destruct (decide (cat = ReactiveSearch)) as [-> | Hcat].
  - destruct (LogsRS.marshal_request_fails env); [ intros [= <-]; left; simpl; tauto | ].
    rewrite !capped_RS. intros [= <-]. right. eexists.
    split; [ apply persist_built | ]. split; [ apply persist_written | ].
    simpl. repeat split; done.
  - rewrite !capped_RS. intros [= <-]. right. eexists.
    split; [ apply persist_built | ]. split; [ apply persist_written | ].
    simpl. repeat split; try done.
    intros Hsearch _. by rewrite decide_False.
Qed.

(** The recording step logs its success once the record itself is
    written, whatever became of the line feed. *)
Lemma recordResponseRS_logs_success (env : LogsRS.Env) (w : Writer) (r : Request)
    (reqBody : string) (rd : LogsRS.Recorded float64) :
  recordResponseRS env w r reqBody = Return rd →
  is_Some (LogsRS.built rd) →
  LogsRS.marshal_record_fails env = false →
  LogsRS.write_fails env = false →
  last (LogsRS.rlogged rd) = Some (LogsRS.logTag +:+ " logged request successfully").
Proof.
  unfold LogsRS.recordResponse, LogsRS.gave_up. intros Hrd Hbuilt Hmarshal Hwrite.
  destruct (ctx_category (Ctx r)) as [cat |];
    [ | injection Hrd as <-; by destruct Hbuilt as [? [=]] ].
  destruct (ctx_indices (Ctx r)) as [idx |];
    [ | injection Hrd as <-; by destruct Hbuilt as [? [=]] ].
  destruct (LogsRS.read_fails env);
    [ injection Hrd as <-; by destruct Hbuilt as [? [=]] | ].
  destruct (decide (cat = ReactiveSearch)) as [-> | Hcat].
  - destruct (LogsRS.marshal_request_fails env);
      [ injection Hrd as <-; by destruct Hbuilt as [? [=]] | ].
    rewrite !capped_RS in Hrd. injection Hrd as <-. by apply persist_logs_success.
  - rewrite !capped_RS in Hrd. injection Hrd as <-. by apply persist_logs_success.
Qed.


(** What a record of the ReactiveSearch revision says of the exchange it
    was taken from. The request side is the path, the method and the
    headers of the request; indices and category are those of the request
    context, the time that of the recording step. The response side is the
    status code the wrapped handler left in the recorder, which is the code
    the client is sent when nothing had been sent before, with its status
    text; the headers recorded are those that stood when the handler wrote
    its status, while the client is given the recorder's header map as the
    handler left it, laid over its own. *)
Theorem record_matches_exchange (env : LogsRS.Env) (h : HandlerFunc) (w : Writer)
    (r : Request) (t : LogsRS.Task) (rd : LogsRS.Recorded float64)
    (rec : LogsRS.record float64) :
  LogsRS.spawned (LogsRS.recorder h w r) = Some t →
  recordResponseRS env (LogsRS.task_recorder t) (LogsRS.task_request t) (LogsRS.task_dump t)
    = Return rd →
  LogsRS.built rd = Some rec →
  let handled := h NewRecorder r in
  LogsRS.URI (LogsRS.Req rec) = Path r
  ∧ LogsRS.RMethod (LogsRS.Req rec) = Method r
  ∧ LogsRS.Headers (LogsRS.Req rec) = ReqHeader r
  ∧ ctx_indices (Ctx r) = Some (LogsRS.Indices rec)
  ∧ ctx_category (Ctx r) = Some (LogsRS.RCategory rec)
  ∧ LogsRS.Timestamp rec = LogsRS.now env
  ∧ LogsRS.RCode (LogsRS.Resp rec) = Code handled
  ∧ LogsRS.Status (LogsRS.Resp rec) = StatusText (Code handled)
  ∧ LogsRS.RHeaders (LogsRS.Resp rec) = ResultHeader handled
  ∧ (sent w = None →
     sent (LogsRS.client (LogsRS.recorder h w r))
       = Some (LogsRS.RCode (LogsRS.Resp rec), hdr handled ∪ hdr w))
  ∧ (LogsRS.RCategory rec ≠ Search → LogsRS.RCategory rec ≠ ReactiveSearch →
     LogsRS.Took (LogsRS.Resp rec) = None).
Proof.
  intros Hspawn Hrd Hbuilt handled.
  assert (Htask : LogsRS.task_request t = r ∧ LogsRS.task_recorder t = handled
                  ∧ LogsRS.client (LogsRS.recorder h w r) = copied handled w).
  { unfold LogsRS.recorder in *.
    destruct (decide (Get (ReqHeader r) "X-Request-Category" = "streams"));
      [ discriminate Hspawn | ].
    destruct (ctx_category (Ctx r)) as [cat |]; [ | discriminate Hspawn ].
    destruct (if decide (cat ≠ ReactiveSearch) then DumpRequest r else inl "")
      as [dump | [err]]; [ | discriminate Hspawn ].
    by injection Hspawn as <-. }
  destruct Htask as (Hreq & Hrec & Hclient).
  apply recordResponseRS_outcome in Hrd. rewrite Hreq, Hrec in Hrd.
  destruct Hrd as [(Hnone & _) | (rec' & Hsome & _ & _ & Hcat & Hidx & _ & Huri & Hmeth
                                  & Hhdr & Htime & Hcode & Hstatus & Hrh & Htook)];
    [ congruence | ].
  assert (rec' = rec) as -> by congruence.
  repeat (split; [ assumption | ]).
  split; [ | assumption ].
  intros Hunsent. rewrite Hclient, Hcode.
  by destruct (copied_unsent handled w Hunsent) as [-> _].
Qed.

(** The record of the Arc revision and the exchange it was taken from: the
    request side is the path, the method and the headers of the request and
    the first bytes of its body, up to the ceiling; the response side is
    the status code and the first bytes of the body the wrapped handler left
    in the recorder, with the headers that stood when it wrote its
    status. *)
Theorem record_matches_exchange_arc (env : LogsArc.Env) (h : HandlerFunc) (w : Writer)
    (r : Request) (s : LogsArc.Served) (t : LogsArc.Task)
    (rd : LogsArc.Recorded float64) (rec : LogsArc.record float64) :
  LogsArc.recorder errorBody h w r = Return s →
  LogsArc.spawned s = Some t →
  recordResponseArc env (LogsArc.task_request_rec t) (LogsArc.task_recorder t)
    (LogsArc.task_request t) = Return rd →
  LogsArc.built rd = Some rec →
  let handled := h NewRecorder r in
  (∃ reqBody : string,
     ReqBody r = Some reqBody
     ∧ LogsArc.Body (LogsArc.Req rec)
       = Bytes.first_bytes (Bytes.Min (Bytes.len reqBody) Bytes.ceiling) reqBody)
  ∧ LogsArc.URI (LogsArc.Req rec) = Path r
  ∧ LogsArc.RMethod (LogsArc.Req rec) = Method r
  ∧ LogsArc.Headers (LogsArc.Req rec) = ReqHeader r
  ∧ ctx_indices (Ctx r) = Some (LogsArc.Indices rec)
  ∧ ctx_category (Ctx r) = Some (LogsArc.RCategory rec)
  ∧ LogsArc.Timestamp rec = LogsArc.now env
  ∧ LogsArc.RCode (LogsArc.Resp rec) = Code handled
  ∧ LogsArc.Status (LogsArc.Resp rec) = StatusText (Code handled)
  ∧ LogsArc.RHeaders (LogsArc.Resp rec) = ResultHeader handled
  ∧ LogsArc.RBody (LogsArc.Resp rec)
    = Bytes.first_bytes (Bytes.Min (Bytes.len (body handled)) Bytes.ceiling) (body handled)
  ∧ LogsArc.client s = copied handled w.
Proof.
  intros Hs Hspawn Hrd Hbuilt handled.
  unfold LogsArc.recorder in Hs.
  destruct (decide (Get (ReqHeader r) "X-Request-Category" = "streams"));
    [ injection Hs as <-; discriminate Hspawn | ].
  unfold ReadAll in Hs.
  destruct (ReqBody r) as [reqBody |] eqn:Hbody;
    [ | injection Hs as <-; discriminate Hspawn ].
  rewrite capped_Arc in Hs. injection Hs as <-. simpl in Hspawn.
  injection Hspawn as <-. simpl in Hrd.
  unfold LogsArc.recordResponse, LogsArc.gave_up in Hrd.
  destruct (ctx_category (Ctx r)) as [cat |];
    [ | injection Hrd as <-; discriminate Hbuilt ].
  destruct (ctx_indices (Ctx r)) as [idx |];
    [ | injection Hrd as <-; discriminate Hbuilt ].
  destruct (LogsArc.read_fails env); [ injection Hrd as <-; discriminate Hbuilt | ].
  rewrite capped_Arc in Hrd. injection Hrd as <-. simpl in Hbuilt.
  injection Hbuilt as <-. simpl.
  split; [ by exists reqBody | ]. repeat split; reflexivity.
Qed.

(** How the recorder middleware copies a recorded response to the client's
    writer. Header by header, the values of the recorder replace those the
    writer held under the same key (they are not appended), and the keys
    the recorder does not hold keep their values. When the writer had
    already sent a status, that status and the headers sent with it stay as
    they are: the handler's status code does not reach the client, only its
    body does, after what was written before. *)
Theorem copied_headers_and_status (rec w : Writer) :
  (∀ key : string,
     hdr (copied rec w) !! key
     = match hdr rec !! key with
       | Some values => Some values
       | None => hdr w !! key
       end)
  ∧ (∀ status : Z * Header,
       sent w = Some status →
       sent (copied rec w) = Some status)
  ∧ body (copied rec w) = body w +:+ body rec
  ∧ (∀ (code : Z) (snapshot : Header),
       sent rec = Some (code, snapshot) →
       sent w = None →
       ResultHeader rec = snapshot
       ∧ sent (copied rec w) = Some (code, hdr rec ∪ hdr w)).
Proof.
  split; [ | split; [ | split ] ].
  - intros key. unfold copied, Write, WriteHeader, copy_headers. simpl.
    assert (Hkey : (hdr rec ∪ hdr w) !! key
                   = match hdr rec !! key with
                     | Some values => Some values
                     | None => hdr w !! key
                     end).
    { rewrite lookup_union. destruct (hdr rec !! key), (hdr w !! key); done. }
    destruct (sent w); simpl; exact Hkey.
  - intros status Hsent. unfold copied, Write, WriteHeader, copy_headers. simpl.
    rewrite Hsent. simpl. by rewrite ?Hsent.
  - unfold copied, Write, WriteHeader, copy_headers. simpl.
    destruct (sent w); simpl; destruct (sent w); done.
  - intros code snapshot Hrec Hw. unfold ResultHeader, Code. rewrite Hrec.
    split; [ done | ].
    destruct (copied_unsent rec w Hw) as [-> _]. unfold Code. by rewrite Hrec.
Qed.

End RecordingFacts.


Lemma record_matches_exchange_witness :
  ∃ rec : LogsRS.record Z,
    LogsRS.RCode (LogsRS.Resp rec)
      = Http.Code (Samples.created Http.NewRecorder Samples.req_plain)
    ∧ LogsRS.URI (LogsRS.Req rec) = Http.Path Samples.req_plain
    ∧ Http.sent (LogsRS.client (LogsRS.recorder Samples.created Samples.fresh
                                  Samples.req_plain))
      = Some (LogsRS.RCode (LogsRS.Resp rec),
              Http.hdr (Samples.created Http.NewRecorder Samples.req_plain)
              ∪ Http.hdr Samples.fresh).
Proof.
  edestruct (record_matches_exchange Z Samples.no_took Samples.no_took Samples.StatusText
               Samples.marshalRecord Samples.errorBody Samples.env_rs Samples.created
               Samples.fresh Samples.req_plain)
    as (Huri & _ & _ & _ & _ & _ & Hcode & _ & _ & Hsent & _).
  - vm_compute. reflexivity.
  - vm_compute. reflexivity.
  - vm_compute. reflexivity.
  - eexists. split; [ exact Hcode | ]. split; [ exact Huri | ].
    apply Hsent. reflexivity.
Defined.

Lemma record_matches_exchange_arc_witness :
  ∃ (s : LogsArc.Served) (rec : LogsArc.record Z),
    LogsArc.recorder Samples.errorBody Samples.created Samples.fresh Samples.req_plain
      = Model.Return s
    ∧ LogsArc.RCode (LogsArc.Resp rec)
      = Http.Code (Samples.created Http.NewRecorder Samples.req_plain)
    ∧ LogsArc.client s
      = Http.copied (Samples.created Http.NewRecorder Samples.req_plain) Samples.fresh.
Proof.
  edestruct (record_matches_exchange_arc Z Samples.no_took Samples.no_took
               Samples.StatusText Samples.errorBody Samples.env_arc Samples.created
               Samples.fresh Samples.req_plain)
    as (_ & _ & _ & _ & _ & _ & _ & Hcode & _ & _ & _ & Hclient).
  - vm_compute. reflexivity.
  - vm_compute. reflexivity.
  - vm_compute. reflexivity.
  - vm_compute. reflexivity.
  - eexists _, _. split; [ vm_compute; reflexivity | ].
    split; [ exact Hcode | exact Hclient ].
Defined.


(** ** Permissions by role *)

Section RoleFacts.
Import Model AuthDao.

Variable marshalRaw : string → string + error.
Variable unmarshalPermission : string → Permission + error.

(** Looking a permission up by its role. For a role bound to no permission
    [getRawRolePermission] returns neither bytes nor an error, and
    [getRolePermission], which decodes what it is given, returns the error
    of decoding an empty input: unlike [getCredential], it reports the
    absence as an error. For a role bound to one permission or to several,
    the first match alone is looked at: when its source marshals, the
    permission it decodes to is returned and the other matches are no
    error. When the search fails, both return its error. *)
Theorem getRolePermission_first_match (es : elasticsearch) (c : RoleCluster)
    (role : string) :
  (answers c = false →
   getRawRolePermission marshalRaw es c role = Return (None, Some unreachable)
   ∧ getRolePermission marshalRaw unmarshalPermission es c role
     = Return (None, Some unreachable))
  ∧ (answers c = true →
     role_matching c (permissionIndex es) role = [] →
     getRawRolePermission marshalRaw es c role = Return (None, None)
     ∧ ∀ e : error,
         unmarshalPermission "" = inr e →
         getRolePermission marshalRaw unmarshalPermission es c role
         = Return (None, Some e))
  ∧ (∀ (d : RoleDoc) (rest : list RoleDoc) (raw src : string),
       answers c = true →
       role_matching c (permissionIndex es) role = d :: rest →
       rd_source d = Some raw →
       marshalRaw raw = inl src →
       getRawRolePermission marshalRaw es c role = Return (Some src, None)
       ∧ getRolePermission marshalRaw unmarshalPermission es c role
         = match unmarshalPermission src with
           | inl p => Return (Some p, None)
           | inr e => Return (None, Some e)
           end).
Proof.
  unfold getRolePermission, getRawRolePermission, SearchRole.
  split; [ | split ].
  - intros ->. done.
  - intros -> ->. simpl. split; [ done | ]. by intros e ->.
  - intros d rest raw src -> -> Hraw Hsrc. simpl. rewrite Hraw, Hsrc.
    split; [ done | ]. simpl. by destruct (unmarshalPermission src).
Qed.

End RoleFacts.

Lemma getRolePermission_first_match_witness :
  AuthDao.getRawRolePermission Samples.marshalRaw Samples.es_single Samples.role_cluster
    "editor" = Model.Return (Some "first", None)
  ∧ AuthDao.getRolePermission Samples.marshalRaw Samples.unmarshalPermission
      Samples.es_single Samples.role_cluster "editor"
    = match Samples.unmarshalPermission "first" with
      | inl p => Model.Return (Some p, None)
      | inr e => Model.Return (None, Some e)
      end.
Proof.
  eapply (proj2 (proj2 (getRolePermission_first_match Samples.marshalRaw
                          Samples.unmarshalPermission Samples.es_single
                          Samples.role_cluster "editor"))).
  - reflexivity.
  - vm_compute. reflexivity.
  - reflexivity.
  - reflexivity.
Defined.
